(** * hexrdgui: the material site editor

    A shallow embedding of [hexrd/ui/material_site_editor.py] and the
    properties of its editing logic: the U/B thermal-factor conversion, the
    occupancy-sum validator, the write-back of widget values into the site
    ([update_config]), the replacement of the atom list
    ([atom_types] setter) and the validity-gated [site_modified] signal.

    Python floats are IEEE 754 binary64 values: they are Rocq's primitive
    [float]s, whose operations are specified by [SpecFloat].  The editor is a
    mutable object; its methods are computations in a state monad whose
    state survives a raised exception, as a mutated Python object does. *)

From Stdlib Require Import Floats ZArith QArith Qabs Qpower List String Bool Lia Lqa.
Import ListNotations.
Close Scope Q_scope.

Set Implicit Arguments.
#[local] Set Warnings "-inexact-float".

(** ** Python runtime *)

(** The exceptions the module can raise, directly ([Exception]) or through
    the operations it uses. *)
Inductive exn : Type :=
| Exception (msg : string)
| KeyError (key : string)
| IndexError
| ZeroDivisionError.

(** ** Data model *)

(** An atom is a dict with the keys ['symbol'], ['occupancy'] and ['U'].  The
    [atom_types] setter creates atoms without the ['occupancy'] key and
    [reset_occupancies] adds it, so the key is optional. *)
Record Atom : Type := mkAtom {
  atom_symbol : string;
  atom_occupancy : option float;
  atom_U : float
}.

(** The site dict, owned by the caller and mutated in place. *)
Record Site : Type := mkSite {
  site_total_occupancy : float;
  site_fractional_coords : list float;
  site_atoms : list Atom
}.

(** A spin box, as far as the editor reads and writes it. *)
Record SpinBox : Type := mkSpinBox {
  sb_value : float;
  sb_minimum : float;
  sb_maximum : float;
  sb_styleSheet : string;
  sb_toolTip : string
}.

(** The widgets of [material_site_editor.ui].  The cell widgets of the table
    are the spin boxes of the two lists of the editor, row [i] holding the
    spin boxes of index [i]; the table itself keeps its row count, the symbol
    labels and the header of the thermal factor column. *)
Record Ui : Type := mkUi {
  ui_total_occupancy : SpinBox;
  ui_coords_x : SpinBox;
  ui_coords_y : SpinBox;
  ui_coords_z : SpinBox;
  ui_thermal_factor_type : string;
  ui_table_rowCount : nat;
  ui_table_symbols : list (nat * nat * string);
  ui_table_header : string
}.

(** The editor object: the site it holds a reference to, its widgets, and
    the number of times [site_modified] was emitted. *)
Record Editor : Type := mkEditor {
  ed_site : Site;
  ed_ui : Ui;
  occupancy_spinboxes : list SpinBox;
  thermal_factor_spinboxes : list SpinBox;
  site_modified_emitted : nat
}.

Definition with_site (f : Site -> Site) (ed : Editor) : Editor :=
  mkEditor (f (ed_site ed)) (ed_ui ed) (occupancy_spinboxes ed)
           (thermal_factor_spinboxes ed) (site_modified_emitted ed).

Definition with_ui (f : Ui -> Ui) (ed : Editor) : Editor :=
  mkEditor (ed_site ed) (f (ed_ui ed)) (occupancy_spinboxes ed)
           (thermal_factor_spinboxes ed) (site_modified_emitted ed).

Definition with_occupancy_spinboxes (f : list SpinBox -> list SpinBox)
  (ed : Editor) : Editor :=
  mkEditor (ed_site ed) (ed_ui ed) (f (occupancy_spinboxes ed))
           (thermal_factor_spinboxes ed) (site_modified_emitted ed).

Definition with_thermal_factor_spinboxes (f : list SpinBox -> list SpinBox)
  (ed : Editor) : Editor :=
  mkEditor (ed_site ed) (ed_ui ed) (occupancy_spinboxes ed)
           (f (thermal_factor_spinboxes ed)) (site_modified_emitted ed).

Definition with_emitted (f : nat -> nat) (ed : Editor) : Editor :=
  mkEditor (ed_site ed) (ed_ui ed) (occupancy_spinboxes ed)
           (thermal_factor_spinboxes ed) (f (site_modified_emitted ed)).

Definition set_total_occupancy (v : float) (s : Site) : Site :=
  mkSite v (site_fractional_coords s) (site_atoms s).

Definition set_fractional_coords (c : list float) (s : Site) : Site :=
  mkSite (site_total_occupancy s) c (site_atoms s).

Definition set_atoms (f : list Atom -> list Atom) (s : Site) : Site :=
  mkSite (site_total_occupancy s) (site_fractional_coords s) (f (site_atoms s)).

Definition set_occupancy (v : float) (a : Atom) : Atom :=
  mkAtom (atom_symbol a) (Some v) (atom_U a).

Definition set_U (v : float) (a : Atom) : Atom :=
  mkAtom (atom_symbol a) (atom_occupancy a) v.

Definition set_value (v : float) (w : SpinBox) : SpinBox :=
  mkSpinBox v (sb_minimum w) (sb_maximum w) (sb_styleSheet w) (sb_toolTip w).

Definition set_style (style tip : string) (w : SpinBox) : SpinBox :=
  mkSpinBox (sb_value w) (sb_minimum w) (sb_maximum w) style tip.

(** ** The monad of the editor's methods *)

(** A method runs on the editor and returns a value or raises; the editor
    it leaves behind is kept in both cases. *)
Definition M (A : Type) : Type := Editor -> (exn + A) * Editor.

Definition ret {A} (a : A) : M A := fun ed => (inr a, ed).

Definition raise {A} (e : exn) : M A := fun ed => (inl e, ed).

Definition bind {A B} (m : M A) (k : A -> M B) : M B :=
  fun ed =>
    match m ed with
    | (inl e, ed') => (inl e, ed')
    | (inr a, ed') => k a ed'
    end.

Definition gets {A} (f : Editor -> A) : M A := fun ed => (inr (f ed), ed).

Definition modify (f : Editor -> Editor) : M unit := fun ed => (inr tt, f ed).

Declare Scope py_scope.
Delimit Scope py_scope with py.
Notation "x <- c1 ;; c2" := (bind c1 (fun x => c2))
  (at level 61, c1 at next level, right associativity) : py_scope.
Notation "c1 ;; c2" := (bind c1 (fun _ => c2))
  (at level 61, right associativity) : py_scope.
Local Open Scope py_scope.

(** [for x in l: body(x)] *)
Fixpoint for_each {A} (l : list A) (body : A -> M unit) : M unit :=
  match l with
  | [] => ret tt
  | x :: r => body x ;; for_each r body
  end.

(** [enumerate(l)] *)
Fixpoint enumerate_from {A} (i : nat) (l : list A) : list (nat * A) :=
  match l with
  | [] => []
  | x :: r => (i, x) :: enumerate_from (S i) r
  end.

Definition enumerate {A} (l : list A) : list (nat * A) := enumerate_from 0 l.

(** [zip(l1, l2)] stops at the end of the shorter list. *)
Definition zip {A B} (l1 : list A) (l2 : list B) : list (A * B) := combine l1 l2.

(** [l[i] = v] on a Python list: [IndexError] past the end. *)
Fixpoint list_setitem {A} (l : list A) (i : nat) (v : A) : exn + list A :=
  match l, i with
  | [], _ => inl IndexError
  | _ :: r, O => inr (v :: r)
  | x :: r, S j =>
      match list_setitem r j v with
      | inl e => inl e
      | inr r' => inr (x :: r')
      end
  end.

(** The in-place update of the dict at index [i] of a list of dicts. *)
Fixpoint list_update {A} (l : list A) (i : nat) (f : A -> A) : list A :=
  match l, i with
  | [], _ => []
  | x :: r, O => f x :: r
  | x :: r, S j => x :: list_update r j f
  end.

(** A Python int as a float, rounded to nearest even as [float(n)] does. *)
Definition float_of_int (n : Z) : float :=
  SF2Prim (binary_normalize prec emax n 0 false).

(** [x / n] for a Python float [x] and an int [n]: a zero divisor raises. *)
Definition py_truediv (x : float) (n : nat) : M float :=
  match n with
  | O => raise ZeroDivisionError
  | S _ => ret (x / float_of_int (Z.of_nat n))%float
  end.

(** [atom['occupancy']] *)
Definition getitem_occupancy (atom : Atom) : M float :=
  match atom_occupancy atom with
  | Some v => ret v
  | None => raise (KeyError "occupancy"%string)
  end.

(** [sum(x['occupancy'] for x in l)], the running sum starting at [acc]:
    the floats are added from left to right, each addition rounded, and the
    first atom without the key raises. *)
Fixpoint sum_occupancy (acc : float) (l : list Atom) : M float :=
  match l with
  | [] => ret acc
  | x :: r => o <- getitem_occupancy x ;; sum_occupancy (acc + o)%float r
  end.

(** ** Module constants *)

Definition COLUMNS : list (string * nat) :=
  [("symbol"%string, 0); ("occupancy"%string, 1); ("thermal_factor"%string, 2)].

(** [COLUMNS[name]] *)
Definition getitem_COLUMNS (name : string) : M nat :=
  match find (fun kv => (fst kv =? name)%string) COLUMNS with
  | Some (_, column) => ret column
  | None => raise (KeyError name)
  end.

Definition OCCUPATION_MIN : float := 0%float.
Definition OCCUPATION_MAX : float := 1000%float.

Definition THERMAL_FACTOR_MIN : float := (-1e7)%float.
Definition THERMAL_FACTOR_MAX : float := 1e7%float.

(** [np.pi]; [np.pi ** 2] is the rounded square. *)
Definition np_pi : float := 0x1.921fb54442d18p+1%float.

Definition U_TO_B : float := (8 * (np_pi * np_pi))%float.
Definition B_TO_U : float := (1 / U_TO_B)%float.

(** ** The editor *)

Section MaterialSiteEditor.

(** [Material.DFLT_U[0]], a constant of the hexrd library. *)
Variable DEFAULT_U : float.

(** The toolkit's spin box: the value a spin box of range [lo], [hi] holds
    after [setValue(v)]. *)
Variable spin_stored : float -> float -> float -> float.

Definition setValue (v : float) (w : SpinBox) : SpinBox :=
  set_value (spin_stored (sb_minimum w) (sb_maximum w) v) w.

(** [ScientificDoubleSpinBox(self.ui.table)] followed by [setMinimum],
    [setMaximum] and [setValue(v)]. *)
Definition new_spinbox (lo hi v : float) : SpinBox :=
  setValue v (mkSpinBox 0%float lo hi ""%string ""%string).

Definition site : M Site := gets ed_site.

Definition atoms : M (list Atom) := gets (fun ed => site_atoms (ed_site ed)).

Definition total_occupancy : M float :=
  gets (fun ed => site_total_occupancy (ed_site ed)).

Definition set_site_total_occupancy (v : float) : M unit :=
  modify (with_site (set_total_occupancy v)).

Definition fractional_coords : M (list float) :=
  gets (fun ed => site_fractional_coords (ed_site ed)).

Definition thermal_factor_type : M string :=
  gets (fun ed => ui_thermal_factor_type (ed_ui ed)).

(** [atom[key] = ...] on the atom at index [i] of the site's list. *)
Definition update_atom (i : nat) (f : Atom -> Atom) : M unit :=
  modify (with_site (set_atoms (fun l => list_update l i f))).

(** Take a thermal factor from a spin box and convert it to U. *)
Definition U (val : float) : M float :=
  type <- thermal_factor_type ;;
  multiplier <-
    (if (type =? "U")%string then ret 1%float
     else if (type =? "B")%string then ret B_TO_U
     else raise (Exception ("Unknown type: " ++ type)%string)) ;;
  ret (val * multiplier)%float.

(** Take a thermal factor from a spin box and convert it to B. *)
Definition B (val : float) : M float :=
  type <- thermal_factor_type ;;
  multiplier <-
    (if (type =? "U")%string then ret U_TO_B
     else if (type =? "B")%string then ret 1%float
     else raise (Exception ("Unknown type: " ++ type)%string)) ;;
  ret (val * multiplier)%float.

(** Given an atom, return the thermal factor in either B or U. *)
Definition thermal_factor (atom : Atom) : M float :=
  type <- thermal_factor_type ;;
  multiplier <-
    (if (type =? "U")%string then ret 1%float
     else if (type =? "B")%string then ret U_TO_B
     else raise (Exception ("Unknown type: " ++ type)%string)) ;;
  ret (atom_U atom * multiplier)%float.

Definition atom_types : M (list string) :=
  gets (fun ed => map atom_symbol (site_atoms (ed_site ed))).

Definition occupancies_valid : M bool :=
  l <- atoms ;;
  total <- sum_occupancy 0%float l ;;
  let tol := 1e-6%float in
  s <- site ;;
  ret (abs (total - site_total_occupancy s) <? tol)%float.

Definition site_valid : M bool := occupancies_valid.

Definition update_occupancy_validity : M unit :=
  valid <- occupancies_valid ;;
  let color := (if valid then "white" else "red")%string in
  let msg :=
    (if valid then ""
     else "Sum of occupancies must equal total occupancy")%string in
  let style := set_style ("background-color: " ++ color)%string msg in
  modify (with_occupancy_spinboxes (map style)) ;;
  modify (with_ui (fun u =>
    mkUi (style (ui_total_occupancy u)) (ui_coords_x u) (ui_coords_y u)
         (ui_coords_z u) (ui_thermal_factor_type u) (ui_table_rowCount u)
         (ui_table_symbols u) (ui_table_header u))).

Definition emit_site_modified_if_valid : M unit :=
  valid <- site_valid ;;
  if negb valid then ret tt
  else modify (with_emitted S).

Definition reset_occupancies : M unit :=
  total <- total_occupancy ;;
  l <- atoms ;;
  let num_atoms := List.length l in
  for_each (enumerate l) (fun '(i, _) =>
    v <- py_truediv total num_atoms ;;
    update_atom i (set_occupancy v)) ;;
  update_occupancy_validity.

Definition clear_table : M unit :=
  modify (with_occupancy_spinboxes (fun _ => [])) ;;
  modify (with_thermal_factor_spinboxes (fun _ => [])) ;;
  modify (with_ui (fun u =>
    mkUi (ui_total_occupancy u) (ui_coords_x u) (ui_coords_y u)
         (ui_coords_z u) (ui_thermal_factor_type u) (ui_table_rowCount u)
         [] (ui_table_header u))).

Definition setRowCount (n : nat) : M unit :=
  modify (with_ui (fun u =>
    mkUi (ui_total_occupancy u) (ui_coords_x u) (ui_coords_y u)
         (ui_coords_z u) (ui_thermal_factor_type u) n
         (ui_table_symbols u) (ui_table_header u))).

Definition setItem (row col : nat) (text : string) : M unit :=
  modify (with_ui (fun u =>
    mkUi (ui_total_occupancy u) (ui_coords_x u) (ui_coords_y u)
         (ui_coords_z u) (ui_thermal_factor_type u) (ui_table_rowCount u)
         (ui_table_symbols u ++ [(row, col, text)]) (ui_table_header u))).

Definition create_occupancy_spinbox (v : float) : M unit :=
  modify (with_occupancy_spinboxes (fun l =>
    l ++ [new_spinbox OCCUPATION_MIN OCCUPATION_MAX v])).

Definition create_thermal_factor_spinbox (v : float) : M unit :=
  modify (with_thermal_factor_spinboxes (fun l =>
    l ++ [new_spinbox THERMAL_FACTOR_MIN THERMAL_FACTOR_MAX v])).

Definition update_table : M unit :=
  l <- atoms ;;
  clear_table ;;
  setRowCount (List.length l) ;;
  for_each (enumerate l) (fun '(i, atom) =>
    column <- getitem_COLUMNS "symbol" ;;
    setItem i column (atom_symbol atom) ;;
    occ <- getitem_occupancy atom ;;
    create_occupancy_spinbox occ ;;
    tf <- thermal_factor atom ;;
    create_thermal_factor_spinbox tf) ;;
  update_occupancy_validity.

Definition update_thermal_factor_header : M unit :=
  type <- thermal_factor_type ;;
  modify (with_ui (fun u =>
    mkUi (ui_total_occupancy u) (ui_coords_x u) (ui_coords_y u)
         (ui_coords_z u) (ui_thermal_factor_type u) (ui_table_rowCount u)
         (ui_table_symbols u) type)).

(** The values of the three coordinate widgets, in the order of
    [fractional_coords_widgets]. *)
Definition fractional_coords_widgets : M (list SpinBox) :=
  gets (fun ed =>
    [ui_coords_x (ed_ui ed); ui_coords_y (ed_ui ed); ui_coords_z (ed_ui ed)]).

(** The coordinate widget of index [i] in [fractional_coords_widgets]. *)
Definition update_coords_widget (i : nat) (f : SpinBox -> SpinBox) (u : Ui) : Ui :=
  match i with
  | 0 =>
      mkUi (ui_total_occupancy u) (f (ui_coords_x u)) (ui_coords_y u)
           (ui_coords_z u) (ui_thermal_factor_type u) (ui_table_rowCount u)
           (ui_table_symbols u) (ui_table_header u)
  | 1 =>
      mkUi (ui_total_occupancy u) (ui_coords_x u) (f (ui_coords_y u))
           (ui_coords_z u) (ui_thermal_factor_type u) (ui_table_rowCount u)
           (ui_table_symbols u) (ui_table_header u)
  | _ =>
      mkUi (ui_total_occupancy u) (ui_coords_x u) (ui_coords_y u)
           (f (ui_coords_z u)) (ui_thermal_factor_type u) (ui_table_rowCount u)
           (ui_table_symbols u) (ui_table_header u)
  end.

Definition update_gui : M unit :=
  total <- total_occupancy ;;
  modify (with_ui (fun u =>
    mkUi (setValue total (ui_total_occupancy u)) (ui_coords_x u)
         (ui_coords_y u) (ui_coords_z u) (ui_thermal_factor_type u)
         (ui_table_rowCount u) (ui_table_symbols u) (ui_table_header u))) ;;
  ws <- fractional_coords_widgets ;;
  for_each (enumerate ws) (fun '(i, _) =>
    c <- fractional_coords ;;
    match nth_error c i with
    | None => raise IndexError
    | Some x => modify (with_ui (update_coords_widget i (setValue x)))
    end) ;;
  update_table.

Definition update_config : M unit :=
  v <- gets (fun ed => sb_value (ui_total_occupancy (ed_ui ed))) ;;
  set_site_total_occupancy v ;;
  ws <- fractional_coords_widgets ;;
  for_each (enumerate ws) (fun '(i, w) =>
    c <- fractional_coords ;;
    match list_setitem c i (sb_value w) with
    | inl e => raise e
    | inr c' => modify (with_site (set_fractional_coords c'))
    end) ;;
  l <- atoms ;;
  sbs <- gets occupancy_spinboxes ;;
  for_each (enumerate (zip l sbs)) (fun '(i, (_, spinbox)) =>
    update_atom i (set_occupancy (sb_value spinbox))) ;;
  l <- atoms ;;
  sbs <- gets thermal_factor_spinboxes ;;
  for_each (enumerate (zip l sbs)) (fun '(i, (_, spinbox)) =>
    u <- U (sb_value spinbox) ;;
    update_atom i (set_U u)) ;;
  update_occupancy_validity ;;
  emit_site_modified_if_valid.

(** The [atom_types] setter. *)
Definition set_atom_types (v : list string) : M unit :=
  cur <- atom_types ;;
  if list_eq_dec string_dec v cur then
    (* No changes needed... *)
    ret tt
  else
    (* Reset all the occupancies *)
    modify (with_site (set_atoms (fun _ => []))) ;;
    modify (with_site (set_atoms (fun l =>
      l ++ map (fun x => mkAtom x None DEFAULT_U) v))) ;;
    reset_occupancies ;;
    update_table ;;
    emit_site_modified_if_valid.

(** [select_atom_types]: the dialog returns [None] when it is cancelled and
    the selected atoms otherwise. *)
Definition select_atom_types (dialog : option (list string)) : M unit :=
  match dialog with
  | None => ret tt
  | Some selected_atoms => set_atom_types selected_atoms
  end.

(** The [site] setter. *)
Definition set_site (v : Site) : M unit :=
  modify (with_site (fun _ => v)) ;;
  update_gui.

(** ** User edits *)

(** [setup_connections] and the two spin-box constructors connect the
    [valueChanged] signal of every value widget to [update_config], and that
    of the total occupancy also, after it, to [update_occupancy_validity].  A
    user edit makes one widget report a new value and runs its slots; a row
    or axis with no widget has nothing to edit. *)
Inductive field_edit : Type :=
| EditTotalOccupancy (v : float)
| EditFractionalCoord (axis : nat) (v : float)
| EditOccupancy (row : nat) (v : float)
| EditThermalFactor (row : nat) (v : float).

Definition on_user_edit (e : field_edit) : M unit :=
  match e with
  | EditTotalOccupancy v =>
      modify (with_ui (fun u =>
        mkUi (set_value v (ui_total_occupancy u)) (ui_coords_x u)
             (ui_coords_y u) (ui_coords_z u) (ui_thermal_factor_type u)
             (ui_table_rowCount u) (ui_table_symbols u) (ui_table_header u))) ;;
      update_config ;;
      update_occupancy_validity
  | EditFractionalCoord axis v =>
      if axis <? 3 then
        modify (with_ui (update_coords_widget axis (set_value v))) ;;
        update_config
      else ret tt
  | EditOccupancy row v =>
      sbs <- gets occupancy_spinboxes ;;
      if row <? List.length sbs then
        modify (with_occupancy_spinboxes (fun l =>
          list_update l row (set_value v))) ;;
        update_config
      else ret tt
  | EditThermalFactor row v =>
      sbs <- gets thermal_factor_spinboxes ;;
      if row <? List.length sbs then
        modify (with_thermal_factor_spinboxes (fun l =>
          list_update l row (set_value v))) ;;
        update_config
      else ret tt
  end.

(** The user picks another entry of the thermal factor combo box:
    [currentIndexChanged] runs [update_thermal_factor_header] and
    [update_gui]. *)
Definition on_thermal_factor_type_changed (type : string) : M unit :=
  modify (with_ui (fun u =>
    mkUi (ui_total_occupancy u) (ui_coords_x u) (ui_coords_y u)
         (ui_coords_z u) type (ui_table_rowCount u)
         (ui_table_symbols u) (ui_table_header u))) ;;
  update_thermal_factor_header ;;
  update_gui.

(** A sequence of user edits, stopped by the first exception. *)
Definition run_edits (es : list field_edit) : M unit := for_each es on_user_edit.

(** [MaterialSiteEditor(site, parent)]: the widgets [ui] as the loader
    builds them from [material_site_editor.ui], no spin boxes in the two
    lists, a signal that was never emitted, then [update_gui]; the
    connections of [setup_connections] are those of [on_user_edit],
    [on_thermal_factor_type_changed] and [select_atom_types]. *)
Definition __init__ (site : Site) (ui : Ui) : (exn + unit) * Editor :=
  update_gui (mkEditor site ui [] [] 0).

End MaterialSiteEditor.

(** * Vocabulary of the specification *)

(** ** Reading a float as a rational number *)

Definition pow2 (e : Z) : Q := (2 # 1) ^ e.

(** The magnitude of a binary64 value; zero for zeros, infinities and NaN. *)
Definition SFmag (x : spec_float) : Q :=
  match x with
  | S754_finite _ m e => inject_Z (Zpos m) * pow2 e
  | _ => 0%Q
  end.

Definition SFsign (x : spec_float) : bool :=
  match x with
  | S754_zero s | S754_infinity s | S754_finite s _ _ => s
  | S754_nan => false
  end.

Definition SF2Q (x : spec_float) : Q :=
  if SFsign x then (- SFmag x)%Q else SFmag x.

Definition SFfinite (x : spec_float) : bool :=
  match x with
  | S754_zero _ | S754_finite _ _ _ => true
  | _ => false
  end.

Definition F2Q (x : float) : Q := SF2Q (Prim2SF x).

(** [math.isfinite(x)] *)
Definition finite (x : float) : bool := SFfinite (Prim2SF x).

(** The unit roundoff [2^-53] of binary64 and half its smallest positive
    value, [2^-1075]. *)
Definition u64 : Q := 1 # 9007199254740992.
Definition eta64 : Q := pow2 (-1075).

(** The floating tolerance of a round trip through the two conventions:
    four unit roundoffs relative to [x], plus [2^-1068] for values so small
    that the intermediate product is subnormal. *)
Definition within_tolerance (r x : float) : Prop :=
  (Qabs (F2Q r - F2Q x) <= (4 # 1) * u64 * Qabs (F2Q x) + pow2 (-1068))%Q.

(** The bit patterns of [1.0], [U_TO_B] and [B_TO_U]. *)
Definition SF_one : spec_float := S754_finite false 4503599627370496 (-52).
Definition SF_U_TO_B : spec_float := S754_finite false 5556093337880030 (-46).
Definition SF_B_TO_U : spec_float := S754_finite false 7300960718341920 (-59).

(** ** The rounding of [SpecFloat] *)

(** After [k] one-bit shifts of [M] the record holds the quotient by [2^k],
    and its round and sticky bits place the remainder against half of
    [2^k]. *)
Definition shr_inv (M k : Z) (mrs : shr_record) : Prop :=
  let rem := (M - shr_m mrs * 2 ^ k)%Z in
  (0 <= shr_m mrs /\ 0 <= rem < 2 ^ k /\
   shr_r mrs = (2 ^ k <=? 2 * rem) /\
   shr_s mrs = negb (rem =? 0) && negb (2 * rem =? 2 ^ k))%Z.

(** The float [binary_round_aux] builds from the rounded mantissa [m1] at
    exponent [e']. *)
Definition round_result (sx : bool) (m1 e' : Z) : spec_float :=
  match m1 with
  | Z0 => S754_zero sx
  | Zpos m =>
      if (m1 =? 2 ^ 53)%Z then
        if (e' + 1 <=? 971)%Z then S754_finite sx 4503599627370496 (e' + 1)
        else S754_infinity sx
      else if (e' <=? 971)%Z then S754_finite sx m e' else S754_infinity sx
  | Zneg _ => S754_nan
  end.

(** ** The site after a method *)

(** The multiplier the three conversions choose for a display type, [u]
    under ["U"] and [b] under ["B"]. *)
Definition multiplier_of (u b : float) (type : string) : exn + float :=
  if (type =? "U")%string then inr u
  else if (type =? "B")%string then inr b
  else inl (Exception ("Unknown type: " ++ type)%string).

(** The sum [sum(x['occupancy'] for x in l)] as a value, [None] when an atom
    has no occupancy. *)
Fixpoint occupancy_sum (acc : float) (l : list Atom) : option float :=
  match l with
  | [] => Some acc
  | x :: r =>
      match atom_occupancy x with
      | Some o => occupancy_sum (acc + o)%float r
      | None => None
      end
  end.

(** The distance of the occupancy sum from the total occupancy. *)
Definition occupancy_gap (s : Site) : option float :=
  match occupancy_sum 0%float (site_atoms s) with
  | Some total => Some (abs (total - site_total_occupancy s))%float
  | None => None
  end.

(** The validator of the specification: [isValid(site)] is
    [abs(sum(a.occupancy for a in site.atoms) - site.total_occupancy) < 1e-6]
    over the occupancies [occs] of the atoms, summed from left to right. *)
Definition isValid (total : float) (occs : list float) : bool :=
  (abs (fold_left PrimFloat.add occs 0 - total) <? 1e-6)%float.

(** What [occupancies_valid] returns on a site. *)
Definition valid_result (s : Site) : exn + bool :=
  match occupancy_gap s with
  | Some d => inr (d <? 1e-6)%float
  | None => inl (KeyError "occupancy"%string)
  end.

(** The editor after [update_occupancy_validity] found the validity [valid]. *)
Definition styled (valid : bool) (ed : Editor) : Editor :=
  let color := (if valid then "white" else "red")%string in
  let msg :=
    (if valid then ""
     else "Sum of occupancies must equal total occupancy")%string in
  let style := set_style ("background-color: " ++ color)%string msg in
  with_ui (fun u =>
    mkUi (style (ui_total_occupancy u)) (ui_coords_x u) (ui_coords_y u)
         (ui_coords_z u) (ui_thermal_factor_type u) (ui_table_rowCount u)
         (ui_table_symbols u) (ui_table_header u))
    (with_occupancy_spinboxes (map style) ed).

(** The atoms after a loop over [zip(atoms, spinboxes)] that applies [f] to
    each pair: the atoms past the last spin box are left as they are. *)
Fixpoint zip_update {A B} (f : B -> A -> A) (l : list A) (ws : list B) : list A :=
  match l, ws with
  | x :: r, w :: ws' => f w x :: zip_update f r ws'
  | _, _ => l
  end.

(** The fractional coordinates after the three writes of [update_config],
    and whether all three were in range. *)
Definition write_coords (c : list float) (x y z : float) : list float * bool :=
  match c with
  | [] => ([], false)
  | [_] => ([x], false)
  | [_; _] => ([x; y], false)
  | _ :: _ :: _ :: r => (x :: y :: z :: r, true)
  end.

(** Whether the widget a user edit acts on exists. *)
Definition has_widget (e : field_edit) (ed : Editor) : bool :=
  match e with
  | EditTotalOccupancy _ => true
  | EditFractionalCoord axis _ => axis <? 3
  | EditOccupancy row _ => row <? List.length (occupancy_spinboxes ed)
  | EditThermalFactor row _ => row <? List.length (thermal_factor_spinboxes ed)
  end.

(** The editor once the widget of the edit reports the new value. *)
Definition widget_set (e : field_edit) (ed : Editor) : Editor :=
  match e with
  | EditTotalOccupancy v =>
      with_ui (fun u =>
        mkUi (set_value v (ui_total_occupancy u)) (ui_coords_x u)
             (ui_coords_y u) (ui_coords_z u) (ui_thermal_factor_type u)
             (ui_table_rowCount u) (ui_table_symbols u) (ui_table_header u)) ed
  | EditFractionalCoord axis v =>
      with_ui (update_coords_widget axis (set_value v)) ed
  | EditOccupancy row v =>
      with_occupancy_spinboxes (fun l => list_update l row (set_value v)) ed
  | EditThermalFactor row v =>
      with_thermal_factor_spinboxes (fun l => list_update l row (set_value v)) ed
  end.

(** The value of an edit has reached the site: the model was mutated. *)
Definition edit_written (e : field_edit) (ed : Editor) : Prop :=
  let s := ed_site ed in
  match e with
  | EditTotalOccupancy v => site_total_occupancy s = v
  | EditFractionalCoord axis v => nth_error (site_fractional_coords s) axis = Some v
  | EditOccupancy row v =>
      forall a, nth_error (site_atoms s) row = Some a -> atom_occupancy a = Some v
  | EditThermalFactor row v =>
      forall a, nth_error (site_atoms s) row = Some a ->
      exists k, multiplier_of 1 B_TO_U (ui_thermal_factor_type (ed_ui ed)) = inr k /\
                atom_U a = (v * k)%float
  end.

(** Every edit of the sequence acts on a widget, returns, and leaves the
    occupancy sum at a distance of at least [1e-6] from the total
    occupancy. *)
Fixpoint leaves_invalid (es : list field_edit) (ed : Editor) : Prop :=
  match es with
  | [] => True
  | e :: r =>
      has_widget e ed = true /\
      exists ed' d,
        on_user_edit e ed = (inr tt, ed') /\
        occupancy_gap (ed_site ed') = Some d /\
        (1e-6 <=? d)%float = true /\
        leaves_invalid r ed'
  end.

(** The outcome of [update_occupancy_validity] followed by
    [emit_site_modified_if_valid]. *)
Definition validity_then_emit (ed : Editor) : (exn + unit) * Editor :=
  match valid_result (ed_site ed) with
  | inl e => (inl e, ed)
  | inr valid =>
      (inr tt, if valid then with_emitted S (styled valid ed) else styled valid ed)
  end.

(** The atoms after the loop of [update_config] over the occupancy spin
    boxes. *)
Definition occupancies_written (ed : Editor) : list Atom :=
  zip_update (fun w => set_occupancy (sb_value w))
             (site_atoms (ed_site ed)) (occupancy_spinboxes ed).

(** The atoms after the loop over the thermal factor spin boxes as well, for
    the multiplier [k] of the display type. *)
Definition thermal_factors_written (k : float) (ed : Editor) : list Atom :=
  zip_update (fun w => set_U (sb_value w * k)%float)
             (occupancies_written ed) (thermal_factor_spinboxes ed).

(** The outcome of [update_config], step by step: the total occupancy, the
    three coordinates ([IndexError] when the list is too short), the
    occupancies, the thermal factors (the exception of an unknown display
    type at the first pair of the zip, if there is one), then the validity
    and the signal. *)
Definition update_config_result (ed : Editor) : (exn + unit) * Editor :=
  let u := ed_ui ed in
  let '(c, ok) :=
    write_coords (site_fractional_coords (ed_site ed)) (sb_value (ui_coords_x u))
                 (sb_value (ui_coords_y u)) (sb_value (ui_coords_z u)) in
  let written (l : list Atom) :=
    with_site (fun _ => mkSite (sb_value (ui_total_occupancy u)) c l) ed in
  if ok then
    match multiplier_of 1 B_TO_U (ui_thermal_factor_type u) with
    | inr k => validity_then_emit (written (thermal_factors_written k ed))
    | inl e =>
        match zip (occupancies_written ed) (thermal_factor_spinboxes ed) with
        | [] => validity_then_emit (written (occupancies_written ed))
        | _ :: _ => (inl e, written (occupancies_written ed))
        end
    end
  else (inl IndexError, written (site_atoms (ed_site ed))).

(** A method keeps the part [f] of the editor, whether it returns or
    raises. *)
Definition keeps {A X} (f : Editor -> X) (m : M A) : Prop :=
  forall ed, f (snd (m ed)) = f ed.

(** The site's fields other than the atoms. *)
Definition site_frame (ed : Editor) : float * list float :=
  (site_total_occupancy (ed_site ed), site_fractional_coords (ed_site ed)).

(** The site and the count of emitted signals: everything but the widgets. *)
Definition model (ed : Editor) : Site * nat :=
  (ed_site ed, site_modified_emitted ed).

(** ** A site to run the editor on *)

(** The default of hexrd, [Material.DFLT_U = numpy.array([6.33E-3])]. *)
Definition hexrd_DFLT_U : float := 6.33e-3%float.

(** A spin box that bounds the value it is given by its range. *)
Definition bounded_spin (lo hi v : float) : float :=
  if (v <? lo)%float then lo else if (hi <? v)%float then hi else v.

Definition spin (v : float) : SpinBox :=
  mkSpinBox v (-1e7)%float 1e7%float ""%string ""%string.

(** An editor on an iron site of total occupancy 1, with the display type
    [type]; its table has one row, and its widgets hold the values of the
    site. *)
Definition iron_editor (type : string) : Editor :=
  mkEditor
    (mkSite 1%float [0%float; 0.5%float; 0.25%float]
            [mkAtom "Fe"%string (Some 1%float) hexrd_DFLT_U])
    (mkUi (spin 1%float) (spin 0%float) (spin 0.5%float) (spin 0.25%float)
          type 1 [(0, 0, "Fe"%string)] type)
    [spin 1%float] [spin hexrd_DFLT_U] 0.

(** The same editor after the caller emptied the atom list behind its back:
    the table still has its row. *)
Definition stale_editor (type : string) : Editor :=
  with_site (set_atoms (fun _ => [])) (iron_editor type).

(** ** The table after [update_table] *)

(** The symbol labels of the rows [i], [i + 1], ... for the atoms [l], as
    [update_table] sets them into the column of the symbols. *)
Definition symbol_items (i : nat) (l : list Atom) : list (nat * nat * string) :=
  map (fun '(j, a) => (j, 0, atom_symbol a)) (enumerate_from i l).

(** The editor after [clear_table] and [setRowCount(n)]. *)
Definition table_cleared (n : nat) (ed : Editor) : Editor :=
  let u := ed_ui ed in
  mkEditor (ed_site ed)
    (mkUi (ui_total_occupancy u) (ui_coords_x u) (ui_coords_y u) (ui_coords_z u)
          (ui_thermal_factor_type u) n [] (ui_table_header u))
    [] [] (site_modified_emitted ed).

(** The editor after the loop of [update_table] has filled the rows of the
    atoms [l], of occupancies [occs], from row [i] on, under a display type
    of multiplier [k]: a label and two new spin boxes per atom. *)
Definition rows_added (spin_stored : float -> float -> float -> float)
    (k : float) (i : nat) (l : list Atom) (occs : list float) (ed : Editor) : Editor :=
  let u := ed_ui ed in
  mkEditor (ed_site ed)
    (mkUi (ui_total_occupancy u) (ui_coords_x u) (ui_coords_y u) (ui_coords_z u)
          (ui_thermal_factor_type u) (ui_table_rowCount u)
          (ui_table_symbols u ++ symbol_items i l) (ui_table_header u))
    (occupancy_spinboxes ed ++
     map (new_spinbox spin_stored OCCUPATION_MIN OCCUPATION_MAX) occs)
    (thermal_factor_spinboxes ed ++
     map (fun a => new_spinbox spin_stored THERMAL_FACTOR_MIN THERMAL_FACTOR_MAX
                     (atom_U a * k)%float) l)
    (site_modified_emitted ed).

(** The table rebuilt for the atoms of the site, before its validity is
    shown. *)
Definition table_of (spin_stored : float -> float -> float -> float)
    (k : float) (occs : list float) (ed : Editor) : Editor :=
  let l := site_atoms (ed_site ed) in
  rows_added spin_stored k 0 l occs (table_cleared (List.length l) ed).

(** Every spin box of the list has the range [lo], [hi]. *)
Definition ranged (lo hi : float) (ws : list SpinBox) : Prop :=
  Forall (fun w => sb_minimum w = lo /\ sb_maximum w = hi) ws.

(** The widgets [update_occupancy_validity] styles carry the colour and the
    tool tip of the validity [valid]. *)
Definition validity_shown (valid : bool) (ed : Editor) : Prop :=
  Forall (fun w =>
    sb_styleSheet w =
      (if valid then "background-color: white" else "background-color: red")%string /\
    sb_toolTip w =
      (if valid then ""
       else "Sum of occupancies must equal total occupancy")%string)
    (occupancy_spinboxes ed ++ [ui_total_occupancy (ed_ui ed)]).

(** ** The widgets after [update_gui] *)

(** The editor after [update_gui] has set the total occupancy widget. *)
Definition total_shown (spin_stored : float -> float -> float -> float)
    (ed : Editor) : Editor :=
  with_ui (fun u =>
    mkUi (setValue spin_stored (site_total_occupancy (ed_site ed))
                   (ui_total_occupancy u))
         (ui_coords_x u) (ui_coords_y u) (ui_coords_z u)
         (ui_thermal_factor_type u) (ui_table_rowCount u) (ui_table_symbols u)
         (ui_table_header u)) ed.

(** The editor after the loop of [update_gui] over the three coordinate
    widgets, and whether the site had a coordinate for each of them. *)
Definition coords_shown (spin_stored : float -> float -> float -> float)
    (ed : Editor) : Editor * bool :=
  let show i x := with_ui (update_coords_widget i (setValue spin_stored x)) in
  match site_fractional_coords (ed_site ed) with
  | [] => (ed, false)
  | [x] => (show 0 x ed, false)
  | [x; y] => (show 1 y (show 0 x ed), false)
  | x :: y :: z :: _ => (show 2 z (show 1 y (show 0 x ed)), true)
  end.

(** The widgets hold the values of the site, the thermal factor spin boxes
    in the convention of multiplier [k]: what [update_gui] establishes when
    the spin boxes store the values they are given. *)
Definition widgets_show (k : float) (ed : Editor) : Prop :=
  let s := ed_site ed in
  let u := ed_ui ed in
  site_total_occupancy s = sb_value (ui_total_occupancy u) /\
  firstn 3 (site_fractional_coords s) =
    [sb_value (ui_coords_x u); sb_value (ui_coords_y u); sb_value (ui_coords_z u)] /\
  map atom_occupancy (site_atoms s) =
    map (fun w => Some (sb_value w)) (occupancy_spinboxes ed) /\
  map (fun a => (atom_U a * k)%float) (site_atoms s) =
    map sb_value (thermal_factor_spinboxes ed).

(** The spin boxes store the values of the site unchanged: the total
    occupancy and the first three coordinates in the range of their widgets,
    the occupancies in that of an occupancy spin box, the thermal factors,
    in the convention of multiplier [k], in that of a thermal factor spin
    box. *)
Definition stored_exactly (spin_stored : float -> float -> float -> float)
    (k : float) (ed : Editor) : Prop :=
  let s := ed_site ed in
  let u := ed_ui ed in
  let exact (w : SpinBox) (v : float) :=
    spin_stored (sb_minimum w) (sb_maximum w) v = v in
  exact (ui_total_occupancy u) (site_total_occupancy s) /\
  (exists x y z r,
     site_fractional_coords s = x :: y :: z :: r /\
     exact (ui_coords_x u) x /\ exact (ui_coords_y u) y /\
     exact (ui_coords_z u) z) /\
  Forall (fun a =>
    (exists o, atom_occupancy a = Some o /\
               spin_stored OCCUPATION_MIN OCCUPATION_MAX o = o) /\
    spin_stored THERMAL_FACTOR_MIN THERMAL_FACTOR_MAX (atom_U a * k)%float =
      (atom_U a * k)%float) (site_atoms s).

(** ** Edits made on the site itself *)

(** The edit [e] applied to the site without the widgets: the field is
    assigned, a row or an axis that does not exist is no edit. *)
Definition direct_edit (e : field_edit) (s : Site) : Site :=
  match e with
  | EditTotalOccupancy v => set_total_occupancy v s
  | EditFractionalCoord axis v =>
      if axis <? 3 then
        set_fractional_coords
          (list_update (site_fractional_coords s) axis (fun _ => v)) s
      else s
  | EditOccupancy row v => set_atoms (fun l => list_update l row (set_occupancy v)) s
  | EditThermalFactor row v => set_atoms (fun l => list_update l row (set_U v)) s
  end.

(** The values of [U] of two atom lists agree pairwise within the floating
    tolerance of a round trip, everything else being equal. *)
Definition same_but_U_rounded (l' l : list Atom) : Prop :=
  Forall2 (fun a' a =>
    atom_symbol a' = atom_symbol a /\ atom_occupancy a' = atom_occupancy a /\
    finite (atom_U a') = true /\ within_tolerance (atom_U a') (atom_U a)) l' l.

(** Every stored [U] is below [2^1016] in magnitude, so that its product
    with [U_TO_B] is finite. *)
Definition U_in_range (l : list Atom) : Prop :=
  Forall (fun a => (abs (atom_U a) <? 0x1p1016)%float = true) l.

(** Whether the field the edit names exists in the site. *)
Definition edit_applies (e : field_edit) (s : Site) : bool :=
  match e with
  | EditTotalOccupancy _ => true
  | EditFractionalCoord axis _ => axis <? 3
  | EditOccupancy row _ | EditThermalFactor row _ => row <? List.length (site_atoms s)
  end.

(** The number of [site_modified] signals of a sequence of direct edits: one
    for every edit of an existing field that leaves the site valid. *)
Fixpoint signals_of (es : list field_edit) (s : Site) : nat :=
  match es with
  | [] => 0
  | e :: r =>
      let s' := direct_edit e s in
      (if edit_applies e s then
         match valid_result s' with inr true => 1 | _ => 0 end
       else 0) + signals_of r s'
  end.

(** ** Whether a site can be shown *)

(** The exception at the first row [update_table] cannot fill: the
    occupancy of the atom is read first, its thermal factor second. *)
Fixpoint first_row_failure (type : string) (l : list Atom) : option exn :=
  match l with
  | [] => None
  | a :: r =>
      match atom_occupancy a with
      | None => Some (KeyError "occupancy"%string)
      | Some _ =>
          match multiplier_of 1 U_TO_B type with
          | inl e => Some e
          | inr _ => first_row_failure type r
          end
      end
  end.

(** The exception [update_gui] raises on a site, if any: the coordinates
    come before the table. *)
Definition show_failure (type : string) (s : Site) : option exn :=
  if List.length (site_fractional_coords s) <? 3 then Some IndexError
  else first_row_failure type (site_atoms s).

(** ** What edits and refreshes leave alone *)

(** The layout of the table: the symbols of the atoms, the number of spin
    boxes of each kind, the display type, the rows and the labels. *)
Definition layout (ed : Editor)
  : list string * (nat * nat) * (string * nat * list (nat * nat * string) * string) :=
  let u := ed_ui ed in
  (map atom_symbol (site_atoms (ed_site ed)),
   (List.length (occupancy_spinboxes ed), List.length (thermal_factor_spinboxes ed)),
   (ui_thermal_factor_type u, ui_table_rowCount u, ui_table_symbols u,
    ui_table_header u)).

(** A spin box without its value. *)
Definition unvalued (w : SpinBox) : float * float * string * string :=
  (sb_minimum w, sb_maximum w, sb_styleSheet w, sb_toolTip w).

(** What a refresh of the widgets reads and never writes: the site, the
    count of signals, the range of the total occupancy widget, and the
    coordinate widgets but for their values. *)
Definition persistent (ed : Editor)
  : Site * nat * (float * float) *
    (float * float * string * string * (float * float * string * string) *
     (float * float * string * string)) :=
  let u := ed_ui ed in
  (ed_site ed, site_modified_emitted ed,
   (sb_minimum (ui_total_occupancy u), sb_maximum (ui_total_occupancy u)),
   (unvalued (ui_coords_x u), unvalued (ui_coords_y u), unvalued (ui_coords_z u))).

(** The iron editor, its atom stored with [U = u], after [update_gui] has
    shown the site in bounded spin boxes. *)
Definition shown_editor (type : string) (u : float) : Editor :=
  snd (update_gui bounded_spin
         (with_site (set_atoms (fun _ => [mkAtom "Fe"%string (Some 1%float) u]))
            (iron_editor type))).

(** * Binary64 arithmetic *)

(** ** Shifting and rounding a mantissa *)

Section Rounding.
Local Open Scope Z_scope.

(** One more shift keeps the invariant. *)
Lemma shr_1_inv M k mrs :
  0 <= k -> shr_inv M k mrs -> shr_inv M (k + 1) (shr_1 mrs).
Proof.
  intros Hk. unfold shr_inv.
  rewrite Z.pow_add_r, Z.pow_1_r by lia.
  assert (HP : 0 < 2 ^ k) by (apply Z.pow_pos_nonneg; lia).
  generalize dependent (2 ^ k). intros P HP.
  destruct mrs as [m r s]. cbn [shr_m shr_r shr_s].
  intros (Hm & Hrem & Hr & Hs).
  destruct m as [|[p|p|]|p]; cbn [shr_1 shr_m shr_r shr_s]; try lia; subst r s;
    repeat match goal with
    | |- context [ (?a <=? ?b) ] => destruct (Z.leb_spec a b)
    | |- context [ (?a =? ?b) ] => destruct (Z.eqb_spec a b)
    end; cbn [negb andb orb]; repeat split; try lia; try reflexivity.
Qed.

(** So do [p] shifts in a row. *)
Lemma iter_pos_shr_inv p : forall M k mrs,
  0 <= k -> shr_inv M k mrs ->
  shr_inv M (k + Zpos p) (SpecFloat.iter_pos shr_1 p mrs).
Proof.
  induction p as [p IH|p IH|]; intros M k mrs Hk H; simpl.
  - replace (k + Z.pos p~1) with (((k + 1) + Z.pos p) + Z.pos p) by lia.
    apply IH; [lia|]. apply IH; [lia|]. now apply shr_1_inv.
  - replace (k + Z.pos p~0) with ((k + Z.pos p) + Z.pos p) by lia.
    apply IH; [lia|]. now apply IH.
  - now apply shr_1_inv.
Qed.

(** [digits2_pos p] is the number of bits of [p]. *)
Lemma digits2_pos_bounds p :
  2 ^ (Zpos (digits2_pos p) - 1) <= Zpos p < 2 ^ Zpos (digits2_pos p).
Proof.
  induction p as [p IH|p IH|]; simpl digits2_pos.
  - rewrite Pos2Z.inj_succ.
    replace (Z.succ (Z.pos (digits2_pos p)) - 1)
      with (Z.succ (Z.pos (digits2_pos p) - 1)) by lia.
    rewrite !Z.pow_succ_r by lia. lia.
  - rewrite Pos2Z.inj_succ.
    replace (Z.succ (Z.pos (digits2_pos p)) - 1)
      with (Z.succ (Z.pos (digits2_pos p) - 1)) by lia.
    rewrite !Z.pow_succ_r by lia. lia.
  - simpl. lia.
Qed.

(** The exponent function of binary64: 53 bits of mantissa, and no exponent
    below -1074. *)
Lemma fexp_eq x : fexp prec emax x = Z.max (x - 53) (-1074).
Proof. reflexivity. Qed.

(** Before the first shift the remainder is zero. *)
Lemma shr_inv_0 M : 0 <= M -> shr_inv M 0 (Build_shr_record M false false).
Proof.
  intros HM. unfold shr_inv. cbn [shr_m shr_r shr_s].
  rewrite Z.pow_0_r, Z.mul_1_r, Z.sub_diag. repeat split; lia.
Qed.

(** [shr_fexp] on an exact mantissa [M] at exponent [E] shifts it to the
    exponent [max E (fexp (digits M + E))]. *)
Lemma shr_fexp_exact M E :
  0 <= M ->
  let e' := Z.max E (fexp prec emax (Zdigits2 M + E)) in
  exists mrs,
    shr_fexp prec emax M E loc_Exact = (mrs, e') /\
    shr_inv M (e' - E) mrs.
Proof.
  intros HM e'. unfold shr_fexp, shr. cbn [shr_record_of_loc].
  subst e'. set (f := fexp prec emax (Zdigits2 M + E)).
  destruct (f - E) as [|p|p] eqn:Hn.
  - exists (Build_shr_record M false false). split.
    + f_equal. lia.
    + replace (Z.max E f - E) with 0 by lia. now apply shr_inv_0.
  - exists (SpecFloat.iter_pos shr_1 p (Build_shr_record M false false)). split.
    + f_equal. lia.
    + replace (Z.max E f - E) with (0 + Z.pos p) by lia.
      apply iter_pos_shr_inv; [lia|]. now apply shr_inv_0.
  - exists (Build_shr_record M false false). split.
    + f_equal. lia.
    + replace (Z.max E f - E) with 0 by lia. now apply shr_inv_0.
Qed.

(** Rounding to nearest even leaves the quotient or adds one to it, ends
    within half of [2^k] of [M], and leaves the quotient when the
    remainder is zero. *)
Lemma round_nearest_even_spec M k mrs :
  0 <= k -> shr_inv M k mrs ->
  let m1 := round_nearest_even (shr_m mrs) (loc_of_shr_record mrs) in
  shr_m mrs <= m1 <= shr_m mrs + 1 /\
  2 * Z.abs (m1 * 2 ^ k - M) <= 2 ^ k /\
  (M - shr_m mrs * 2 ^ k = 0 -> m1 = shr_m mrs).
Proof.
  intros Hk. unfold shr_inv.
  assert (HP : 0 < 2 ^ k) by (apply Z.pow_pos_nonneg; lia).
  generalize dependent (2 ^ k). intros P HP.
  destruct mrs as [m r s]. cbn [shr_m shr_r shr_s].
  intros (Hm & Hrem & Hr & Hs).
  revert Hr Hs.
  destruct (Z.leb_spec P (2 * (M - m * P)));
    destruct (Z.eqb_spec (M - m * P) 0);
    destruct (Z.eqb_spec (2 * (M - m * P)) P);
    cbn [negb andb]; intros -> ->;
    cbn [loc_of_shr_record round_nearest_even]; try destruct (Z.even m);
    repeat split; try lia.
Qed.

(** [Zdigits2] brackets a positive integer between two powers of two. *)
Lemma Zdigits2_bounds M :
  0 < M -> 2 ^ (Zdigits2 M - 1) <= M < 2 ^ Zdigits2 M.
Proof.
  destruct M as [|p|p]; try lia. intros _. apply digits2_pos_bounds.
Qed.

(** A positive integer has at least one bit. *)
Lemma Zdigits2_pos M : 0 < M -> 0 < Zdigits2 M.
Proof. destruct M; simpl; lia. Qed.

(** An integer below [2^k] has at most [k] bits. *)
Lemma Zdigits2_le M k : 0 < M < 2 ^ k -> Zdigits2 M <= k.
Proof.
  intros [H0 Hk]. destruct (Zdigits2_bounds H0) as [Hl _].
  pose proof (Zdigits2_pos H0).
  destruct (Z_le_gt_dec (Zdigits2 M) k) as [|Hgt]; [assumption|exfalso].
  assert (0 <= k).
  { destruct (Z_le_gt_dec 0 k); [assumption|]. rewrite Z.pow_neg_r in Hk; lia. }
  assert (2 ^ k <= 2 ^ (Zdigits2 M - 1)) by (apply Z.pow_le_mono_r; lia).
  lia.
Qed.

(** An integer of at least [2^k] has more than [k] bits. *)
Lemma Zdigits2_gt M k : 0 <= k -> 2 ^ k <= M -> k < Zdigits2 M.
Proof.
  intros Hk HM.
  assert (H0 : 0 < M) by (pose proof (Z.pow_pos_nonneg 2 k); lia).
  destruct (Zdigits2_bounds H0) as [_ Hu].
  destruct (Z_lt_le_dec k (Zdigits2 M)) as [|Hle]; [assumption|exfalso].
  pose proof (Zdigits2_pos H0).
  assert (2 ^ Zdigits2 M <= 2 ^ k) by (apply Z.pow_le_mono_r; lia).
  lia.
Qed.

(** A mantissa below [2^53] at an exponent of at least -1074 is not shifted. *)
Lemma shr_fexp_canonical m1 e' :
  0 <= m1 < 2 ^ 53 -> -1074 <= e' ->
  shr_fexp prec emax m1 e' loc_Exact = (Build_shr_record m1 false false, e').
Proof.
  intros Hm He. unfold shr_fexp, shr. cbn [shr_record_of_loc].
  rewrite fexp_eq.
  assert (Zdigits2 m1 <= 53).
  { destruct (Z.eq_dec m1 0) as [->|]; [simpl; lia|].
    apply Zdigits2_le. lia. }
  destruct (Z.max (Zdigits2 m1 + e' - 53) (-1074) - e') eqn:Hn;
    try reflexivity. lia.
Qed.

(** The mantissa [2^53], which rounding up can produce, is shifted once. *)
Lemma shr_fexp_carry e' :
  -1074 <= e' ->
  shr_fexp prec emax (2 ^ 53) e' loc_Exact =
  (Build_shr_record (2 ^ 52) false false, e' + 1).
Proof.
  intros He. unfold shr_fexp, shr. cbn [shr_record_of_loc].
  rewrite fexp_eq.
  replace (Zdigits2 (2 ^ 53)) with 54 by reflexivity.
  replace (Z.max (54 + e' - 53) (-1074) - e') with 1 by lia.
  reflexivity.
Qed.

(** [binary_round_aux] on an exact mantissa [M] at exponent [E] builds its
    result from a mantissa [m1] within half a unit of [M / 2^(e' - E)], and
    equal to it when the division is exact. *)
Lemma binary_round_aux_exact sx (M : positive) E :
  let e' := Z.max E (fexp prec emax (Zpos (digits2_pos M) + E)) in
  exists m1,
    0 <= m1 <= 2 ^ 53 /\
    2 * Z.abs (m1 * 2 ^ (e' - E) - Zpos M) <= 2 ^ (e' - E) /\
    (Zpos M mod 2 ^ (e' - E) = 0 -> m1 * 2 ^ (e' - E) = Zpos M) /\
    binary_round_aux prec emax sx (Zpos M) E loc_Exact = round_result sx m1 e'.
Proof.
  intros e'.
  destruct (@shr_fexp_exact (Zpos M) E) as (mrs & Hshr & Hinv); [lia|].
  cbn [Zdigits2] in *. subst e'.
  set (e' := Z.max E (fexp prec emax (Z.pos (digits2_pos M) + E))) in *.
  assert (Hk : 0 <= e' - E) by (subst e'; lia).
  assert (He' : -1074 <= e') by (subst e'; rewrite fexp_eq; lia).
  destruct (round_nearest_even_spec Hk Hinv) as (Hm1 & Herr & Hex).
  set (m1 := round_nearest_even (shr_m mrs) (loc_of_shr_record mrs)) in *.
  assert (HP : 0 < 2 ^ (e' - E)) by (apply Z.pow_pos_nonneg; lia).
  destruct Hinv as (Hq & Hrem & _ & _).
  assert (Hq53 : shr_m mrs < 2 ^ 53).
  { pose proof (digits2_pos_bounds M) as [_ Hd].
    assert (2 ^ Zpos (digits2_pos M) <= 2 ^ 53 * 2 ^ (e' - E)).
    { rewrite <- Z.pow_add_r by lia. apply Z.pow_le_mono_r; [lia|].
      subst e'. rewrite fexp_eq. lia. }
    apply (Z.mul_lt_mono_pos_r (2 ^ (e' - E))); lia. }
  exists m1. repeat split; try lia.
  - intros Hmod.
    assert (Hr0 : Zpos M - shr_m mrs * 2 ^ (e' - E) = 0).
    { rewrite <- Hmod. apply Z.mod_unique with (q := shr_m mrs); lia. }
    rewrite (Hex Hr0). lia.
  - unfold binary_round_aux. rewrite Hshr. fold m1.
    destruct (Z.eq_dec m1 (2 ^ 53)) as [Heq|Hne].
    + rewrite Heq, shr_fexp_carry by lia. cbn [shr_m]. reflexivity.
    + rewrite shr_fexp_canonical by lia. cbn [shr_m].
      unfold round_result. destruct m1 as [|p|p]; try reflexivity; try lia.
      destruct (Z.eqb_spec (Zpos p) (2 ^ 53)); [contradiction|reflexivity].
Qed.

End Rounding.

(** ** The error of one multiplication *)

Section Values.
Local Open Scope Q_scope.

(** Powers of two are positive. *)
Lemma pow2_pos e : 0 < pow2 e.
Proof. apply Qpower_0_lt. reflexivity. Qed.

(** The exponents of a product add up. *)
Lemma pow2_add a b : pow2 (a + b) == pow2 a * pow2 b.
Proof. apply Qpower_plus. discriminate. Qed.

(** A power of two with a natural exponent is the integer power. *)
Lemma pow2_inject k : (0 <= k)%Z -> pow2 k == inject_Z (2 ^ k).
Proof. intros Hk. unfold pow2. now rewrite Zpower_Qpower. Qed.

(** A magnitude is not negative. *)
Lemma SFmag_nonneg x : 0 <= SFmag x.
Proof.
  destruct x as [| | |s m e]; simpl; try apply Qle_refl.
  apply Qmult_le_0_compat; [|apply Qlt_le_weak, pow2_pos].
  change 0 with (inject_Z 0). rewrite <- Zle_Qle. lia.
Qed.

(** Without overflow the result has the magnitude [m1 * 2^e'], the sign it
    was given, a mantissa below [2^53] and an exponent of at most [e' + 1]. *)
Lemma round_result_mag sx m1 e' :
  (0 <= m1 <= 2 ^ 53)%Z -> (e' + 1 <= 971)%Z ->
  SFmag (round_result sx m1 e') == inject_Z m1 * pow2 e' /\
  match round_result sx m1 e' with
  | S754_zero s => s = sx
  | S754_finite s m e'' =>
      s = sx /\ (Zpos m < 2 ^ 53)%Z /\ (e'' <= e' + 1)%Z
  | _ => False
  end.
Proof.
  intros Hm He. unfold round_result.
  destruct m1 as [|p|p]; try lia.
  - split; [simpl; ring | reflexivity].
  - destruct (Z.eqb_spec (Z.pos p) (2 ^ 53)) as [Heq|Hne].
    + destruct (Z.leb_spec (e' + 1) 971); [|lia].
      split; [|repeat split; lia].
      cbn [SFmag]. rewrite Heq, pow2_add.
      change (pow2 1) with (2 # 1). change (2 ^ 53)%Z with 9007199254740992%Z.
      unfold inject_Z. ring.
    + destruct (Z.leb_spec e' 971); [|lia].
      split; [reflexivity | repeat split; lia].
Qed.

(** When the mantissa is shifted, the spacing [2^e'] of the result is at
    most twice the rounding error allowed for the value [M * 2^E]. *)
Lemma half_ulp_bound (M : positive) (E : Z) :
  let d := Zpos (digits2_pos M) in
  let e' := Z.max E (fexp prec emax (d + E)) in
  (E < e')%Z ->
  pow2 e' <= (2 # 1) * (u64 * (inject_Z (Zpos M) * pow2 E) + eta64).
Proof.
  intros d e' Hlt. subst e'. rewrite fexp_eq in *.
  pose proof (pow2_pos E) as HP.
  assert (Hu : 0 <= u64 * (inject_Z (Z.pos M) * pow2 E)).
  { apply Qmult_le_0_compat; [discriminate|].
    apply Qmult_le_0_compat; [|now apply Qlt_le_weak].
    change 0 with (inject_Z 0). rewrite <- Zle_Qle. lia. }
  assert (He : 0 < eta64) by apply pow2_pos.
  destruct (Z.max_spec (d + E - 53) (-1074)) as [[_ Hm]|[_ Hm]].
  - (* subnormal: the spacing is 2^-1074 *)
    replace (Z.max E (Z.max (d + E - 53) (-1074))) with (-1075 + 1)%Z by lia.
    rewrite pow2_add. change (pow2 1) with (2 # 1). fold eta64. lra.
  - (* normal: the spacing is 2^(d-53) * 2^E *)
    replace (Z.max E (Z.max (d + E - 53) (-1074)))
      with ((d - 1) + (-52) + E)%Z by lia.
    rewrite !pow2_add, pow2_inject by lia.
    destruct (digits2_pos_bounds M) as [Hd _]. fold d in Hd.
    rewrite Zle_Qle in Hd.
    assert (H52 : pow2 (-52) == (2 # 1) * u64) by reflexivity.
    rewrite H52.
    set (a := inject_Z (2 ^ (d - 1))) in *. set (b := inject_Z (Z.pos M)) in *.
    assert (a * pow2 E <= b * pow2 E) by (apply Qmult_le_compat_r; [assumption|lra]).
    unfold u64 in *. lra.
Qed.

(** The standard model of a binary64 multiplication that cannot overflow:
    the result is a zero or a finite float of the sign of the product [p],
    within [u64 * p + eta64] of [p] in magnitude. *)
Lemma SF64mul_finite_model sx mx ex sy my ey :
  (Zpos mx < 2 ^ 53)%Z -> (Zpos my < 2 ^ 53)%Z -> (ex + ey <= 917)%Z ->
  let r := SF64mul (S754_finite sx mx ex) (S754_finite sy my ey) in
  let p := (inject_Z (Zpos mx) * pow2 ex) * (inject_Z (Zpos my) * pow2 ey) in
  Qabs (SFmag r - p) <= u64 * p + eta64 /\
  match r with
  | S754_zero s => s = xorb sx sy
  | S754_finite s m e =>
      s = xorb sx sy /\ (Zpos m < 2 ^ 53)%Z /\
      (e <= Z.max (ex + ey + 54) (-1073))%Z
  | _ => False
  end.
Proof.
  intros Hmx Hmy HE r p. subst r. unfold SF64mul, SFmul.
  set (M := (mx * my)%positive). set (E := (ex + ey)%Z).
  destruct (binary_round_aux_exact (xorb sx sy) M E) as (m1 & Hm1 & Herr & _ & ->).
  set (d := Zpos (digits2_pos M)) in *.
  set (e' := Z.max E (fexp prec emax (d + E))) in *.
  assert (Hd : (d <= 106)%Z).
  { apply (@Zdigits2_le (Zpos M)). split; [lia|].
    subst M. rewrite Pos2Z.inj_mul.
    change (2 ^ 106)%Z with (2 ^ 53 * 2 ^ 53)%Z.
    apply Z.mul_lt_mono_nonneg; lia. }
  assert (He' : (e' <= 970)%Z) by (subst e'; rewrite fexp_eq; lia).
  assert (He'' : (e' <= Z.max (E + 53) (-1074))%Z)
    by (subst e'; rewrite fexp_eq; lia).
  destruct (@round_result_mag (xorb sx sy) m1 e') as [Hmag Hshape]; [lia|lia|].
  split.
  - rewrite Hmag.
    assert (Hp : p == inject_Z (Zpos M) * pow2 E).
    { subst p M E. rewrite Pos2Z.inj_mul, inject_Z_mult, pow2_add. ring. }
    rewrite Hp.
    assert (Hk : (0 <= e' - E)%Z) by (subst e'; lia).
    assert (He : pow2 e' == inject_Z (2 ^ (e' - E)) * pow2 E).
    { rewrite <- pow2_inject, <- pow2_add by lia.
      now replace (e' - E + E)%Z with e' by lia. }
    rewrite He.
    set (z := (m1 * 2 ^ (e' - E) - Z.pos M)%Z) in *.
    assert (Hz : inject_Z m1 * (inject_Z (2 ^ (e' - E)) * pow2 E) -
                 inject_Z (Z.pos M) * pow2 E == inject_Z z * pow2 E).
    { subst z. unfold Z.sub.
      rewrite inject_Z_plus, inject_Z_mult, inject_Z_opp. ring. }
    rewrite Hz, Qabs_Qmult.
    rewrite (Qabs_pos (pow2 E)) by apply Qlt_le_weak, pow2_pos.
    change (Qabs (inject_Z z)) with (inject_Z (Z.abs z)).
    pose proof (pow2_pos E) as HP.
    destruct (Z.eq_dec e' E) as [Heq|Hne].
    + (* no shift: the product is representable *)
      rewrite Heq, Z.sub_diag in Herr. change (2 ^ 0)%Z with 1%Z in Herr.
      replace (Z.abs z) with 0%Z by lia.
      assert (0 <= u64 * (inject_Z (Z.pos M) * pow2 E)).
      { apply Qmult_le_0_compat; [discriminate|].
        apply Qmult_le_0_compat; [|now apply Qlt_le_weak].
        change 0 with (inject_Z 0). rewrite <- Zle_Qle. lia. }
      assert (0 < eta64) by apply pow2_pos.
      change (inject_Z 0) with 0. lra.
    + assert (Hlt : (E < e')%Z) by (subst e'; lia).
      pose proof (@half_ulp_bound M E Hlt) as Hh. fold d e' in Hh.
      rewrite He in Hh.
      rewrite Zle_Qle in Herr. rewrite inject_Z_mult in Herr.
      change (inject_Z 2) with (2 # 1) in Herr.
      set (a := inject_Z (Z.abs z)) in *. set (K := inject_Z (2 ^ (e' - E))) in *.
      assert ((2 # 1) * a * pow2 E <= K * pow2 E)
        by (apply Qmult_le_compat_r; [assumption|lra]).
      lra.
  - destruct (round_result (xorb sx sy) m1 e'); try tauto.
    destruct Hshape as (? & ? & ?). repeat split; try assumption. lia.
Qed.

(** The two constants as fractions. *)
Lemma SFmag_U_TO_B : SFmag SF_U_TO_B == 2778046668940015 # 35184372088832.
Proof. reflexivity. Qed.

Lemma SFmag_B_TO_U : SFmag SF_B_TO_U == 228155022448185 # 18014398509481984.
Proof. reflexivity. Qed.

(** [2^-1068] is 128 times [eta64]. *)
Lemma eta64_scaled : pow2 (-1068) == (128 # 1) * eta64.
Proof. reflexivity. Qed.

(** A zero times either constant is the same zero. *)
Lemma SF64mul_zero_l s :
  SF64mul (S754_zero s) SF_B_TO_U = S754_zero s /\
  SF64mul (S754_zero s) SF_U_TO_B = S754_zero s.
Proof. now destruct s. Qed.

(** Turns the bounds on absolute values into linear inequalities and
    closes the goal with the constants unfolded. *)
Ltac close_bounds :=
  repeat match goal with
         | H : Qabs _ <= _ |- _ => apply Qabs_Qle_condition in H
         end;
  apply Qabs_Qle_condition; unfold u64 in *; lra.

(** One direction of the round trip: the multiplication by the constant
    [cA], of mantissa [mA], exponent [eA] and value [HA], and then by [cB]. *)
Ltac there_and_back s m e Hm mA eA cA HA mB eB cB HB :=
  let x := constr:(S754_finite s m e) in
  let H1 := fresh "H1" in
  let S1 := fresh "S1" in
  destruct (@SF64mul_finite_model s m e false mA eA Hm) as [H1 S1];
    [reflexivity|lia|];
  change (inject_Z (Z.pos m) * pow2 e) with (SFmag x) in H1;
  change (inject_Z (Zpos mA) * pow2 eA) with (SFmag cA) in H1;
  change (S754_finite false mA eA) with cA in H1, S1;
  rewrite HA in H1; rewrite xorb_false_r in S1;
  destruct (SF64mul x cA) as [s1| | |s1 m1 e1]; try contradiction;
  [ subst s1;
    rewrite ?(proj1 (SF64mul_zero_l s)), ?(proj2 (SF64mul_zero_l s));
    repeat split; cbn [SFmag] in *; close_bounds
  | let Hm1 := fresh "Hm1" in
    let He1 := fresh "He1" in
    destruct S1 as (-> & Hm1 & He1);
    let H2 := fresh "H2" in
    let S2 := fresh "S2" in
    destruct (@SF64mul_finite_model s m1 e1 false mB eB Hm1) as [H2 S2];
      [reflexivity|lia|];
    change (inject_Z (Z.pos m1) * pow2 e1)
      with (SFmag (S754_finite s m1 e1)) in H2;
    change (inject_Z (Zpos mB) * pow2 eB) with (SFmag cB) in H2;
    change (S754_finite false mB eB) with cB in H2, S2;
    rewrite HB in H2; rewrite xorb_false_r in S2;
    set (R1 := SFmag (S754_finite s m1 e1)) in *;
    destruct (SF64mul (S754_finite s m1 e1) cB) as [s2| | |s2 m2 e2];
      try contradiction;
    [ subst s2; repeat split; cbn [SFmag] in *; close_bounds
    | destruct S2 as (-> & _ & _); repeat split;
      set (R2 := SFmag (S754_finite s m2 e2)) in *; close_bounds ] ].

(** Scaling by one constant and then by the other.  Each multiplication
    adds a relative error of at most [u64] and an absolute one of at most
    [eta64]; the product of the two constants is within [u64] of one, and
    either constant is below 128. *)
Lemma SF_scale_there_and_back s m e :
  (Zpos m < 2 ^ 53)%Z -> (e <= 963)%Z ->
  let x := S754_finite s m e in
  forall r,
    r = SF64mul (SF64mul x SF_U_TO_B) SF_B_TO_U \/
    r = SF64mul (SF64mul x SF_B_TO_U) SF_U_TO_B ->
    SFfinite r = true /\ SFsign r = s /\
    Qabs (SFmag r - SFmag x) <= (4 # 1) * u64 * SFmag x + pow2 (-1068).
Proof.
  intros Hm He x r Hr.
  assert (HX : 0 <= SFmag x) by apply SFmag_nonneg.
  assert (Heta : 0 < eta64) by apply pow2_pos.
  rewrite eta64_scaled. subst x.
  destruct Hr as [-> | ->].
  - there_and_back s m e Hm
      5556093337880030%positive (-46)%Z SF_U_TO_B SFmag_U_TO_B
      7300960718341920%positive (-59)%Z SF_B_TO_U SFmag_B_TO_U.
  - there_and_back s m e Hm
      7300960718341920%positive (-59)%Z SF_B_TO_U SFmag_B_TO_U
      5556093337880030%positive (-46)%Z SF_U_TO_B SFmag_U_TO_B.
Qed.

End Values.

(** ** Multiplication by one and the order of floats *)

Section FloatFacts.
Local Open Scope Z_scope.

(** A valid finite float has a mantissa below [2^53] in canonical position
    and an exponent of at most 971. *)
Lemma valid_binary_finite s m e :
  valid_binary (S754_finite s m e) = true ->
  Zpos m < 2 ^ 53 /\ e <= 971 /\
  fexp prec emax (Zpos (digits2_pos m) + e) = e.
Proof.
  cbn [SpecFloat.valid_binary]. unfold bounded, canonical_mantissa.
  rewrite andb_true_iff, Z.eqb_eq, Z.leb_le. intros [Hc He].
  change (emax - prec) with 971 in He.
  repeat split; try assumption.
  rewrite fexp_eq in Hc.
  destruct (digits2_pos_bounds m) as [_ Hu].
  assert (2 ^ Zpos (digits2_pos m) <= 2 ^ 53) by (apply Z.pow_le_mono_r; lia).
  lia.
Qed.

(** Multiplying a valid float by 1.0 rounds nothing away. *)
Lemma SF64mul_1_r x : valid_binary x = true -> SF64mul x SF_one = x.
Proof.
  destruct x as [s|s| |s m e]; intros Hv; try (now destruct s); try reflexivity.
  destruct (valid_binary_finite _ _ _ Hv) as (Hm & He & Hc).
  unfold SF64mul, SF_one, SFmul. rewrite xorb_false_r.
  set (M := (m * 4503599627370496)%positive).
  assert (HM : Zpos M = Zpos m * 2 ^ 52) by (subst M; now rewrite Pos2Z.inj_mul).
  destruct (binary_round_aux_exact s M (e + -52)) as (m1 & Hm1 & _ & Hex & ->).
  destruct (digits2_pos_bounds m) as [Hl Hu].
  set (dm := Zpos (digits2_pos m)) in *.
  assert (Hd : Zpos (digits2_pos M) = dm + 52).
  { assert (Zdigits2 (Zpos M) <= dm + 52).
    { apply Zdigits2_le. rewrite HM, Z.pow_add_r by lia. lia. }
    assert (dm + 51 < Zdigits2 (Zpos M)).
    { apply Zdigits2_gt; [lia|]. rewrite HM.
      replace (dm + 51) with ((dm - 1) + 52) by lia.
      rewrite Z.pow_add_r by lia. lia. }
    cbn [Zdigits2] in *. lia. }
  rewrite Hd in *.
  replace (dm + 52 + (e + -52)) with (dm + e) in * by lia.
  rewrite Hc in *.
  replace (Z.max (e + -52) e) with e in * by lia.
  replace (e - (e + -52)) with 52 in * by lia.
  assert (m1 = Zpos m).
  { assert (m1 * 2 ^ 52 = Zpos M).
    { apply Hex. rewrite HM. apply Z.mod_mul. lia. }
    lia. }
  subst m1. unfold round_result.
  destruct (Z.eqb_spec (Zpos m) (2 ^ 53)); [lia|].
  destruct (Z.leb_spec e 971); [reflexivity|lia].
Qed.

(** [x * 1.0] is [x] for every float: NaN, the infinities and both zeros
    included. *)
Lemma mul_1_r (x : float) : (x * 1)%float = x.
Proof.
  apply Prim2SF_inj. rewrite mul_spec.
  change (Prim2SF 1) with SF_one.
  apply SF64mul_1_r, Prim2SF_valid.
Qed.

(** Swapping the operands of a comparison swaps its result. *)
Lemma SFcompare_swap x y :
  SFcompare y x = option_map CompOpp (SFcompare x y).
Proof.
  destruct x as [sx|sx| |sx mx ex], y as [sy|sy| |sy my ey];
    try reflexivity; try (now destruct sx); try (now destruct sy);
    try (now destruct sx, sy).
  cbn [SFcompare option_map].
  rewrite (Z.compare_antisym ex ey).
  change (Pos.compare_cont Eq my mx) with (Pos.compare_cont (CompOpp Eq) my mx).
  rewrite <- (Pos.compare_cont_antisym mx my Eq).
  destruct sx, sy; cbn [CompOpp]; try reflexivity;
    destruct (ex ?= ey); cbn [CompOpp]; try reflexivity;
    now rewrite ?CompOpp_involutive.
Qed.

(** [<] on floats is asymmetric. *)
Lemma ltb_asym (x y : float) : (x <? y)%float = true -> (y <? x)%float = false.
Proof.
  rewrite !ltb_spec. unfold SFltb. rewrite (SFcompare_swap (Prim2SF x)).
  now destruct (SFcompare (Prim2SF x) (Prim2SF y)) as [[| |]|].
Qed.

(** [x <= y] excludes [y < x]. *)
Lemma leb_not_ltb (x y : float) : (x <=? y)%float = true -> (y <? x)%float = false.
Proof.
  rewrite leb_spec, ltb_spec. unfold SFleb, SFltb.
  rewrite (SFcompare_swap (Prim2SF x)).
  now destruct (SFcompare (Prim2SF x) (Prim2SF y)) as [[| |]|].
Qed.

End FloatFacts.

(** ** Scaling by [U_TO_B] and back by [B_TO_U] *)

Section Scaling.
Local Open Scope Z_scope.

(** [U_TO_B = 8 * pi ** 2] and [B_TO_U = 1 / U_TO_B] evaluate to these bit
    patterns. *)
Lemma Prim2SF_U_TO_B : Prim2SF U_TO_B = SF_U_TO_B.
Proof. reflexivity. Qed.

Lemma Prim2SF_B_TO_U : Prim2SF B_TO_U = SF_B_TO_U.
Proof. reflexivity. Qed.

(** A float below [2^1016] in magnitude is a zero or has an exponent of at
    most 963. *)
Lemma below_2p1016 (x : float) :
  (abs x <? 0x1p1016)%float = true ->
  (exists s, Prim2SF x = S754_zero s) \/
  (exists s m e, Prim2SF x = S754_finite s m e /\ Zpos m < 2 ^ 53 /\ e <= 963).
Proof.
  rewrite ltb_spec, abs_spec.
  change (Prim2SF 0x1p1016) with (S754_finite false 4503599627370496 964).
  pose proof (Prim2SF_valid x) as Hv.
  destruct (Prim2SF x) as [s|s| |s m e]; cbn [SFabs]; try discriminate.
  - intros _. left. now exists s.
  - destruct (valid_binary_finite _ _ _ Hv) as (Hm & _ & Hc).
    intros Hlt. right. exists s, m, e. repeat split; try assumption.
    unfold SFltb in Hlt. cbn [SFcompare] in Hlt.
    destruct (Z.compare_spec e 964) as [He|He|He]; try discriminate; try lia.
    exfalso. subst e. rewrite fexp_eq in Hc.
    destruct (digits2_pos_bounds m) as [Hl _].
    replace (Zpos (digits2_pos m)) with 53 in Hl by lia.
    change (2 ^ (53 - 1)) with (Zpos 4503599627370496) in Hl.
    rewrite Pos.compare_cont_spec in Hlt.
    destruct (Pos.compare_spec m 4503599627370496) as [H|H|H];
      cbn [Pos.switch_Eq] in Hlt; try discriminate.
    apply Pos2Z.pos_lt_pos in H. clear - Hl H. lia.
Qed.

(** With equal signs, the distance of two values is that of their
    magnitudes. *)
Lemma SF2Q_diff_same_sign r x :
  SFsign r = SFsign x ->
  (Qabs (SF2Q r - SF2Q x) == Qabs (SFmag r - SFmag x))%Q.
Proof.
  unfold SF2Q. intros ->. destruct (SFsign x); [|reflexivity].
  rewrite <- Qabs_opp. apply Qabs_wd. ring.
Qed.

(** The absolute value of a float is its magnitude. *)
Lemma Qabs_SF2Q x : (Qabs (SF2Q x) == SFmag x)%Q.
Proof.
  unfold SF2Q. destruct (SFsign x).
  - rewrite Qabs_opp. apply Qabs_pos, SFmag_nonneg.
  - apply Qabs_pos, SFmag_nonneg.
Qed.

(** Multiplying by [U_TO_B] and then by [B_TO_U], or the other way round,
    gives back [x] up to rounding. *)
Lemma scale_round_trip (x : float) :
  (abs x <? 0x1p1016)%float = true ->
  (finite (x * U_TO_B * B_TO_U) = true /\
   within_tolerance (x * U_TO_B * B_TO_U) x) /\
  (finite (x * B_TO_U * U_TO_B) = true /\
   within_tolerance (x * B_TO_U * U_TO_B) x).
Proof.
  intros Hx. unfold finite, within_tolerance, F2Q.
  rewrite !mul_spec, Prim2SF_U_TO_B, Prim2SF_B_TO_U.
  destruct (below_2p1016 Hx) as [[s ->]|(s & m & e & -> & Hm & He)].
  - destruct (SF64mul_zero_l s) as [HB HU].
    rewrite ?HU, ?HB, ?HU, ?HB.
    assert ((0 <= pow2 (-1068))%Q) by apply Qlt_le_weak, pow2_pos.
    assert ((Qabs (SF2Q (S754_zero s) - SF2Q (S754_zero s)) == 0)%Q) as ->.
    { unfold SF2Q. destruct (SFsign _); reflexivity. }
    assert ((Qabs (SF2Q (S754_zero s)) == 0)%Q) as ->.
    { unfold SF2Q. destruct (SFsign _); reflexivity. }
    repeat split; try reflexivity; lra.
  - split.
    + destruct (SF_scale_there_and_back s Hm He
                  (r := SF64mul (SF64mul (S754_finite s m e) SF_U_TO_B) SF_B_TO_U))
        as (Hf & Hs & Hb); [now left|].
      split; [assumption|].
      rewrite SF2Q_diff_same_sign, Qabs_SF2Q by (now rewrite Hs). exact Hb.
    + destruct (SF_scale_there_and_back s Hm He
                  (r := SF64mul (SF64mul (S754_finite s m e) SF_B_TO_U) SF_U_TO_B))
        as (Hf & Hs & Hb); [now right|].
      split; [assumption|].
      rewrite SF2Q_diff_same_sign, Qabs_SF2Q by (now rewrite Hs). exact Hb.
Qed.

End Scaling.

(** * Running the methods *)

(** Running [bind] when its first computation returns. *)
Lemma bind_run {A B} (m : M A) (k : A -> M B) ed a ed' :
  m ed = (inr a, ed') -> bind m k ed = k a ed'.
Proof. unfold bind. now intros ->. Qed.

Arguments bind_run {A B m} k {ed a ed'} _.

(** Writing the atom list a site already has changes nothing. *)
Lemma with_site_atoms_same ed l :
  site_atoms (ed_site ed) = l -> with_site (set_atoms (fun _ => l)) ed = ed.
Proof. destruct ed as [[t c a] u o th n]. cbn. now intros ->. Qed.

(** The three conversions: the multiplier of the display type, or the
    exception for an unknown one; the editor is only read. *)
Lemma U_run val ed :
  U val ed =
  (match multiplier_of 1 B_TO_U (ui_thermal_factor_type (ed_ui ed)) with
   | inr k => inr (val * k)%float
   | inl e => inl e
   end, ed).
Proof.
  unfold U, multiplier_of, thermal_factor_type, bind, gets, ret, raise.
  set (ty := ui_thermal_factor_type (ed_ui ed)).
  now destruct (ty =? "U")%string, (ty =? "B")%string.
Qed.

Lemma B_run val ed :
  B val ed =
  (match multiplier_of U_TO_B 1 (ui_thermal_factor_type (ed_ui ed)) with
   | inr k => inr (val * k)%float
   | inl e => inl e
   end, ed).
Proof.
  unfold B, multiplier_of, thermal_factor_type, bind, gets, ret, raise.
  set (ty := ui_thermal_factor_type (ed_ui ed)).
  now destruct (ty =? "U")%string, (ty =? "B")%string.
Qed.

Lemma thermal_factor_run atom ed :
  thermal_factor atom ed =
  (match multiplier_of 1 U_TO_B (ui_thermal_factor_type (ed_ui ed)) with
   | inr k => inr (atom_U atom * k)%float
   | inl e => inl e
   end, ed).
Proof.
  unfold thermal_factor, multiplier_of, thermal_factor_type, bind, gets, ret, raise.
  set (ty := ui_thermal_factor_type (ed_ui ed)).
  now destruct (ty =? "U")%string, (ty =? "B")%string.
Qed.

(** A display type other than ["U"] and ["B"] has no multiplier. *)
Lemma multiplier_of_unknown u b type :
  type <> "U"%string -> type <> "B"%string ->
  multiplier_of u b type = inl (Exception ("Unknown type: " ++ type)%string).
Proof.
  intros HU HB. unfold multiplier_of.
  destruct (String.eqb_spec type "U"); [contradiction|].
  destruct (String.eqb_spec type "B"); [contradiction|reflexivity].
Qed.

(** [sum] over the occupancies only reads, and raises [KeyError] at the
    first atom without one. *)
Lemma sum_occupancy_run l : forall acc ed,
  sum_occupancy acc l ed =
  (match occupancy_sum acc l with
   | Some total => inr total
   | None => inl (KeyError "occupancy"%string)
   end, ed).
Proof.
  induction l as [|x r IH]; intros acc ed; [reflexivity|].
  cbn [sum_occupancy occupancy_sum]. unfold bind, getitem_occupancy.
  destruct (atom_occupancy x); [apply IH|reflexivity].
Qed.

(** The validator reads the site and nothing else. *)
Lemma occupancies_valid_run ed :
  occupancies_valid ed = (valid_result (ed_site ed), ed).
Proof.
  unfold occupancies_valid, valid_result, occupancy_gap, atoms, site, bind, gets.
  rewrite sum_occupancy_run.
  now destruct (occupancy_sum 0 (site_atoms (ed_site ed))).
Qed.

(** [update_occupancy_validity] restyles the widgets once the validator has
    returned. *)
Lemma update_occupancy_validity_run ed :
  update_occupancy_validity ed =
  match valid_result (ed_site ed) with
  | inl e => (inl e, ed)
  | inr valid => (inr tt, styled valid ed)
  end.
Proof.
  unfold update_occupancy_validity, bind. rewrite occupancies_valid_run.
  now destruct (valid_result (ed_site ed)).
Qed.

(** [emit_site_modified_if_valid] emits the signal exactly when the
    validator returns true. *)
Lemma emit_site_modified_if_valid_run ed :
  emit_site_modified_if_valid ed =
  match valid_result (ed_site ed) with
  | inl e => (inl e, ed)
  | inr valid => (inr tt, if valid then with_emitted S ed else ed)
  end.
Proof.
  unfold emit_site_modified_if_valid, site_valid, bind.
  rewrite occupancies_valid_run.
  now destruct (valid_result (ed_site ed)) as [|[|]].
Qed.


(** ** Loops *)

(** A loop whose body never raises is a fold of its steps. *)
Lemma for_each_pure {A} (I : Editor -> Prop) (step : A -> Editor -> Editor)
    (body : A -> M unit) (l : list A) :
  (forall x ed, In x l -> I ed ->
     body x ed = (inr tt, step x ed) /\ I (step x ed)) ->
  forall ed, I ed ->
    for_each l body ed = (inr tt, fold_left (fun ed x => step x ed) l ed) /\
    I (fold_left (fun ed x => step x ed) l ed).
Proof.
  induction l as [|x r IH]; intros Hbody ed HI; [now split|].
  cbn [for_each fold_left].
  destruct (Hbody x ed (or_introl eq_refl) HI) as [Hx HI'].
  rewrite (bind_run _ Hx).
  apply IH; [|assumption]. intros y ed' Hy. apply Hbody. now right.
Qed.

(** Updating the element after a prefix. *)
Lemma list_update_app {A} (pre : list A) x r (f : A -> A) :
  list_update (pre ++ x :: r) (List.length pre) f = pre ++ f x :: r.
Proof. induction pre as [|y pre IH]; cbn; [reflexivity|now rewrite IH]. Qed.

(** The in-place updates of a loop over [enumerate(zip(atoms, spinboxes))]
    amount to [zip_update]. *)
Lemma fold_update_atoms {W} (h : W -> Atom -> Atom) (ws : list W) :
  forall (l pre : list Atom) (ed : Editor),
    site_atoms (ed_site ed) = pre ++ l ->
    fold_left
      (fun ed (x : nat * (Atom * W)) =>
         let '(i, (_, w)) := x in
         with_site (set_atoms (fun a => list_update a i (h w))) ed)
      (enumerate_from (List.length pre) (zip l ws)) ed =
    with_site (set_atoms (fun _ => pre ++ zip_update h l ws)) ed.
Proof.
  induction ws as [|w ws IH]; intros l pre ed Hl.
  - destruct l; cbn; symmetry; now apply with_site_atoms_same.
  - destruct l as [|x r].
    + symmetry. now apply with_site_atoms_same.
    + cbn [zip combine enumerate_from fold_left zip_update].
      specialize (IH r (pre ++ [h w x])).
      rewrite length_app, Nat.add_1_r in IH.
      rewrite IH.
      * rewrite <- app_assoc. reflexivity.
      * cbn. rewrite Hl, list_update_app, <- app_assoc. reflexivity.
Qed.


(** ** The write-back of [update_config] *)

Ltac proj_simpl :=
  cbn [ed_site ed_ui occupancy_spinboxes thermal_factor_spinboxes
       site_modified_emitted site_total_occupancy site_fractional_coords
       site_atoms ui_total_occupancy ui_coords_x ui_coords_y ui_coords_z
       ui_thermal_factor_type ui_table_rowCount ui_table_symbols
       ui_table_header with_site with_ui with_occupancy_spinboxes
       with_thermal_factor_spinboxes with_emitted set_total_occupancy
       set_fractional_coords set_atoms fst snd] in *.

(** The symbols go to column 0. *)
Lemma getitem_COLUMNS_symbol : getitem_COLUMNS "symbol" = ret 0.
Proof. reflexivity. Qed.

(** [bind] after a read, a returned value and an update. *)
Lemma bind_gets {A B} (f : Editor -> A) (k : A -> M B) ed :
  bind (gets f) k ed = k (f ed) ed.
Proof. reflexivity. Qed.

Lemma bind_ret {A B} (a : A) (k : A -> M B) ed : bind (ret a) k ed = k a ed.
Proof. reflexivity. Qed.

Lemma bind_modify {B} (g : Editor -> Editor) (k : unit -> M B) ed :
  bind (modify g) k ed = k tt (g ed).
Proof. reflexivity. Qed.

(** The last two calls of [update_config] and of the [atom_types] setter. *)
Lemma validity_then_emit_run ed :
  (update_occupancy_validity ;; emit_site_modified_if_valid)%py ed =
  validity_then_emit ed.
Proof.
  unfold bind, validity_then_emit. rewrite update_occupancy_validity_run.
  destruct (valid_result (ed_site ed)) as [e|valid] eqn:Hv; [reflexivity|].
  rewrite emit_site_modified_if_valid_run.
  change (ed_site (styled valid ed)) with (ed_site ed). now rewrite Hv.
Qed.

(** The three writes into [fractional_coords]. *)
Lemma coords_loop_run wx wy wz ed :
  for_each (enumerate [wx; wy; wz]) (fun '(i, w) =>
    c <- fractional_coords ;;
    match list_setitem c i (sb_value w) with
    | inl e => raise e
    | inr c' => modify (with_site (set_fractional_coords c'))
    end)%py ed =
  let '(c, ok) :=
    write_coords (site_fractional_coords (ed_site ed))
                 (sb_value wx) (sb_value wy) (sb_value wz) in
  (if ok then inr tt else inl IndexError, with_site (set_fractional_coords c) ed).
Proof.
  destruct ed as [[t c a] u o th n].
  destruct c as [|c0 [|c1 [|c2 r]]]; reflexivity.
Qed.

(** The loop over [zip(self.atoms, self.occupancy_spinboxes)]. *)
Lemma occupancy_loop_run ed l ws :
  site_atoms (ed_site ed) = l ->
  for_each (enumerate (zip l ws)) (fun '(i, (_, spinbox)) =>
    update_atom i (set_occupancy (sb_value spinbox))) ed =
  (inr tt,
   with_site (set_atoms (fun _ =>
     zip_update (fun w => set_occupancy (sb_value w)) l ws)) ed).
Proof.
  intros Hl.
  destruct (@for_each_pure _ (fun _ => True)
    (fun (x : nat * (Atom * SpinBox)) ed =>
       let '(i, (_, w)) := x in
       with_site (set_atoms (fun a => list_update a i (set_occupancy (sb_value w)))) ed)
    (fun '(i, (_, spinbox)) => update_atom i (set_occupancy (sb_value spinbox)))
    (enumerate (zip l ws))) with (ed := ed) as [-> _]; try exact I.
  - now intros [i [a w]] ed' _ _.
  - f_equal.
    apply (fold_update_atoms (fun w => set_occupancy (sb_value w)) ws l []).
    exact Hl.
Qed.

(** The loop over [zip(self.atoms, self.thermal_factor_spinboxes)] under a
    known display type. *)
Lemma thermal_loop_run ed l ws k :
  site_atoms (ed_site ed) = l ->
  multiplier_of 1 B_TO_U (ui_thermal_factor_type (ed_ui ed)) = inr k ->
  for_each (enumerate (zip l ws)) (fun '(i, (_, spinbox)) =>
    u <- U (sb_value spinbox) ;;
    update_atom i (set_U u))%py ed =
  (inr tt,
   with_site (set_atoms (fun _ =>
     zip_update (fun w => set_U (sb_value w * k)%float) l ws)) ed).
Proof.
  intros Hl Hk.
  destruct (@for_each_pure _
    (fun ed' => ui_thermal_factor_type (ed_ui ed') = ui_thermal_factor_type (ed_ui ed))
    (fun (x : nat * (Atom * SpinBox)) ed =>
       let '(i, (_, w)) := x in
       with_site (set_atoms (fun a => list_update a i (set_U (sb_value w * k)%float))) ed)
    (fun '(i, (_, spinbox)) =>
       u <- U (sb_value spinbox) ;; update_atom i (set_U u))%py
    (enumerate (zip l ws))) with (ed := ed) as [-> _]; try reflexivity.
  - intros [i [a w]] ed' _ Hty. split; [|exact Hty].
    unfold bind. rewrite U_run, Hty, Hk. reflexivity.
  - f_equal.
    apply (fold_update_atoms (fun w => set_U (sb_value w * k)%float) ws l []).
    exact Hl.
Qed.

(** Under an unknown display type the same loop raises at its first pair,
    and returns when there is none. *)
Lemma thermal_loop_raise ed (l : list Atom) (ws : list SpinBox) e :
  multiplier_of 1 B_TO_U (ui_thermal_factor_type (ed_ui ed)) = inl e ->
  for_each (enumerate (zip l ws)) (fun '(i, (_, spinbox)) =>
    u <- U (sb_value spinbox) ;;
    update_atom i (set_U u))%py ed =
  match zip l ws with
  | [] => (inr tt, ed)
  | _ :: _ => (inl e, ed)
  end.
Proof.
  intros He. destruct (zip l ws) as [|[a w] r]; [reflexivity|].
  cbn [enumerate enumerate_from for_each]. unfold bind.
  now rewrite U_run, He.
Qed.

(** Unfolds the updates of the editor and of the site down to the records. *)
Ltac state_simpl :=
  unfold with_site, with_ui, with_occupancy_spinboxes,
    with_thermal_factor_spinboxes, with_emitted, set_total_occupancy,
    set_fractional_coords, set_atoms in *;
  proj_simpl.

(** [update_config] in closed form. *)
Lemma update_config_run ed : update_config ed = update_config_result ed.
Proof.
  destruct ed as [[t c a] [wt wx wy wz ty rc sy hd] o th n].
  unfold update_config, update_config_result, set_site_total_occupancy,
    fractional_coords_widgets, atoms, occupancies_written,
    thermal_factors_written.
  rewrite bind_gets, bind_modify, bind_gets. proj_simpl.
  unfold bind at 1. rewrite coords_loop_run. proj_simpl.
  destruct (write_coords c (sb_value wx) (sb_value wy) (sb_value wz))
    as [c' [|]]; [|reflexivity].
  rewrite bind_gets, bind_gets. proj_simpl.
  erewrite bind_run by (apply occupancy_loop_run; reflexivity). proj_simpl.
  rewrite bind_gets, bind_gets. proj_simpl.
  destruct (multiplier_of 1 B_TO_U ty) as [e|k] eqn:Hk.
  - unfold bind at 1. erewrite thermal_loop_raise by exact Hk.
    destruct (zip _ th); [apply validity_then_emit_run|reflexivity].
  - erewrite bind_run by (apply thermal_loop_run; [reflexivity|exact Hk]).
    apply validity_then_emit_run.
Qed.

(** ** What the methods leave alone *)

(** The rules of [keeps]: the primitives of the monad, [bind] and loops. *)
Lemma keeps_ret {A X} (f : Editor -> X) (a : A) : keeps f (ret a).
Proof. now intros ed. Qed.

Lemma keeps_raise {A X} (f : Editor -> X) e : keeps f (@raise A e).
Proof. now intros ed. Qed.

Lemma keeps_gets {A X} (f : Editor -> X) (g : Editor -> A) : keeps f (gets g).
Proof. now intros ed. Qed.

Lemma keeps_modify {X} (f : Editor -> X) g :
  (forall ed, f (g ed) = f ed) -> keeps f (modify g).
Proof. intros H ed. apply H. Qed.

Lemma keeps_bind {A B X} (f : Editor -> X) (m : M A) (k : A -> M B) :
  keeps f m -> (forall a, keeps f (k a)) -> keeps f (bind m k).
Proof.
  intros Hm Hk ed. unfold bind. specialize (Hm ed).
  destruct (m ed) as [[e|a] ed']; cbn [snd] in *; [assumption|].
  now rewrite Hk.
Qed.

Lemma keeps_for_each {A X} (f : Editor -> X) (l : list A) body :
  (forall x, keeps f (body x)) -> keeps f (for_each l body).
Proof.
  intros Hb. induction l as [|x r IH]; cbn [for_each].
  - apply keeps_ret.
  - apply keeps_bind; [apply Hb|now intros _].
Qed.

(** Reads and the division keep everything. *)
Lemma keeps_thermal_factor {X} (f : Editor -> X) atom : keeps f (thermal_factor atom).
Proof. intros ed. now rewrite thermal_factor_run. Qed.

Lemma keeps_getitem_occupancy {X} (f : Editor -> X) atom :
  keeps f (getitem_occupancy atom).
Proof. intros ed. unfold getitem_occupancy. now destruct (atom_occupancy atom). Qed.

Lemma keeps_py_truediv {X} (f : Editor -> X) x n : keeps f (py_truediv x n).
Proof. intros ed. now destruct n. Qed.

(** The validity update keeps whatever restyling the widgets keeps, and
    the signal whatever counting it keeps. *)
Lemma keeps_update_occupancy_validity {X} (f : Editor -> X) :
  (forall valid ed, f (styled valid ed) = f ed) ->
  keeps f update_occupancy_validity.
Proof.
  intros H ed. rewrite update_occupancy_validity_run.
  destruct (valid_result (ed_site ed)); cbn [snd]; [reflexivity|apply H].
Qed.

Lemma keeps_emit_site_modified_if_valid {X} (f : Editor -> X) :
  (forall ed, f (with_emitted S ed) = f ed) ->
  keeps f emit_site_modified_if_valid.
Proof.
  intros H ed. rewrite emit_site_modified_if_valid_run.
  destruct (valid_result (ed_site ed)) as [|[|]]; cbn [snd];
    [reflexivity|apply H|reflexivity].
Qed.

(** Solves [keeps f m] for a method made of reads, widget updates and the
    lemmas above. *)
Ltac keeps_tac :=
  repeat first
    [ apply keeps_ret | apply keeps_raise | apply keeps_gets
    | apply keeps_thermal_factor | apply keeps_getitem_occupancy
    | apply keeps_py_truediv
    | apply keeps_update_occupancy_validity; reflexivity
    | apply keeps_emit_site_modified_if_valid; reflexivity
    | apply keeps_modify; reflexivity
    | apply keeps_bind
    | apply keeps_for_each
    | intros [? ?] | intro ].

(** Rebuilding the table changes widgets only. *)
Lemma keeps_update_table spin_stored : keeps model (update_table spin_stored).
Proof. unfold update_table, clear_table, setRowCount, setItem,
         create_occupancy_spinbox, create_thermal_factor_spinbox, atoms.
  keeps_tac.
Qed.

(** [reset_occupancies] writes occupancies only. *)
Lemma keeps_reset_occupancies : keeps site_frame reset_occupancies.
Proof.
  unfold reset_occupancies, total_occupancy, atoms, update_atom. keeps_tac.
Qed.

(** The [atom_types] setter writes neither the total occupancy nor the
    fractional coordinates. *)
Lemma keeps_set_atom_types DEFAULT_U spin_stored v :
  keeps site_frame (set_atom_types DEFAULT_U spin_stored v).
Proof.
  unfold set_atom_types, atom_types.
  apply keeps_bind; [apply keeps_gets|]. intros cur.
  destruct (list_eq_dec string_dec v cur); [apply keeps_ret|].
  repeat (apply keeps_bind; [|intros _]);
    try (apply keeps_modify; reflexivity).
  - apply keeps_reset_occupancies.
  - intros ed. unfold site_frame.
    pose proof (keeps_update_table spin_stored ed) as H. unfold model in H.
    now inversion H.
  - apply keeps_emit_site_modified_if_valid. reflexivity.
Qed.

(** ** Resetting the occupancies and rebuilding the table *)

(** The in-place updates of a loop over [enumerate(atoms)] amount to a
    [map]. *)
Lemma fold_update_all (f : Atom -> Atom) :
  forall (l pre : list Atom) (ed : Editor),
    site_atoms (ed_site ed) = pre ++ l ->
    fold_left
      (fun ed (x : nat * Atom) =>
         let '(i, _) := x in
         with_site (set_atoms (fun a => list_update a i f)) ed)
      (enumerate_from (List.length pre) l) ed =
    with_site (set_atoms (fun _ => pre ++ map f l)) ed.
Proof.
  induction l as [|x r IH]; intros pre ed Hl.
  - cbn. symmetry. now apply with_site_atoms_same.
  - cbn [enumerate_from fold_left map].
    specialize (IH (pre ++ [f x])).
    rewrite length_app, Nat.add_1_r in IH.
    rewrite IH.
    + rewrite <- app_assoc. reflexivity.
    + cbn. rewrite Hl, list_update_app, <- app_assoc. reflexivity.
Qed.

(** [reset_occupancies] gives every atom the same share of the total; on an
    empty list the loop body, and with it the division, never runs. *)
Lemma reset_occupancies_run ed :
  reset_occupancies ed =
  update_occupancy_validity
    (with_site (set_atoms (map (set_occupancy
       (site_total_occupancy (ed_site ed) /
        float_of_int (Z.of_nat (List.length (site_atoms (ed_site ed)))))%float)))
       ed).
Proof.
  unfold reset_occupancies, total_occupancy, atoms.
  rewrite bind_gets, bind_gets.
  set (total := site_total_occupancy (ed_site ed)).
  destruct (site_atoms (ed_site ed)) as [|a0 l0] eqn:Hl.
  - cbn [enumerate enumerate_from for_each]. unfold bind, ret. f_equal.
    destruct ed as [[t c a] u o th n]. cbn in Hl |- *. now subst a.
  - set (l := a0 :: l0) in *. set (n := List.length l).
    set (q := (total / float_of_int (Z.of_nat n))%float).
    destruct (@for_each_pure _ (fun _ => True)
      (fun (x : nat * Atom) ed =>
         let '(i, _) := x in
         with_site (set_atoms (fun a => list_update a i (set_occupancy q))) ed)
      (fun '(i, _) =>
         v <- py_truediv total n ;; update_atom i (set_occupancy v))%py
      (enumerate l)) with (ed := ed) as [Hrun _]; try exact I.
    + intros [i x] ed' _ _. now split.
    + rewrite (bind_run _ Hrun). f_equal.
      etransitivity; [apply (fold_update_all (set_occupancy q) l [] ed Hl)|].
      destruct ed as [[t c a] u o th k]. cbn in Hl |- *. now subst a.
Qed.

(** The sum exists when every atom has an occupancy. *)
Lemma occupancy_sum_occupied l : forall acc,
  Forall (fun a => atom_occupancy a <> None) l ->
  exists total, occupancy_sum acc l = Some total.
Proof.
  induction l as [|x r IH]; intros acc H; cbn [occupancy_sum].
  - now exists acc.
  - inversion H as [|? ? Hx Hr]; subst.
    destruct (atom_occupancy x); [now apply IH|contradiction].
Qed.

(** On a site whose atoms all carry an occupancy the validator returns. *)
Lemma valid_result_occupied s :
  Forall (fun a => atom_occupancy a <> None) (site_atoms s) ->
  exists valid, valid_result s = inr valid.
Proof.
  intros H. unfold valid_result, occupancy_gap.
  destruct (occupancy_sum_occupied 0%float H) as [total ->]. eauto.
Qed.

(** A loop whose body returns on every element returns. *)
Lemma for_each_returns {A} (I : Editor -> Prop) (body : A -> M unit) (l : list A) :
  (forall x ed, In x l -> I ed ->
     fst (body x ed) = inr tt /\ I (snd (body x ed))) ->
  forall ed, I ed ->
    fst (for_each l body ed) = inr tt /\ I (snd (for_each l body ed)).
Proof.
  induction l as [|x r IH]; intros Hbody ed HI; [now split|].
  cbn [for_each]. unfold bind.
  destruct (Hbody x ed (or_introl eq_refl) HI) as [Hx HI'].
  destruct (body x ed) as [[e|[]] ed']; cbn [fst snd] in *; [discriminate|].
  apply IH; [|assumption]. intros y ed'' Hy. apply Hbody. now right.
Qed.

(** [enumerate] lists elements of the list. *)
Lemma In_enumerate_from {A} (l : list A) : forall i j x,
  In (j, x) (enumerate_from i l) -> In x l.
Proof.
  induction l as [|y r IH]; intros i j x; cbn; [tauto|].
  intros [H|H]; [inversion H; now left|right; eauto].
Qed.

(** In particular it keeps the site. *)
Lemma keeps_site_update_table spin_stored : keeps ed_site (update_table spin_stored).
Proof.
  intros ed. pose proof (keeps_update_table spin_stored ed) as H.
  unfold model in H. now inversion H.
Qed.

(** With a known display type and an occupancy on every atom,
    [update_table] returns. *)
Lemma update_table_returns spin_stored ed k :
  Forall (fun a => atom_occupancy a <> None) (site_atoms (ed_site ed)) ->
  multiplier_of 1 U_TO_B (ui_thermal_factor_type (ed_ui ed)) = inr k ->
  fst (update_table spin_stored ed) = inr tt.
Proof.
  intros Hocc Hk.
  pose (I := fun ed' : Editor =>
    ed_site ed' = ed_site ed /\
    ui_thermal_factor_type (ed_ui ed') = ui_thermal_factor_type (ed_ui ed)).
  unfold update_table, atoms, clear_table, setRowCount.
  rewrite bind_gets. unfold bind at 1. unfold bind at 1. unfold bind at 1.
  cbn [modify]. unfold bind at 1. cbn [modify]. unfold bind at 1.
  match goal with
  | |- context [for_each ?l ?body ?ed0] =>
      destruct (@for_each_returns _ I body l) with (ed := ed0) as [Hr [Hs Ht]]
  end.
  - intros [i atom] ed' Hin [Hs Ht]. apply In_enumerate_from in Hin.
    rewrite Forall_forall in Hocc. specialize (Hocc atom Hin).
    unfold setItem, getitem_occupancy,
      create_occupancy_spinbox, create_thermal_factor_spinbox.
    destruct (atom_occupancy atom) as [occ|]; [|contradiction].
    rewrite getitem_COLUMNS_symbol, bind_ret.
    rewrite bind_modify, bind_ret, bind_modify. unfold bind.
    rewrite thermal_factor_run. proj_simpl.
    rewrite Ht, Hk. cbn [modify fst snd]. split; [reflexivity|]. now split.
  - now split.
  - match goal with
    | |- context [for_each ?l ?body ?ed0] =>
        destruct (for_each l body ed0) as [[e|[]] ed1]
    end; cbn [fst snd] in *; [discriminate|].
    rewrite update_occupancy_validity_run, Hs.
    destruct (valid_result_occupied _ Hocc) as [valid ->]. reflexivity.
Qed.

(** ** Facts about the write-back, the setter and the edits *)

(** [zip_update] keeps the length of the list. *)
Lemma zip_update_length {A B} (f : B -> A -> A) (l : list A) : forall ws,
  List.length (zip_update f l ws) = List.length l.
Proof.
  induction l as [|x r IH]; intros [|w ws]; cbn; try reflexivity.
  now rewrite IH.
Qed.

(** Three coordinates or more take the three writes. *)
Lemma write_coords_ok c x y z :
  3 <= List.length c -> snd (write_coords c x y z) = true.
Proof. destruct c as [|c0 [|c1 [|c2 r]]]; cbn; try lia; reflexivity. Qed.

(** After [reset_occupancies] every atom has an occupancy. *)
Lemma Forall_occupied_map q (l : list Atom) :
  Forall (fun a => atom_occupancy a <> None) (map (set_occupancy q) l).
Proof. apply Forall_forall. intros a Ha. apply in_map_iff in Ha.
  destruct Ha as (b & <- & _). discriminate.
Qed.

(** The setter on a list that differs: the new atoms, each with the default
    [U] and its share of the total, then the table and the signal. *)
Lemma set_atom_types_run DEFAULT_U spin_stored v ed :
  v <> map atom_symbol (site_atoms (ed_site ed)) ->
  let q := (site_total_occupancy (ed_site ed) /
            float_of_int (Z.of_nat (List.length v)))%float in
  let ed2 := with_site (set_atoms (fun _ =>
               map (fun x => mkAtom x (Some q) DEFAULT_U) v)) ed in
  exists valid,
    valid_result (ed_site ed2) = inr valid /\
    set_atom_types DEFAULT_U spin_stored v ed =
    (update_table spin_stored ;; emit_site_modified_if_valid)%py (styled valid ed2).
Proof.
  intros Hne q ed2.
  assert (Hocc : Forall (fun a => atom_occupancy a <> None)
                   (site_atoms (ed_site ed2))).
  { destruct ed as [[t c a] u o th n]. cbn.
    rewrite <- (map_map (fun x => mkAtom x None DEFAULT_U) (set_occupancy q)).
    apply Forall_occupied_map. }
  destruct (valid_result_occupied _ Hocc) as [valid Hv].
  exists valid. split; [assumption|].
  unfold set_atom_types, atom_types. rewrite bind_gets.
  destruct (list_eq_dec string_dec _ _) as [Heq|_]; [contradiction|].
  rewrite bind_modify, bind_modify. unfold bind at 1.
  set (ed1 := with_site (set_atoms (fun l =>
                l ++ map (fun x => mkAtom x None DEFAULT_U) v))
                (with_site (set_atoms (fun _ => [])) ed)).
  rewrite reset_occupancies_run, update_occupancy_validity_run.
  assert (Hed :
    with_site (set_atoms (map (set_occupancy
      (site_total_occupancy (ed_site ed1) /
       float_of_int (Z.of_nat (List.length (site_atoms (ed_site ed1)))))%float)))
      ed1 = ed2).
  { subst ed1 ed2 q. destruct ed as [[t c a] u o th n]. state_simpl.
    now rewrite app_nil_l, length_map, map_map. }
  rewrite Hed, Hv. reflexivity.
Qed.

(** The table and the signal keep the site. *)
Lemma keeps_site_table_then_emit spin_stored :
  keeps ed_site (update_table spin_stored ;; emit_site_modified_if_valid)%py.
Proof.
  apply keeps_bind; [apply keeps_site_update_table|intros _].
  now apply keeps_emit_site_modified_if_valid.
Qed.

(** On atoms that all carry an occupancy the sum is the left fold of
    float additions. *)
Lemma occupancy_sum_fold (l : list Atom) : forall occs acc,
  map atom_occupancy l = map Some occs ->
  occupancy_sum acc l = Some (fold_left PrimFloat.add occs acc).
Proof.
  induction l as [|x r IH]; intros [|o occs] acc H; try discriminate.
  - reflexivity.
  - cbn in H. inversion H as [[Hx Hr]]. cbn [occupancy_sum fold_left].
    rewrite Hx. now apply IH.
Qed.

(** [<] on floats is irreflexive. *)
Lemma ltb_irrefl (x : float) : (x <? x)%float = false.
Proof.
  destruct (x <? x)%float eqn:H; [|reflexivity].
  now rewrite (ltb_asym H) in H.
Qed.

(** A spin box at or past the end of the atom list does not show in the
    zip with the atoms. *)
Lemma combine_list_update_stale {A B} (l : list A) : forall (ws : list B) row g,
  List.length l <= row -> combine l (list_update ws row g) = combine l ws.
Proof.
  induction l as [|x r IH]; intros ws row g Hrow; [reflexivity|].
  destruct ws as [|w ws]; [reflexivity|].
  destruct row as [|row]; cbn in Hrow; [lia|].
  cbn. rewrite IH by lia. reflexivity.
Qed.

(** Nor in the atoms the loop writes. *)
Lemma zip_update_list_update_stale {A B} (f : B -> A -> A) (l : list A) :
  forall (ws : list B) row g,
    List.length l <= row -> zip_update f l (list_update ws row g) = zip_update f l ws.
Proof.
  induction l as [|x r IH]; intros ws row g Hrow; [reflexivity|].
  destruct ws as [|w ws]; [reflexivity|].
  destruct row as [|row]; cbn in Hrow; [lia|].
  cbn. rewrite IH by lia. reflexivity.
Qed.

(** The outcome of [update_config] on the model depends on the spin boxes
    only through the atoms they are zipped with. *)
Lemma update_config_result_stale ed ed' :
  ed_site ed' = ed_site ed -> ed_ui ed' = ed_ui ed ->
  site_modified_emitted ed' = site_modified_emitted ed ->
  occupancies_written ed' = occupancies_written ed ->
  (forall k, thermal_factors_written k ed' = thermal_factors_written k ed) ->
  zip (occupancies_written ed') (thermal_factor_spinboxes ed') =
    zip (occupancies_written ed) (thermal_factor_spinboxes ed) ->
  fst (update_config_result ed') = fst (update_config_result ed) /\
  model (snd (update_config_result ed')) = model (snd (update_config_result ed)).
Proof.
  intros Hs Hu Hn Ho Ht Hz. unfold update_config_result.
  rewrite Hs, Hu, Hz, Ho.
  destruct (write_coords _ _ _ _) as [c [|]].
  - clear Hz.
    destruct (multiplier_of 1 B_TO_U _) as [e|k];
      [destruct (zip (occupancies_written ed) (thermal_factor_spinboxes ed))
      |rewrite Ht];
      unfold validity_then_emit, model, styled; state_simpl;
      try destruct (valid_result _) as [e'|[|]]; state_simpl;
      now rewrite Hn.
  - unfold model. state_simpl. now rewrite Hn.
Qed.

(** The element at an index after [zip_update]. *)
Lemma nth_error_zip_update {A B} (f : B -> A -> A) (l : list A) :
  forall (ws : list B) i a,
    nth_error (zip_update f l ws) i = Some a ->
    exists x, nth_error l i = Some x /\
              a = match nth_error ws i with Some w => f w x | None => x end.
Proof.
  induction l as [|x r IH]; intros ws i a H.
  - destruct ws, i; discriminate.
  - destruct ws as [|w ws].
    + exists a. split; [exact H|]. now destruct i.
    + destruct i as [|i]; cbn in H |- *.
      * inversion H. now exists x.
      * now apply IH.
Qed.

(** The element at the updated index. *)
Lemma nth_error_list_update {A} (l : list A) : forall i (g : A -> A),
  nth_error (list_update l i g) i = option_map g (nth_error l i).
Proof.
  induction l as [|x r IH]; intros [|i] g; cbn; try reflexivity. apply IH.
Qed.

(** An index within the list has an element. *)
Lemma nth_error_in_range {A} (l : list A) i :
  (i <? List.length l) = true -> exists x, nth_error l i = Some x.
Proof.
  rewrite Nat.ltb_lt. intros H.
  destruct (nth_error l i) eqn:E; [eauto|].
  apply nth_error_None in E. lia.
Qed.

(** What [update_config] has done when it returns. *)
Lemma update_config_returns ed ed' :
  update_config ed = (inr tt, ed') ->
  exists c L valid,
    write_coords (site_fractional_coords (ed_site ed))
      (sb_value (ui_coords_x (ed_ui ed))) (sb_value (ui_coords_y (ed_ui ed)))
      (sb_value (ui_coords_z (ed_ui ed))) = (c, true) /\
    ed_site ed' = mkSite (sb_value (ui_total_occupancy (ed_ui ed))) c L /\
    ui_thermal_factor_type (ed_ui ed') = ui_thermal_factor_type (ed_ui ed) /\
    valid_result (ed_site ed') = inr valid /\
    site_modified_emitted ed' =
      (if valid then S (site_modified_emitted ed) else site_modified_emitted ed) /\
    ((exists k, multiplier_of 1 B_TO_U (ui_thermal_factor_type (ed_ui ed)) = inr k /\
                L = thermal_factors_written k ed) \/
     (zip (occupancies_written ed) (thermal_factor_spinboxes ed) = [] /\
      L = occupancies_written ed)).
Proof.
  rewrite update_config_run. unfold update_config_result.
  destruct (write_coords _ _ _ _) as [c [|]]; [|discriminate].
  destruct (multiplier_of 1 B_TO_U _) as [e|k].
  - destruct (zip (occupancies_written ed) (thermal_factor_spinboxes ed)) eqn:Hz;
      [|discriminate].
    unfold validity_then_emit.
    destruct (valid_result _) as [e'|valid] eqn:Hv; [discriminate|].
    intros H. inversion H; subst ed'; clear H.
    exists c, (occupancies_written ed), valid.
    destruct valid; repeat split; try exact Hv; now right.
  - unfold validity_then_emit.
    destruct (valid_result _) as [e'|valid] eqn:Hv; [discriminate|].
    intros H. inversion H; subst ed'; clear H.
    exists c, (thermal_factors_written k ed), valid.
    destruct valid; repeat split; try exact Hv; left; now exists k.
Qed.

(** An edit acts on its widget and runs the slots of [valueChanged]. *)
Lemma on_user_edit_widget e ed :
  has_widget e ed = true ->
  on_user_edit e ed =
  match e with
  | EditTotalOccupancy _ =>
      (update_config ;; update_occupancy_validity)%py (widget_set e ed)
  | _ => update_config (widget_set e ed)
  end.
Proof.
  destruct e as [v|axis v|row v|row v]; cbn [has_widget on_user_edit widget_set].
  - reflexivity.
  - now intros ->.
  - rewrite bind_gets. now intros ->.
  - rewrite bind_gets. now intros ->.
Qed.

(** Writing the thermal factors keeps the occupancies. *)
Lemma occupancy_kept_by_thermal k (ed : Editor) row a :
  nth_error (thermal_factors_written k ed) row = Some a ->
  exists x, nth_error (occupancies_written ed) row = Some x /\
            atom_occupancy a = atom_occupancy x.
Proof.
  intros H. apply nth_error_zip_update in H. destruct H as (x & Hx & ->).
  exists x. split; [exact Hx|].
  now destruct (nth_error (thermal_factor_spinboxes ed) row).
Qed.

(** A user edit that returns has written its value into the site, and has
    emitted [site_modified] once if the site is valid and not at all if it
    is not. *)
Lemma on_user_edit_returns e ed ed' :
  has_widget e ed = true ->
  on_user_edit e ed = (inr tt, ed') ->
  exists valid,
    valid_result (ed_site ed') = inr valid /\
    site_modified_emitted ed' =
      (if valid then S (site_modified_emitted ed) else site_modified_emitted ed) /\
    edit_written e ed'.
Proof.
  intros Hw. rewrite (on_user_edit_widget _ _ Hw).
  destruct e as [v|axis v|row v|row v].
  - unfold bind.
    destruct (update_config _) as [[e1|[]] ed1] eqn:Hc; [discriminate|].
    rewrite update_occupancy_validity_run.
    destruct (valid_result (ed_site ed1)) as [e2|valid'] eqn:Hv'; [discriminate|].
    intros H. inversion H; subst ed'; clear H.
    apply update_config_returns in Hc.
    destruct Hc as (c & L & valid & _ & Hs & _ & Hv & Hn & _).
    exists valid. repeat split; try assumption.
    cbn [edit_written]. change (ed_site (styled valid' ed1)) with (ed_site ed1).
    now rewrite Hs.
  - intros Hc. apply update_config_returns in Hc.
    destruct Hc as (c & L & valid & Hc & Hs & _ & Hv & Hn & _).
    exists valid. repeat split; try assumption.
    cbn [edit_written]. rewrite Hs. cbn [site_fractional_coords].
    cbn [has_widget] in Hw. apply Nat.ltb_lt in Hw.
    destruct ed as [[t c0 a] [wt wx wy wz ty rc sy hd] o th n].
    cbn in Hc.
    destruct c0 as [|c1 [|c2 [|c3 r]]]; cbn in Hc; try discriminate.
    destruct axis as [|[|[|axis]]]; cbn in Hc |- *; try lia;
      inversion Hc; reflexivity.
  - intros Hc. apply update_config_returns in Hc.
    destruct Hc as (c & L & valid & _ & Hs & _ & Hv & Hn & HL).
    exists valid. repeat split; try assumption.
    cbn [edit_written]. rewrite Hs. cbn [site_atoms]. intros a Ha.
    assert (Hocc : exists x,
      nth_error (occupancies_written
        (widget_set (EditOccupancy row v) ed)) row = Some x /\
      atom_occupancy a = atom_occupancy x).
    { destruct HL as [(k & _ & ->)|[_ ->]].
      - now apply occupancy_kept_by_thermal with (k := k).
      - now exists a. }
    destruct Hocc as (x & Hx & ->).
    unfold occupancies_written in Hx. apply nth_error_zip_update in Hx.
    destruct Hx as (x0 & _ & ->). cbn [widget_set] in *.
    cbn [has_widget] in Hw. destruct (nth_error_in_range _ _ Hw) as [w0 Hw0].
    unfold with_occupancy_spinboxes. cbn [occupancy_spinboxes].
    now rewrite nth_error_list_update, Hw0.
  - intros Hc. apply update_config_returns in Hc.
    destruct Hc as (c & L & valid & _ & Hs & Hty & Hv & Hn & HL).
    exists valid. repeat split; try assumption.
    cbn [edit_written]. rewrite Hs, Hty. cbn [site_atoms]. intros a Ha.
    cbn [has_widget] in Hw. destruct (nth_error_in_range _ _ Hw) as [w0 Hw0].
    destruct HL as [(k & Hk & ->)|[Hz ->]].
    + exists k. split; [exact Hk|].
      unfold thermal_factors_written in Ha. apply nth_error_zip_update in Ha.
      destruct Ha as (x & _ & ->). cbn [widget_set].
      unfold with_thermal_factor_spinboxes. cbn [thermal_factor_spinboxes].
      now rewrite nth_error_list_update, Hw0.
    + exfalso. cbn [widget_set] in Hz, Ha.
      unfold with_thermal_factor_spinboxes in Hz. cbn [thermal_factor_spinboxes] in Hz.
      destruct (occupancies_written _) as [|x l]; [now destruct row|].
      destruct (thermal_factor_spinboxes ed) as [|w ws]; [discriminate|].
      destruct row; discriminate.
Qed.

(** The validator compares the distance with the tolerance. *)
Lemma valid_result_gap s d :
  occupancy_gap s = Some d -> valid_result s = inr (d <? 1e-6)%float.
Proof. unfold valid_result. now intros ->. Qed.

(** A run of edits that each leave the site invalid emits nothing. *)
Lemma leaves_invalid_silent es : forall ed ed',
  leaves_invalid es ed -> run_edits es ed = (inr tt, ed') ->
  site_modified_emitted ed' = site_modified_emitted ed.
Proof.
  induction es as [|e r IH]; intros ed ed' Hes Hrun.
  - now inversion Hrun.
  - destruct Hes as (Hw & ed1 & d & Hr & Hg & Hd & Hes).
    unfold run_edits in Hrun. cbn [for_each] in Hrun.
    rewrite (bind_run _ Hr) in Hrun.
    rewrite (IH _ _ Hes Hrun).
    destruct (on_user_edit_returns _ _ Hw Hr) as (v & Hv & Hn & _).
    rewrite (valid_result_gap _ Hg), (leb_not_ltb Hd) in Hv.
    inversion Hv; subst v. exact Hn.
Qed.

(** * The properties of the editor *)

(** C1, as the code has it.  For every float [x] below [2^1016] in
    magnitude, converting [x] to B under the display type ["U"] and the
    result back to U under ["B"] gives a finite value within the floating
    tolerance of [x], and so does converting to U under ["B"] and back to B
    under ["U"].  Under one and the same display type the conversion to that
    type is the identity. *)
Theorem conversion_round_trip (x : float) (edU edB : Editor) :
  ui_thermal_factor_type (ed_ui edU) = "U"%string ->
  ui_thermal_factor_type (ed_ui edB) = "B"%string ->
  (abs x <? 0x1p1016)%float = true ->
  (exists b u, B x edU = (inr b, edU) /\ U b edB = (inr u, edB) /\
               finite u = true /\ within_tolerance u x) /\
  (exists u b, U x edB = (inr u, edB) /\ B u edU = (inr b, edU) /\
               finite b = true /\ within_tolerance b x) /\
  U x edU = (inr x, edU) /\
  B x edB = (inr x, edB).
Proof.
  intros HU HB Hx.
  destruct (scale_round_trip Hx) as [[Hf1 Ht1] [Hf2 Ht2]].
  repeat split.
  - exists (x * U_TO_B)%float, (x * U_TO_B * B_TO_U)%float.
    rewrite B_run, U_run, HU, HB. now repeat split.
  - exists (x * B_TO_U)%float, (x * B_TO_U * U_TO_B)%float.
    rewrite B_run, U_run, HU, HB. now repeat split.
  - rewrite U_run, HU. cbn. now rewrite mul_1_r.
  - rewrite B_run, HB. cbn. now rewrite mul_1_r.
Qed.

Lemma conversion_round_trip_witness :
  (exists b u, B 0.5%float (iron_editor "U") = (inr b, iron_editor "U") /\
               U b (iron_editor "B") = (inr u, iron_editor "B") /\
               finite u = true /\ within_tolerance u 0.5%float) /\
  U 0.5%float (iron_editor "U") = (inr 0.5%float, iron_editor "U").
Proof.
  destruct (@conversion_round_trip 0.5%float (iron_editor "U") (iron_editor "B"))
    as (H1 & _ & H3 & _); try reflexivity.
  now split.
Defined.

(** C1, as the specification has it, fails.  With the display type ["B"] in
    both calls, [toU(toB(1, "B"), "B")] is [1/(8 pi^2)], about 0.0127, and
    with ["U"] in both, [toB(toU(1, "U"), "U")] is [8 pi^2], about 78.96:
    neither is within the tolerance of 1.  And the finite value [2^1018]
    overflows when it is converted to B. *)
Lemma conversion_same_type_scales :
  ((b <- B 1%float ;; U b)%py (iron_editor "B") =
     (inr 0.012665147955292222%float, iron_editor "B") /\
   ~ within_tolerance 0.012665147955292222%float 1%float) /\
  ((u <- U 1%float ;; B u)%py (iron_editor "U") =
     (inr 78.956835208714864%float, iron_editor "U") /\
   ~ within_tolerance 78.956835208714864%float 1%float) /\
  (finite 0x1p1018%float = true /\
   B 0x1p1018%float (iron_editor "U") = (inr infinity, iron_editor "U")).
Proof.
  repeat split; try reflexivity;
    unfold within_tolerance; intros H; apply Qle_bool_iff in H;
    vm_compute in H; discriminate.
Qed.

(** C2. After any sequence of user edits, a run of edits that each leave
    the occupancy sum at a distance of at least [1e-6] from the total
    occupancy emits no [site_modified], although the value of the last of
    them has been written into the site; a following edit that brings the
    sum back within the tolerance emits the signal exactly once. *)
Theorem site_modified_gated (es0 es : list field_edit) (e1 e2 : field_edit)
    (ed0 ed ed' ed1 ed2 : Editor) (d1 d2 : float) :
  run_edits es0 ed0 = (inr tt, ed) ->
  leaves_invalid es ed -> run_edits es ed = (inr tt, ed') ->
  has_widget e1 ed' = true -> on_user_edit e1 ed' = (inr tt, ed1) ->
  occupancy_gap (ed_site ed1) = Some d1 -> (1e-6 <=? d1)%float = true ->
  has_widget e2 ed1 = true -> on_user_edit e2 ed1 = (inr tt, ed2) ->
  occupancy_gap (ed_site ed2) = Some d2 -> (d2 <? 1e-6)%float = true ->
  site_modified_emitted ed1 = site_modified_emitted ed /\
  edit_written e1 ed1 /\
  site_modified_emitted ed2 = S (site_modified_emitted ed1).
Proof.
  intros _ Hes Hrun Hw1 Hr1 Hg1 Hd1 Hw2 Hr2 Hg2 Hd2.
  destruct (on_user_edit_returns _ _ Hw1 Hr1) as (v1 & Hv1 & Hn1 & Hwritten).
  destruct (on_user_edit_returns _ _ Hw2 Hr2) as (v2 & Hv2 & Hn2 & _).
  rewrite (valid_result_gap _ Hg1) in Hv1. rewrite (valid_result_gap _ Hg2) in Hv2.
  rewrite (leb_not_ltb Hd1) in Hv1. rewrite Hd2 in Hv2.
  inversion Hv1; subst v1. inversion Hv2; subst v2.
  rewrite Hn2, Hn1, (leaves_invalid_silent _ _ Hes Hrun).
  now repeat split.
Qed.

(** On the iron site: moving a coordinate emits the signal; setting the
    occupancy of the atom to 0.25 and then to 0.5 does not, and 0.5 is in
    the site; setting it back to 1 emits the signal once more. *)
Lemma site_modified_gated_witness :
  let ed := snd (run_edits [EditFractionalCoord 0 0.125%float] (iron_editor "U")) in
  let ed' := snd (run_edits [EditOccupancy 0 0.25%float] ed) in
  let ed1 := snd (on_user_edit (EditOccupancy 0 0.5%float) ed') in
  let ed2 := snd (on_user_edit (EditOccupancy 0 1%float) ed1) in
  site_modified_emitted ed1 = site_modified_emitted ed /\
  edit_written (EditOccupancy 0 0.5%float) ed1 /\
  site_modified_emitted ed2 = S (site_modified_emitted ed1).
Proof.
  intros ed ed' ed1 ed2.
  apply (@site_modified_gated [EditFractionalCoord 0 0.125%float]
           [EditOccupancy 0 0.25%float]
           (EditOccupancy 0 0.5%float) (EditOccupancy 0 1%float)
           (iron_editor "U") ed ed' ed1 ed2 0.5%float 0%float);
    try (vm_compute; reflexivity).
  split; [vm_compute; reflexivity|]. exists ed', 0.75%float.
  split; [|split; [|split; [|exact I]]]; vm_compute; reflexivity.
Defined.

(** C3. On a site whose atoms carry the occupancies [occs], the validator
    returns [isValid]: true exactly when the distance of their sum from the
    total occupancy is below [1e-6].  A distance below the tolerance is valid;
    a distance above it, or equal to it, is not.  The validator only reads. *)
Theorem occupancies_valid_iff (ed : Editor) (occs : list float) :
  map atom_occupancy (site_atoms (ed_site ed)) = map Some occs ->
  let total := site_total_occupancy (ed_site ed) in
  let gap := abs (fold_left PrimFloat.add occs 0 - total)%float in
  occupancies_valid ed = (inr (isValid total occs), ed) /\
  (isValid total occs = true <-> (gap <? 1e-6)%float = true) /\
  ((1e-6 <? gap)%float = true -> isValid total occs = false) /\
  (gap = 1e-6%float -> isValid total occs = false).
Proof.
  intros Hoccs total gap.
  rewrite occupancies_valid_run. unfold valid_result, occupancy_gap.
  rewrite (@occupancy_sum_fold _ occs 0%float Hoccs).
  fold total. fold gap. unfold isValid. fold gap.
  repeat split; try tauto.
  - apply ltb_asym.
  - intros ->. apply ltb_irrefl.
Qed.

(** With its one occupancy of 1, the iron site is valid for a total
    occupancy of 1.0000009, just inside the tolerance, and invalid for
    1.0000011, just outside. *)
Lemma occupancies_valid_iff_witness :
  fst (occupancies_valid
         (with_site (set_total_occupancy 1.0000009%float) (iron_editor "U"))) =
  inr true /\
  fst (occupancies_valid
         (with_site (set_total_occupancy 1.0000011%float) (iron_editor "U"))) =
  inr false.
Proof.
  split.
  - rewrite (proj1 (@occupancies_valid_iff
      (with_site (set_total_occupancy 1.0000009%float) (iron_editor "U"))
      [1%float] eq_refl)).
    reflexivity.
  - rewrite (proj1 (@occupancies_valid_iff
      (with_site (set_total_occupancy 1.0000011%float) (iron_editor "U"))
      [1%float] eq_refl)).
    reflexivity.
Defined.

(** C4, as the code has it.  The code has no write by index: an edit of the
    spin box at [row] runs [update_config], which pairs atoms and spin boxes
    with [zip].  For a row at or past the end of the atom list, no
    [IndexError] comes from the row: without a spin box at that row nothing
    runs and the editor is as it was; with a stale one, the edit acts on the
    site and on the signal exactly as [update_config] does without it, the
    edited value reaching no atom. *)
Theorem out_of_range_row_edit (row : nat) (v : float) (e : field_edit)
    (ed : Editor) :
  List.length (site_atoms (ed_site ed)) <= row ->
  e = EditOccupancy row v \/ e = EditThermalFactor row v ->
  (has_widget e ed = false -> on_user_edit e ed = (inr tt, ed)) /\
  (has_widget e ed = true ->
   fst (on_user_edit e ed) = fst (update_config ed) /\
   model (snd (on_user_edit e ed)) = model (snd (update_config ed))).
Proof.
  intros Hrow [-> | ->]; cbn [has_widget on_user_edit]; rewrite bind_gets;
    (split; intros ->; [reflexivity|]);
    rewrite bind_modify, !update_config_run;
    apply update_config_result_stale; try reflexivity.
  - unfold occupancies_written. cbn.
    now apply zip_update_list_update_stale.
  - intros k. unfold thermal_factors_written, occupancies_written. cbn.
    now rewrite zip_update_list_update_stale.
  - unfold occupancies_written. cbn.
    now rewrite zip_update_list_update_stale.
  - intros k. unfold thermal_factors_written. cbn.
    apply zip_update_list_update_stale.
    unfold occupancies_written. now rewrite zip_update_length.
  - cbn. unfold zip. apply combine_list_update_stale.
    unfold occupancies_written. now rewrite zip_update_length.
Qed.

Lemma out_of_range_row_edit_witness :
  on_user_edit (EditOccupancy 5 0.5%float) (iron_editor "U") =
    (inr tt, iron_editor "U") /\
  fst (on_user_edit (EditThermalFactor 0 0.5%float) (stale_editor "B")) =
    fst (update_config (stale_editor "B")).
Proof.
  split.
  - apply (@out_of_range_row_edit 5 0.5%float (EditOccupancy 5 0.5%float)
             (iron_editor "U")); [cbn; lia|now left|reflexivity].
  - apply (@out_of_range_row_edit 0 0.5%float (EditThermalFactor 0 0.5%float)
             (stale_editor "B")); [cbn; lia|now right|reflexivity].
Defined.

(** C4, as the specification has it, fails: an edit of the stale spin box at
    row 0 of a site without atoms, or of a row without a spin box, returns
    instead of failing with an index error. *)
Lemma out_of_range_row_edit_returns :
  fst (on_user_edit (EditOccupancy 0 0.5%float) (stale_editor "U"))
    <> inl IndexError /\
  fst (on_user_edit (EditThermalFactor 0 0.5%float) (stale_editor "U"))
    <> inl IndexError /\
  fst (on_user_edit (EditOccupancy 5 0.5%float) (iron_editor "U"))
    <> inl IndexError.
Proof. repeat split; discriminate. Qed.

(** C5, as the code has it.  On a site with no atoms [reset_occupancies] is
    [update_occupancy_validity] and nothing else: the loop body never runs,
    so the division by [len(atoms)], which would raise [ZeroDivisionError],
    is not performed; the method returns, the site and the count of emitted
    signals are what they were, and no occupancy value is produced. *)
Theorem reset_occupancies_empty (ed : Editor) :
  site_atoms (ed_site ed) = [] ->
  reset_occupancies ed = update_occupancy_validity ed /\
  fst (reset_occupancies ed) = inr tt /\
  model (snd (reset_occupancies ed)) = model ed /\
  (forall x, fst (py_truediv x 0 ed) = inl ZeroDivisionError).
Proof.
  intros Hl.
  assert (Hrun : reset_occupancies ed = update_occupancy_validity ed).
  { rewrite reset_occupancies_run. f_equal.
    destruct ed as [[t c a] u o th n]. cbn in Hl |- *. now subst a. }
  rewrite Hrun, update_occupancy_validity_run.
  unfold valid_result, occupancy_gap. rewrite Hl. cbn [occupancy_sum].
  now repeat split.
Qed.

Lemma reset_occupancies_empty_witness :
  fst (reset_occupancies (stale_editor "U")) = inr tt /\
  model (snd (reset_occupancies (stale_editor "U"))) = model (stale_editor "U").
Proof.
  destruct (@reset_occupancies_empty (stale_editor "U") eq_refl)
    as (_ & Hret & Hmodel & _).
  now split.
Defined.

(** C5, as the specification has it, fails: on the site without atoms
    [reset_occupancies] returns with the atom list still empty, so there is
    no atom whose occupancy is NaN or missing. *)
Lemma reset_occupancies_empty_no_nan :
  let r := reset_occupancies (stale_editor "U") in
  fst r = inr tt /\
  ~ (exists a, In a (site_atoms (ed_site (snd r))) /\
               (atom_occupancy a = Some nan \/ atom_occupancy a = None)).
Proof.
  split; [reflexivity|]. intros (a & Ha & _). exact Ha.
Qed.

(** C6. Setting the atom types to the symbols the site already has, in the
    same order, returns at once: the editor is left exactly as it was, with
    its atoms, their occupancies and [U] values, and no [site_modified] is
    emitted.  The same holds when the list comes from the dialog. *)
Theorem set_atom_types_same DEFAULT_U spin_stored (v : list string) (ed : Editor) :
  v = map atom_symbol (site_atoms (ed_site ed)) ->
  set_atom_types DEFAULT_U spin_stored v ed = (inr tt, ed) /\
  select_atom_types DEFAULT_U spin_stored (Some v) ed = (inr tt, ed).
Proof.
  intros ->. cbn [select_atom_types]. unfold set_atom_types, atom_types.
  rewrite bind_gets.
  destruct (list_eq_dec string_dec _ _) as [_|Hne]; [now split|].
  now contradiction Hne.
Qed.

Lemma set_atom_types_same_witness :
  set_atom_types hexrd_DFLT_U bounded_spin ["Fe"%string] (iron_editor "U") =
  (inr tt, iron_editor "U").
Proof.
  apply (@set_atom_types_same hexrd_DFLT_U bounded_spin ["Fe"%string]
           (iron_editor "U")).
  reflexivity.
Defined.

(** C7. Setting the atom types to a list [v] that differs from the current
    symbols replaces the atoms by one new atom per symbol of [v], in order,
    each with the default [U] and the occupancy [total_occupancy / len(v)];
    under a display type ["U"] or ["B"] the setter returns.  Two symbols on a
    site of total occupancy 1.0 give two atoms of occupancy 0.5. *)
Theorem set_atom_types_replaces DEFAULT_U spin_stored (v : list string) (ed : Editor) :
  v <> map atom_symbol (site_atoms (ed_site ed)) ->
  let total := site_total_occupancy (ed_site ed) in
  let r := set_atom_types DEFAULT_U spin_stored v ed in
  site_atoms (ed_site (snd r)) =
    map (fun x =>
           mkAtom x (Some (total / float_of_int (Z.of_nat (List.length v)))%float)
                  DEFAULT_U) v /\
  (ui_thermal_factor_type (ed_ui ed) = "U"%string \/
   ui_thermal_factor_type (ed_ui ed) = "B"%string -> fst r = inr tt) /\
  (forall x y, v = [x; y] -> total = 1%float ->
   site_atoms (ed_site (snd r)) =
     [mkAtom x (Some 0.5%float) DEFAULT_U; mkAtom y (Some 0.5%float) DEFAULT_U]).
Proof.
  intros Hne total r.
  destruct (@set_atom_types_run DEFAULT_U spin_stored v ed Hne) as (valid & Hv & Hrun).
  cbv zeta in Hv, Hrun. fold total in Hv, Hrun.
  set (q := (total / float_of_int (Z.of_nat (List.length v)))%float) in *.
  set (ed2 := with_site (set_atoms (fun _ =>
                map (fun x => mkAtom x (Some q) DEFAULT_U) v)) ed) in *.
  assert (Hatoms : site_atoms (ed_site (snd r)) =
                   map (fun x => mkAtom x (Some q) DEFAULT_U) v).
  { subst r. rewrite Hrun, keeps_site_table_then_emit. reflexivity. }
  split; [exact Hatoms|split].
  - intros Hty. subst r. rewrite Hrun. unfold bind.
    assert (Hocc : Forall (fun a => atom_occupancy a <> None)
                     (site_atoms (ed_site (styled valid ed2)))).
    { apply Forall_forall. intros a Ha. apply in_map_iff in Ha.
      destruct Ha as (x & <- & _). discriminate. }
    assert (Hk : exists k, multiplier_of 1 U_TO_B
                   (ui_thermal_factor_type (ed_ui (styled valid ed2))) = inr k).
    { change (ui_thermal_factor_type (ed_ui (styled valid ed2)))
        with (ui_thermal_factor_type (ed_ui ed)).
      destruct Hty as [-> | ->]; eexists; reflexivity. }
    destruct Hk as [k Hk].
    pose proof (update_table_returns spin_stored _ Hocc Hk) as Hret.
    pose proof (keeps_site_update_table spin_stored (styled valid ed2)) as Hsite.
    destruct (update_table spin_stored (styled valid ed2)) as [[e|[]] ed3];
      cbn [fst snd] in *; [discriminate|].
    rewrite emit_site_modified_if_valid_run, Hsite.
    change (ed_site (styled valid ed2)) with (ed_site ed2). now rewrite Hv.
  - intros x y -> Htotal. rewrite Hatoms. subst q. rewrite Htotal. reflexivity.
Qed.

Lemma set_atom_types_replaces_witness :
  let r := set_atom_types hexrd_DFLT_U bounded_spin ["Fe"%string; "O"%string]
             (iron_editor "U") in
  site_atoms (ed_site (snd r)) =
    [mkAtom "Fe" (Some 0.5%float) hexrd_DFLT_U;
     mkAtom "O" (Some 0.5%float) hexrd_DFLT_U] /\
  fst r = inr tt.
Proof.
  destruct (@set_atom_types_replaces hexrd_DFLT_U bounded_spin
              ["Fe"%string; "O"%string] (iron_editor "U"))
    as (_ & Hret & Hhalf); [discriminate|].
  split; [now apply Hhalf|apply Hret; now left].
Defined.

(** C8. The value shown for an atom is its stored [U] under the display type
    ["U"] and [U * U_TO_B] under ["B"], where [U_TO_B] is the binary64
    value of [8 * pi ** 2]; showing it leaves the editor, and so the stored
    [U], as it was. *)
Theorem thermal_factor_display (atom : Atom) (ed : Editor) :
  (ui_thermal_factor_type (ed_ui ed) = "U"%string ->
   thermal_factor atom ed = (inr (atom_U atom), ed)) /\
  (ui_thermal_factor_type (ed_ui ed) = "B"%string ->
   thermal_factor atom ed = (inr (atom_U atom * U_TO_B)%float, ed)) /\
  U_TO_B = 78.956835208714864%float.
Proof.
  rewrite thermal_factor_run. repeat split.
  - intros ->. cbn. now rewrite mul_1_r.
  - now intros ->.
Qed.

(** Under ["B"] the iron atom, stored with [U = 6.33e-3], shows
    [B = 0.4997967668711653]. *)
Lemma thermal_factor_display_witness :
  thermal_factor (mkAtom "Fe" (Some 1%float) hexrd_DFLT_U) (iron_editor "B") =
  (inr 0.49979676687116507%float, iron_editor "B").
Proof.
  rewrite (proj1 (proj2 (thermal_factor_display _ (iron_editor "B"))) eq_refl).
  reflexivity.
Defined.

(** C9. Under a display type that is neither ["U"] nor ["B"] the three
    conversions raise [Exception('Unknown type: ...')], and their callers
    let it through: [update_config] raises it once a thermal factor is to be
    written, and [update_table] once a row is to be filled. *)
Theorem unknown_type_raises spin_stored (val : float) (atom : Atom) (ed : Editor) :
  let type := ui_thermal_factor_type (ed_ui ed) in
  let failure := Exception ("Unknown type: " ++ type)%string in
  type <> "U"%string -> type <> "B"%string ->
  U val ed = (inl failure, ed) /\
  B val ed = (inl failure, ed) /\
  thermal_factor atom ed = (inl failure, ed) /\
  (site_atoms (ed_site ed) <> [] -> thermal_factor_spinboxes ed <> [] ->
   3 <= List.length (site_fractional_coords (ed_site ed)) ->
   fst (update_config ed) = inl failure) /\
  (forall a l, site_atoms (ed_site ed) = a :: l -> atom_occupancy a <> None ->
   fst (update_table spin_stored ed) = inl failure).
Proof.
  intros type failure HU HB.
  rewrite U_run, B_run, thermal_factor_run.
  rewrite !(multiplier_of_unknown _ _ HU HB).
  repeat split.
  - intros Ha Hw Hc. rewrite update_config_run. unfold update_config_result.
    pose proof (@write_coords_ok _ (sb_value (ui_coords_x (ed_ui ed)))
      (sb_value (ui_coords_y (ed_ui ed))) (sb_value (ui_coords_z (ed_ui ed))) Hc) as Hok.
    destruct (write_coords _ _ _ _) as [c ok]. cbn [snd] in Hok. subst ok.
    rewrite (multiplier_of_unknown _ _ HU HB).
    pose proof (zip_update_length (fun w => set_occupancy (sb_value w))
      (site_atoms (ed_site ed)) (occupancy_spinboxes ed)) as Hlen.
    fold (occupancies_written ed) in Hlen.
    destruct (occupancies_written ed) as [|a1 l1].
    + destruct (site_atoms (ed_site ed)); [contradiction|discriminate].
    + destruct (thermal_factor_spinboxes ed); [contradiction|reflexivity].
  - intros a l Hl Ha. unfold update_table, atoms, clear_table, setRowCount.
    rewrite bind_gets, Hl. unfold bind at 1. unfold bind at 1. unfold bind at 1.
    cbn [modify]. unfold bind at 1. cbn [modify]. unfold bind at 1.
    cbn [enumerate enumerate_from for_each].
    unfold setItem, getitem_occupancy, create_occupancy_spinbox.
    destruct (atom_occupancy a); [|contradiction].
    unfold bind at 1.
    rewrite getitem_COLUMNS_symbol, bind_ret, bind_modify, bind_ret, bind_modify.
    unfold bind. rewrite thermal_factor_run. proj_simpl.
    now rewrite (multiplier_of_unknown _ _ HU HB).
Qed.

Lemma unknown_type_raises_witness :
  U 1%float (iron_editor "V") =
    (inl (Exception "Unknown type: V"), iron_editor "V") /\
  fst (update_config (iron_editor "V")) = inl (Exception "Unknown type: V") /\
  fst (update_table bounded_spin (iron_editor "V")) =
    inl (Exception "Unknown type: V").
Proof.
  pose proof (@unknown_type_raises bounded_spin 1%float
    (mkAtom "Fe" (Some 1%float) hexrd_DFLT_U) (iron_editor "V")) as H.
  cbv zeta in H.
  destruct H as (HU & _ & _ & Hc & Ht); try discriminate.
  split; [exact HU|split].
  - apply Hc; cbn; try discriminate; lia.
  - eapply Ht; [reflexivity|discriminate].
Defined.

(** C10. Setting the atom types to a list that differs from the current
    symbols writes the atom list only: the total occupancy and the
    fractional coordinates of the site are what they were, also when a later
    step of the setter raises. *)
Theorem set_atom_types_frame DEFAULT_U spin_stored (v : list string) (ed : Editor) :
  v <> map atom_symbol (site_atoms (ed_site ed)) ->
  let ed' := snd (set_atom_types DEFAULT_U spin_stored v ed) in
  site_total_occupancy (ed_site ed') = site_total_occupancy (ed_site ed) /\
  site_fractional_coords (ed_site ed') = site_fractional_coords (ed_site ed).
Proof.
  intros _ ed'.
  pose proof (keeps_set_atom_types DEFAULT_U spin_stored v ed) as H.
  unfold site_frame in H. now inversion H.
Qed.

Lemma set_atom_types_frame_witness :
  let ed' := snd (set_atom_types hexrd_DFLT_U bounded_spin
                    ["Fe"%string; "O"%string] (iron_editor "B")) in
  site_total_occupancy (ed_site ed') = 1%float /\
  site_fractional_coords (ed_site ed') = [0%float; 0.5%float; 0.25%float].
Proof.
  apply (@set_atom_types_frame hexrd_DFLT_U bounded_spin
           ["Fe"%string; "O"%string] (iron_editor "B")).
  discriminate.
Defined.

(** * Further properties of the editor *)

(** ** Loops, binds and lists *)

(** A loop over two lists, one after the other: the second runs unless the
    first raised. *)
Lemma for_each_app {A} (l1 l2 : list A) (body : A -> M unit) : forall ed,
  for_each (l1 ++ l2) body ed =
  match for_each l1 body ed with
  | (inr _, ed1) => for_each l2 body ed1
  | (inl e, ed1) => (inl e, ed1)
  end.
Proof.
  induction l1 as [|x r IH]; intros ed; [reflexivity|].
  cbn [app for_each]. unfold bind.
  destruct (body x ed) as [[e|[]] ed1]; [reflexivity|apply IH].
Qed.

(** A [bind] that returns has run both of its computations. *)
Lemma bind_returns {A B} (m : M A) (k : A -> M B) ed b ed' :
  bind m k ed = (inr b, ed') ->
  exists a ed1, m ed = (inr a, ed1) /\ k a ed1 = (inr b, ed').
Proof.
  unfold bind. destruct (m ed) as [[e|a] ed1]; [discriminate|].
  intros H. now exists a, ed1.
Qed.

(** [enumerate] of two lists, one after the other. *)
Lemma enumerate_from_app {A} (l1 l2 : list A) : forall i,
  enumerate_from i (l1 ++ l2) =
  enumerate_from i l1 ++ enumerate_from (i + List.length l1) l2.
Proof.
  induction l1 as [|x r IH]; intros i; cbn.
  - now rewrite Nat.add_0_r.
  - now rewrite IH, Nat.add_succ_r.
Qed.

(** An update in place keeps the length of the list. *)
Lemma length_list_update {A} (l : list A) : forall i (g : A -> A),
  List.length (list_update l i g) = List.length l.
Proof. induction l as [|x r IH]; intros [|i] g; cbn; auto. Qed.

(** A projection of the list after an update in place that the projection
    sees. *)
Lemma map_list_update {A B} (g : A -> B) (f : A -> A) (f' : B -> B) (l : list A) :
  (forall x, g (f x) = f' (g x)) ->
  forall i, map g (list_update l i f) = list_update (map g l) i f'.
Proof.
  intros H. induction l as [|x r IH]; intros [|i]; cbn; try reflexivity.
  - now rewrite H.
  - now rewrite IH.
Qed.

(** A projection the update does not show in. *)
Lemma map_list_update_same {A B} (g : A -> B) (f : A -> A) (l : list A) :
  (forall x, g (f x) = g x) ->
  forall i, map g (list_update l i f) = map g l.
Proof.
  intros H. induction l as [|x r IH]; intros [|i]; cbn; try reflexivity.
  - now rewrite H.
  - now rewrite IH.
Qed.

(** Past the end of the list there is nothing to update. *)
Lemma list_update_out_of_range {A} (l : list A) : forall i (f : A -> A),
  List.length l <= i -> list_update l i f = l.
Proof.
  induction l as [|x r IH]; intros [|i] f H; cbn in *; try reflexivity; try lia.
  rewrite IH by lia. reflexivity.
Qed.

(** ** Rebuilding the table *)

(** The validator on atoms that carry the occupancies [occs]. *)
Lemma valid_result_isValid s occs :
  map atom_occupancy (site_atoms s) = map Some occs ->
  valid_result s = inr (isValid (site_total_occupancy s) occs).
Proof.
  intros H. unfold valid_result, occupancy_gap.
  now rewrite (@occupancy_sum_fold _ occs 0%float H).
Qed.

(** The loop of [update_table]: on atoms that all carry an occupancy, and
    under a known display type unless there is no atom, it adds a row per
    atom. *)
Lemma table_loop_run spin_stored k : forall l occs i ed,
  map atom_occupancy l = map Some occs ->
  (l <> [] -> multiplier_of 1 U_TO_B (ui_thermal_factor_type (ed_ui ed)) = inr k) ->
  for_each (enumerate_from i l) (fun '(i, atom) =>
    column <- getitem_COLUMNS "symbol" ;;
    setItem i column (atom_symbol atom) ;;
    occ <- getitem_occupancy atom ;;
    create_occupancy_spinbox spin_stored occ ;;
    tf <- thermal_factor atom ;;
    create_thermal_factor_spinbox spin_stored tf) ed =
  (inr tt, rows_added spin_stored k i l occs ed).
Proof.
  induction l as [|x r IH]; intros [|o occs] i ed Hoccs Hk; try discriminate.
  - destruct ed as [s [wt wx wy wz ty rc sy hd] o th n].
    cbn. unfold rows_added, symbol_items. cbn. now rewrite !app_nil_r.
  - cbn in Hoccs. inversion Hoccs as [[Hx Hr]].
    specialize (Hk ltac:(discriminate)).
    cbn [enumerate_from for_each]. unfold bind at 1.
    rewrite getitem_COLUMNS_symbol, bind_ret.
    unfold setItem, getitem_occupancy, create_occupancy_spinbox,
      create_thermal_factor_spinbox.
    rewrite Hx, bind_modify, bind_ret, bind_modify. unfold bind at 1.
    rewrite thermal_factor_run. proj_simpl. rewrite Hk. cbn [modify].
    rewrite (IH occs (S i)); [|exact Hr|intros _; exact Hk].
    f_equal. destruct ed as [s [wt wx wy wz ty rc sy hd] ob th n].
    unfold rows_added, symbol_items. state_simpl.
    cbn [enumerate_from map]. now rewrite <- !app_assoc.
Qed.

(** [update_table] in closed form. *)
Lemma update_table_run spin_stored k occs ed :
  map atom_occupancy (site_atoms (ed_site ed)) = map Some occs ->
  (site_atoms (ed_site ed) <> [] ->
   multiplier_of 1 U_TO_B (ui_thermal_factor_type (ed_ui ed)) = inr k) ->
  update_table spin_stored ed =
  (inr tt, styled (isValid (site_total_occupancy (ed_site ed)) occs)
                  (table_of spin_stored k occs ed)).
Proof.
  intros Hoccs Hk.
  unfold update_table, atoms, clear_table, setRowCount, enumerate.
  rewrite bind_gets. unfold bind at 1. unfold bind at 1. unfold bind at 1.
  cbn [modify]. unfold bind at 1. cbn [modify]. unfold bind at 1.
  rewrite (@table_loop_run spin_stored k _ occs); [|exact Hoccs|exact Hk].
  rewrite update_occupancy_validity_run.
  match goal with |- context [valid_result ?s] => change s with (ed_site ed) end.
  rewrite (@valid_result_isValid _ _ Hoccs). reflexivity.
Qed.

(** The labels of two runs of rows. *)
Lemma symbol_items_app i l1 l2 :
  symbol_items i (l1 ++ l2) =
  symbol_items i l1 ++ symbol_items (i + List.length l1) l2.
Proof. unfold symbol_items. now rewrite enumerate_from_app, map_app. Qed.

(** Showing the validity changes no value. *)
Lemma styled_values valid (ed : Editor) :
  map sb_value (occupancy_spinboxes (styled valid ed)) =
  map sb_value (occupancy_spinboxes ed).
Proof. unfold styled. cbn. rewrite map_map. now apply map_ext. Qed.

(** New spin boxes have the range they were made with, and keep it when
    the validity is shown. *)
Lemma ranged_new_spinboxes {A} spin_stored lo hi (f : A -> float) (l : list A) :
  ranged lo hi (map (fun x => new_spinbox spin_stored lo hi (f x)) l).
Proof. apply Forall_forall. intros w Hw. apply in_map_iff in Hw.
  destruct Hw as (x & <- & _). split; reflexivity.
Qed.

(** The range survives the restyling. *)
Lemma ranged_styled valid lo hi (ed : Editor) :
  ranged lo hi (occupancy_spinboxes ed) ->
  ranged lo hi (occupancy_spinboxes (styled valid ed)).
Proof.
  unfold ranged, styled. cbn. rewrite !Forall_forall. intros H w Hw.
  apply in_map_iff in Hw. destruct Hw as (x & <- & Hx). exact (H x Hx).
Qed.

(** Under an unknown display type the first row cannot be filled. *)
Lemma update_table_unknown_type spin_stored ed a l :
  let type := ui_thermal_factor_type (ed_ui ed) in
  type <> "U"%string -> type <> "B"%string ->
  site_atoms (ed_site ed) = a :: l -> atom_occupancy a <> None ->
  fst (update_table spin_stored ed) = inl (Exception ("Unknown type: " ++ type)).
Proof.
  intros type HU HB Hl Ha. unfold update_table, atoms, clear_table, setRowCount.
  rewrite bind_gets, Hl. unfold bind at 1. unfold bind at 1. unfold bind at 1.
  cbn [modify]. unfold bind at 1. cbn [modify]. unfold bind at 1.
  cbn [enumerate enumerate_from for_each].
  unfold setItem, getitem_occupancy, create_occupancy_spinbox.
  destruct (atom_occupancy a); [|contradiction].
  unfold bind at 1.
  rewrite getitem_COLUMNS_symbol, bind_ret, bind_modify, bind_ret, bind_modify.
  unfold bind. rewrite thermal_factor_run. proj_simpl.
  now rewrite (multiplier_of_unknown _ _ HU HB).
Qed.

(** ** The table mirrors the site *)

(** X1. On a site whose atoms all carry an occupancy, under the display
    type ["U"] or ["B"] (any type when there is no atom), [update_table]
    returns with a table that mirrors the atoms, whatever it held before:
    one row, one symbol label in column 0 and one spin box of each kind per
    atom, in the order of the atoms; the occupancy spin boxes are given the
    occupancies and the range 0 to 1000, the thermal factor spin boxes the
    stored [U] times the multiplier of the display type and the range
    [-1e7] to [1e7]. *)
Theorem update_table_mirrors_site spin_stored (k : float) (occs : list float)
    (ed : Editor) :
  let l := site_atoms (ed_site ed) in
  map atom_occupancy l = map Some occs ->
  (l <> [] -> multiplier_of 1 U_TO_B (ui_thermal_factor_type (ed_ui ed)) = inr k) ->
  exists ed',
    update_table spin_stored ed = (inr tt, ed') /\
    ui_table_rowCount (ed_ui ed') = List.length l /\
    ui_table_symbols (ed_ui ed') = symbol_items 0 l /\
    map sb_value (occupancy_spinboxes ed') =
      map (spin_stored OCCUPATION_MIN OCCUPATION_MAX) occs /\
    map sb_value (thermal_factor_spinboxes ed') =
      map (fun a => spin_stored THERMAL_FACTOR_MIN THERMAL_FACTOR_MAX
                      (atom_U a * k)%float) l /\
    ranged OCCUPATION_MIN OCCUPATION_MAX (occupancy_spinboxes ed') /\
    ranged THERMAL_FACTOR_MIN THERMAL_FACTOR_MAX (thermal_factor_spinboxes ed').
Proof.
  intros l Hoccs Hk. eexists.
  split; [apply update_table_run with (k := k); [exact Hoccs|exact Hk]|].
  fold l. repeat split.
  - rewrite styled_values. unfold table_of, rows_added. cbn.
    rewrite map_map. now apply map_ext.
  - unfold styled, table_of, rows_added. cbn. rewrite map_map. now apply map_ext.
  - apply ranged_styled. unfold table_of, rows_added. cbn.
    apply (ranged_new_spinboxes spin_stored _ _ (fun o => o)).
  - unfold styled, table_of, rows_added. cbn.
    apply (ranged_new_spinboxes spin_stored _ _ (fun a => (atom_U a * k)%float)).
Qed.

(** Under ["B"] the table of the iron site has one row, whose thermal
    factor spin box holds 0.4997967668711651. *)
Lemma update_table_mirrors_site_witness :
  exists ed',
    update_table bounded_spin (iron_editor "B") = (inr tt, ed') /\
    ui_table_rowCount (ed_ui ed') = 1 /\
    map sb_value (thermal_factor_spinboxes ed') = [0.49979676687116507%float].
Proof.
  destruct (@update_table_mirrors_site bounded_spin U_TO_B [1%float] (iron_editor "B"))
    as (ed' & Hrun & Hrows & _ & _ & Hth & _); [reflexivity|reflexivity|].
  exists ed'. split; [exact Hrun|split; [exact Hrows|]].
  rewrite Hth. vm_compute. reflexivity.
Defined.

(** X2. When the atom after the atoms [pre] has no ['occupancy'] key,
    [update_table] raises [KeyError('occupancy')] and leaves the table half
    built: the row count is that of all the atoms, the labels stop at the
    offending atom, and there are spin boxes for the atoms of [pre] only.
    The site and the count of signals are untouched. *)
Theorem update_table_missing_occupancy spin_stored (k : float)
    (pre rest : list Atom) (a : Atom) (occs : list float) (ed : Editor) :
  site_atoms (ed_site ed) = pre ++ a :: rest ->
  map atom_occupancy pre = map Some occs ->
  atom_occupancy a = None ->
  (pre <> [] -> multiplier_of 1 U_TO_B (ui_thermal_factor_type (ed_ui ed)) = inr k) ->
  let r := update_table spin_stored ed in
  fst r = inl (KeyError "occupancy") /\
  model (snd r) = model ed /\
  ui_table_rowCount (ed_ui (snd r)) = List.length (pre ++ a :: rest) /\
  ui_table_symbols (ed_ui (snd r)) = symbol_items 0 (pre ++ [a]) /\
  List.length (occupancy_spinboxes (snd r)) = List.length pre /\
  List.length (thermal_factor_spinboxes (snd r)) = List.length pre.
Proof.
  intros Hl Hoccs Ha Hk r.
  assert (Hrun : r =
    (inl (KeyError "occupancy"),
     snd (setItem (List.length pre) 0 (atom_symbol a)
       (rows_added spin_stored k 0 pre occs
          (table_cleared (List.length (pre ++ a :: rest)) ed))))).
  { subst r. unfold update_table, atoms, clear_table, setRowCount, enumerate.
    rewrite bind_gets. unfold bind at 1. unfold bind at 1. unfold bind at 1.
    cbn [modify]. unfold bind at 1. cbn [modify]. unfold bind at 1.
    rewrite Hl, enumerate_from_app, for_each_app.
    rewrite (@table_loop_run spin_stored k _ occs); [|exact Hoccs|exact Hk].
    cbn [enumerate_from for_each Nat.add]. unfold bind at 1. unfold bind at 1.
    rewrite getitem_COLUMNS_symbol. cbn [ret]. unfold bind at 1.
    unfold setItem at 1. cbn [modify]. unfold bind at 1.
    unfold getitem_occupancy. rewrite Ha. reflexivity. }
  rewrite Hrun. cbn [fst snd].
  split; [reflexivity|]. split; [reflexivity|]. split; [reflexivity|].
  split; [|split].
  - rewrite symbol_items_app. reflexivity.
  - cbn. now rewrite length_map, <- (length_map atom_occupancy), Hoccs, length_map.
  - cbn. now rewrite length_map.
Qed.

(** An oxygen atom without occupancy after the iron atom: two rows, one
    occupancy spin box. *)
Lemma update_table_missing_occupancy_witness :
  let ed := with_site (set_atoms (fun l => l ++ [mkAtom "O" None hexrd_DFLT_U]))
              (iron_editor "U") in
  let r := update_table bounded_spin ed in
  fst r = inl (KeyError "occupancy") /\
  ui_table_rowCount (ed_ui (snd r)) = 2 /\
  List.length (occupancy_spinboxes (snd r)) = 1.
Proof.
  intros ed r.
  destruct (@update_table_missing_occupancy bounded_spin 1%float
              [mkAtom "Fe" (Some 1%float) hexrd_DFLT_U] []
              (mkAtom "O" None hexrd_DFLT_U) [1%float] ed)
    as (Hr & _ & Hrows & _ & Hocc & _); try reflexivity.
  split; [exact Hr|split; [exact Hrows|exact Hocc]].
Defined.

(** ** Showing the site in the widgets *)

(** [update_gui] in closed form: the total occupancy, the three coordinates
    ([IndexError] when the site has fewer), then the table. *)
Lemma update_gui_run spin_stored ed :
  update_gui spin_stored ed =
  let '(ed1, ok) := coords_shown spin_stored (total_shown spin_stored ed) in
  if ok then update_table spin_stored ed1 else (inl IndexError, ed1).
Proof.
  destruct ed as [[t c a] [wt wx wy wz ty rc sy hd] o th n].
  destruct c as [|c0 [|c1 [|c2 r]]]; reflexivity.
Qed.

(** The occupancies of atoms that all carry one, each stored unchanged by an
    occupancy spin box. *)
Lemma occupancies_stored spin_stored (Q : Atom -> Prop) (l : list Atom) :
  Forall (fun a =>
    (exists o, atom_occupancy a = Some o /\
               spin_stored OCCUPATION_MIN OCCUPATION_MAX o = o) /\ Q a) l ->
  exists occs,
    map atom_occupancy l = map Some occs /\
    map (spin_stored OCCUPATION_MIN OCCUPATION_MAX) occs = occs.
Proof.
  induction 1 as [|a l [(o & Ho & Hs) _] _ (occs & Hm & He)].
  - now exists [].
  - exists (o :: occs). cbn. now rewrite Ho, Hm, Hs, He.
Qed.

(** X3. When the spin boxes store the values of the site unchanged, and under
    the display type ["U"] or ["B"], [update_gui] returns with every widget
    holding the value of its field: the total occupancy, the first three
    fractional coordinates, and per atom the occupancy and the stored [U]
    times the multiplier of the display type.  The site, the count of
    signals and the display type are as before. *)
Theorem update_gui_shows_site spin_stored (k : float) (ed : Editor) :
  multiplier_of 1 U_TO_B (ui_thermal_factor_type (ed_ui ed)) = inr k ->
  stored_exactly spin_stored k ed ->
  exists ed',
    update_gui spin_stored ed = (inr tt, ed') /\
    model ed' = model ed /\
    ui_thermal_factor_type (ed_ui ed') = ui_thermal_factor_type (ed_ui ed) /\
    widgets_show k ed'.
Proof.
  intros Hk (Ht & (x & y & z & r & Hc & Hx & Hy & Hz) & Hatoms).
  destruct (@occupancies_stored spin_stored _ _ Hatoms) as (occs & Hoccs & Hocc).
  rewrite update_gui_run. unfold coords_shown.
  change (site_fractional_coords (ed_site (total_shown spin_stored ed)))
    with (site_fractional_coords (ed_site ed)).
  rewrite Hc.
  eexists. split; [apply update_table_run with (k := k) (occs := occs);
                   [exact Hoccs|intros _; exact Hk]|].
  split; [reflexivity|]. split; [reflexivity|].
  destruct ed as [[t c a] [wt wx wy wz ty rc sy hd] o th n].
  cbn in Ht, Hc, Hx, Hy, Hz, Hoccs, Hatoms. subst c.
  unfold widgets_show. cbn.
  rewrite Ht, Hx, Hy, Hz. repeat split.
  - rewrite !map_map. cbn. rewrite Hoccs, <- Hocc at 1. now rewrite map_map.
  - rewrite map_map. cbn. apply map_ext_in. intros b Hb.
    rewrite Forall_forall in Hatoms. now destruct (Hatoms b Hb) as [_ ->].
Qed.

(** The iron site in bounded spin boxes, under ["B"]. *)
Lemma update_gui_shows_site_witness :
  exists ed',
    update_gui bounded_spin (iron_editor "B") = (inr tt, ed') /\
    widgets_show U_TO_B ed'.
Proof.
  destruct (@update_gui_shows_site bounded_spin U_TO_B (iron_editor "B"))
    as (ed' & Hrun & _ & _ & Hshow).
  - reflexivity.
  - split; [reflexivity|split].
    + exists 0%float, 0.5%float, 0.25%float, [].
      split; [reflexivity|]. split; [vm_compute; reflexivity|].
      split; vm_compute; reflexivity.
    + constructor; [|constructor]. split.
      * exists 1%float. split; [reflexivity|]. vm_compute. reflexivity.
      * vm_compute. reflexivity.
  - exists ed'. split; assumption.
Defined.

(** X4. Giving the editor a site with fewer than three fractional
    coordinates raises [IndexError] from [update_gui], after the editor has
    taken the site and set the total occupancy widget and before the table
    is rebuilt: the editor holds the new site and still shows the rows and
    the spin boxes of the old one.  No signal is emitted.  Constructing an
    editor on such a site fails in the same way. *)
Theorem set_site_short_coords spin_stored (v : Site) (ed : Editor) :
  List.length (site_fractional_coords v) < 3 ->
  let r := set_site spin_stored v ed in
  let wt := ui_total_occupancy (ed_ui ed) in
  fst r = inl IndexError /\
  ed_site (snd r) = v /\
  site_modified_emitted (snd r) = site_modified_emitted ed /\
  occupancy_spinboxes (snd r) = occupancy_spinboxes ed /\
  thermal_factor_spinboxes (snd r) = thermal_factor_spinboxes ed /\
  ui_table_rowCount (ed_ui (snd r)) = ui_table_rowCount (ed_ui ed) /\
  ui_table_symbols (ed_ui (snd r)) = ui_table_symbols (ed_ui ed) /\
  sb_value (ui_total_occupancy (ed_ui (snd r))) =
    spin_stored (sb_minimum wt) (sb_maximum wt) (site_total_occupancy v) /\
  fst (__init__ spin_stored v (ed_ui ed)) = inl IndexError.
Proof.
  intros Hc r wt. subst r wt. unfold set_site, __init__.
  rewrite bind_modify, !update_gui_run.
  destruct ed as [[t c a] [wt wx wy wz ty rc sy hd] o th n].
  destruct v as [t' c' a'].
  destruct c' as [|c0 [|c1 [|c2 r]]]; cbn in Hc; try lia;
    cbn; repeat split.
Qed.

(** A site with two coordinates and no atom given to the iron editor: the
    spin box of the iron atom is still there. *)
Lemma set_site_short_coords_witness :
  let v := mkSite 1%float [0%float; 0.5%float] [] in
  let r := set_site bounded_spin v (iron_editor "U") in
  fst r = inl IndexError /\ ed_site (snd r) = v /\
  List.length (occupancy_spinboxes (snd r)) = 1.
Proof.
  intros v r.
  destruct (@set_site_short_coords bounded_spin v (iron_editor "U"))
    as (Hr & Hs & _ & Ho & _); [cbn; lia|].
  split; [exact Hr|split; [exact Hs|]]. subst r. now rewrite Ho.
Defined.

(** ** What a refresh of the widgets leaves alone *)

(** [update_gui] writes widgets only. *)
Lemma keeps_model_update_gui spin_stored : keeps model (update_gui spin_stored).
Proof.
  intros ed. rewrite update_gui_run.
  assert (H : model (fst (coords_shown spin_stored (total_shown spin_stored ed))) =
              model ed).
  { unfold coords_shown.
    change (site_fractional_coords (ed_site (total_shown spin_stored ed)))
      with (site_fractional_coords (ed_site ed)).
    now destruct (site_fractional_coords (ed_site ed)) as [|c0 [|c1 [|c2 r]]]. }
  destruct (coords_shown spin_stored (total_shown spin_stored ed)) as [ed1 [|]];
    cbn [fst snd] in *; [|exact H].
  now rewrite keeps_update_table.
Qed.

(** X5. Refreshing the display never touches the data: [update_gui],
    [update_table], [update_occupancy_validity] and a change of the display
    type leave the site and the count of [site_modified] signals as they
    were, whether they return or raise.  The [site] setter leaves the editor
    with exactly the site it was given, and a new editor with the site it
    was constructed on and no signal emitted. *)
Theorem display_keeps_model spin_stored (type : string) (v : Site) (ui : Ui)
    (ed : Editor) :
  model (snd (update_gui spin_stored ed)) = model ed /\
  model (snd (update_table spin_stored ed)) = model ed /\
  model (snd (on_thermal_factor_type_changed spin_stored type ed)) = model ed /\
  model (snd (update_occupancy_validity ed)) = model ed /\
  model (snd (set_site spin_stored v ed)) = (v, site_modified_emitted ed) /\
  model (snd (__init__ spin_stored v ui)) = (v, 0).
Proof.
  repeat split.
  - apply keeps_model_update_gui.
  - apply keeps_update_table.
  - unfold on_thermal_factor_type_changed, update_thermal_factor_header,
      thermal_factor_type.
    rewrite bind_modify. unfold bind at 1. rewrite bind_gets. cbn [modify].
    now rewrite keeps_model_update_gui.
  - now apply keeps_update_occupancy_validity.
  - unfold set_site. rewrite bind_modify. now rewrite keeps_model_update_gui.
  - unfold __init__. now rewrite keeps_model_update_gui.
Qed.

(** [update_gui] keeps the range of the total occupancy widget and
    everything but the values of the coordinate widgets. *)
Lemma keeps_persistent_update_gui spin_stored :
  keeps persistent (update_gui spin_stored).
Proof.
  intros ed. rewrite update_gui_run.
  assert (H : persistent (fst (coords_shown spin_stored (total_shown spin_stored ed))) =
              persistent ed).
  { unfold coords_shown.
    change (site_fractional_coords (ed_site (total_shown spin_stored ed)))
      with (site_fractional_coords (ed_site ed)).
    now destruct (site_fractional_coords (ed_site ed)) as [|c0 [|c1 [|c2 r]]]. }
  destruct (coords_shown spin_stored (total_shown spin_stored ed)) as [ed1 [|]];
    cbn [fst snd] in *; [|exact H].
  rewrite <- H.
  generalize ed1. change (keeps persistent (update_table spin_stored)).
  unfold update_table, clear_table, setRowCount, setItem,
    create_occupancy_spinbox, create_thermal_factor_spinbox, atoms.
  keeps_tac.
Qed.

(** So does a change of the display type. *)
Lemma keeps_persistent_type_changed spin_stored type :
  keeps persistent (on_thermal_factor_type_changed spin_stored type).
Proof.
  intros ed.
  unfold on_thermal_factor_type_changed, update_thermal_factor_header,
    thermal_factor_type.
  rewrite bind_modify. unfold bind at 1. rewrite bind_gets. cbn [modify].
  now rewrite keeps_persistent_update_gui.
Qed.

(** A change of the display type in closed form, on a site that can be
    shown. *)
Lemma type_changed_run spin_stored type k occs ed :
  map atom_occupancy (site_atoms (ed_site ed)) = map Some occs ->
  (site_atoms (ed_site ed) <> [] -> multiplier_of 1 U_TO_B type = inr k) ->
  3 <= List.length (site_fractional_coords (ed_site ed)) ->
  on_thermal_factor_type_changed spin_stored type ed =
  (inr tt,
   styled (isValid (site_total_occupancy (ed_site ed)) occs)
     (table_of spin_stored k occs
        (fst (coords_shown spin_stored (total_shown spin_stored
           (with_ui (fun u =>
              mkUi (ui_total_occupancy u) (ui_coords_x u) (ui_coords_y u)
                   (ui_coords_z u) type (ui_table_rowCount u)
                   (ui_table_symbols u) type) ed)))))).
Proof.
  intros Hoccs Hk Hc.
  unfold on_thermal_factor_type_changed, update_thermal_factor_header,
    thermal_factor_type.
  rewrite bind_modify. unfold bind at 1. rewrite bind_gets. cbn [modify].
  rewrite update_gui_run.
  destruct ed as [[t c a] [wt wx wy wz ty rc sy hd] o th n].
  cbn in Hoccs, Hk, Hc.
  destruct c as [|c0 [|c1 [|c2 r]]]; cbn in Hc; try lia.
  cbn [coords_shown total_shown with_ui ed_ui ed_site site_fractional_coords
       fst snd].
  now rewrite (@update_table_run spin_stored k occs).
Qed.

(** X6. On a site that can be shown (an occupancy on every atom, three
    coordinates or more), changing the display type to any [t1] and then to
    [t2], which is ["U"] or ["B"] unless the site has no atom, leaves the
    editor exactly as changing it to [t2] at once: the widgets keep nothing
    of the type the display went through, also when the first change
    raised. *)
Theorem display_type_toggle spin_stored (t1 t2 : string) (k : float)
    (occs : list float) (ed : Editor) :
  map atom_occupancy (site_atoms (ed_site ed)) = map Some occs ->
  (site_atoms (ed_site ed) <> [] -> multiplier_of 1 U_TO_B t2 = inr k) ->
  3 <= List.length (site_fractional_coords (ed_site ed)) ->
  on_thermal_factor_type_changed spin_stored t2
    (snd (on_thermal_factor_type_changed spin_stored t1 ed)) =
  on_thermal_factor_type_changed spin_stored t2 ed.
Proof.
  intros Hoccs Hk Hc.
  pose proof (keeps_persistent_type_changed spin_stored t1 ed) as Hp.
  set (ed1 := snd (on_thermal_factor_type_changed spin_stored t1 ed)) in *.
  assert (Hs : ed_site ed1 = ed_site ed) by (unfold persistent in Hp; congruence).
  rewrite (@type_changed_run spin_stored t2 k occs ed Hoccs Hk Hc).
  rewrite (@type_changed_run spin_stored t2 k occs ed1);
    [|now rewrite Hs|now rewrite Hs|now rewrite Hs].
  destruct ed as [[t c a] [wt wx wy wz ty rc sy hd] o th n].
  destruct ed1 as [[t' c' a'] [wt' wx' wy' wz' ty' rc' sy' hd'] o' th' n'].
  unfold persistent, unvalued in Hp. cbn in Hp, Hs, Hc.
  inversion Hp; subst. clear Hp.
  destruct c as [|c0 [|c1 [|c2 r]]]; cbn in Hc; try lia.
  destruct wt, wt', wx, wx', wy, wy', wz, wz'. cbn in *. subst.
  reflexivity.
Qed.

(** From ["U"] to ["B"] and back on the iron editor. *)
Lemma display_type_toggle_witness :
  on_thermal_factor_type_changed bounded_spin "U"
    (snd (on_thermal_factor_type_changed bounded_spin "B" (iron_editor "U"))) =
  on_thermal_factor_type_changed bounded_spin "U" (iron_editor "U").
Proof.
  apply (@display_type_toggle bounded_spin "B" "U" 1%float [1%float]
           (iron_editor "U")); [reflexivity|intros _; reflexivity|cbn; lia].
Defined.

(** ** When the write-back fails *)

(** X7. On a site with fewer than three fractional coordinates
    [update_config] raises [IndexError] at the first widget without a
    coordinate, and what it wrote before stays written: the total occupancy
    of the site is the value of its widget and the coordinates that exist
    are those of their widgets.  The atoms, the widgets and the count of
    signals are untouched. *)
Theorem update_config_short_coords (ed : Editor) :
  let c := site_fractional_coords (ed_site ed) in
  let u := ed_ui ed in
  List.length c < 3 ->
  update_config ed =
  (inl IndexError,
   with_site (fun s =>
     mkSite (sb_value (ui_total_occupancy u))
            (firstn (List.length c)
               [sb_value (ui_coords_x u); sb_value (ui_coords_y u);
                sb_value (ui_coords_z u)])
            (site_atoms s)) ed).
Proof.
  intros c u Hc. subst c u. rewrite update_config_run. unfold update_config_result.
  destruct ed as [[t c a] [wt wx wy wz ty rc sy hd] o th n].
  cbn in Hc |- *.
  destruct c as [|c0 [|c1 [|c2 r]]]; cbn in Hc |- *; try lia; reflexivity.
Qed.

(** Two coordinates, the first widget moved to 0.125: [IndexError], and
    0.125 is in the site. *)
Lemma update_config_short_coords_witness :
  let ed := with_site (set_fractional_coords [0.75%float; 0.75%float])
              (with_ui (update_coords_widget 0 (set_value 0.125%float))
                 (iron_editor "U")) in
  fst (update_config ed) = inl IndexError /\
  site_fractional_coords (ed_site (snd (update_config ed))) =
    [0.125%float; 0.5%float].
Proof.
  intros ed.
  rewrite (@update_config_short_coords ed); [|cbn; lia].
  split; reflexivity.
Defined.

(** Writing the occupancies leaves every [U] alone. *)
Lemma U_kept_by_occupancies ed :
  map atom_U (occupancies_written ed) = map atom_U (site_atoms (ed_site ed)).
Proof.
  unfold occupancies_written. generalize (occupancy_spinboxes ed).
  induction (site_atoms (ed_site ed)) as [|x l IH]; intros [|w ws];
    cbn [zip_update map]; try reflexivity.
  rewrite IH. reflexivity.
Qed.

(** X8. Under a display type that is neither ["U"] nor ["B"], on a site
    with three coordinates or more: when there is an atom and a thermal
    factor spin box, [update_config] raises at the first thermal factor,
    after it has written the total occupancy, the three coordinates and the
    occupancies into the site; every [U] is as before, the validity display
    is not refreshed and no signal is emitted.  Without an atom, or without
    a thermal factor spin box, the unknown type goes unnoticed: the method
    goes on to the validity and the signal as under a known type. *)
Theorem update_config_unknown_type (ed : Editor) :
  let type := ui_thermal_factor_type (ed_ui ed) in
  let u := ed_ui ed in
  type <> "U"%string -> type <> "B"%string ->
  3 <= List.length (site_fractional_coords (ed_site ed)) ->
  let written :=
    with_site (fun s =>
      mkSite (sb_value (ui_total_occupancy u))
             (sb_value (ui_coords_x u) :: sb_value (ui_coords_y u) ::
              sb_value (ui_coords_z u) :: skipn 3 (site_fractional_coords s))
             (occupancies_written ed)) ed in
  (site_atoms (ed_site ed) <> [] -> thermal_factor_spinboxes ed <> [] ->
   update_config ed = (inl (Exception ("Unknown type: " ++ type)), written)) /\
  (site_atoms (ed_site ed) = [] \/ thermal_factor_spinboxes ed = [] ->
   update_config ed = validity_then_emit written) /\
  map atom_U (occupancies_written ed) = map atom_U (site_atoms (ed_site ed)).
Proof.
  intros type u HU HB Hc written. subst type u written.
  rewrite update_config_run. unfold update_config_result.
  rewrite (multiplier_of_unknown _ _ HU HB).
  pose proof (zip_update_length (fun w => set_occupancy (sb_value w))
    (site_atoms (ed_site ed)) (occupancy_spinboxes ed)) as Hlen.
  fold (occupancies_written ed) in Hlen.
  assert (HUs : map atom_U (occupancies_written ed) =
                map atom_U (site_atoms (ed_site ed))).
  { apply U_kept_by_occupancies. }
  split; [|split; [|exact HUs]]; clear HUs;
    set (ow := occupancies_written ed) in *; unfold with_site; cbn beta;
    destruct (site_fractional_coords (ed_site ed)) as [|c0 [|c1 [|c2 r]]];
    cbn in Hc; try lia; cbn [write_coords skipn].
  - intros Ha Hth. destruct ow as [|a1 l1].
    + destruct (site_atoms (ed_site ed)); [contradiction|discriminate].
    + destruct (thermal_factor_spinboxes ed); [contradiction|reflexivity].
  - intros [Ha|Hth].
    + rewrite Ha in Hlen. now destruct ow.
    + rewrite Hth. now destruct ow.
Qed.

(** The iron editor under ["V"], its occupancy spin box at 0.5: the
    exception, and 0.5 is in the site. *)
Lemma update_config_unknown_type_witness :
  let r := update_config (with_occupancy_spinboxes
             (fun _ => [spin 0.5%float]) (iron_editor "V")) in
  fst r = inl (Exception "Unknown type: V") /\
  site_atoms (ed_site (snd r)) = [mkAtom "Fe" (Some 0.5%float) hexrd_DFLT_U].
Proof.
  intros r.
  destruct (@update_config_unknown_type (with_occupancy_spinboxes
             (fun _ => [spin 0.5%float]) (iron_editor "V")))
    as (Hraise & _ & _); try discriminate; [cbn; lia|].
  subst r. rewrite Hraise; try discriminate. split; reflexivity.
Defined.

(** ** Counting the signals *)

(** The last two calls of [update_config] emit at most once, and not when
    they raise. *)
Lemma validity_then_emit_count ed :
  let r := validity_then_emit ed in
  (fst r <> inr tt -> site_modified_emitted (snd r) = site_modified_emitted ed) /\
  (site_modified_emitted (snd r) = site_modified_emitted ed \/
   site_modified_emitted (snd r) = S (site_modified_emitted ed)).
Proof.
  unfold validity_then_emit.
  destruct (valid_result (ed_site ed)) as [e|[|]]; cbn; split; auto; congruence.
Qed.

(** So does [update_config]. *)
Lemma update_config_count ed :
  let r := update_config ed in
  (fst r <> inr tt -> site_modified_emitted (snd r) = site_modified_emitted ed) /\
  (site_modified_emitted (snd r) = site_modified_emitted ed \/
   site_modified_emitted (snd r) = S (site_modified_emitted ed)).
Proof.
  cbv zeta. rewrite update_config_run. unfold update_config_result.
  destruct (write_coords _ _ _ _) as [c [|]]; [|cbn; auto].
  destruct (multiplier_of 1 B_TO_U _) as [e|k];
    [destruct (zip _ _); [|cbn; auto]|];
    match goal with
    | |- context [validity_then_emit ?x] => exact (validity_then_emit_count x)
    end.
Qed.

(** So does a user edit, whose last slot emits nothing. *)
Lemma on_user_edit_count e ed :
  let r := on_user_edit e ed in
  (fst r <> inr tt -> site_modified_emitted (snd r) = site_modified_emitted ed) /\
  (site_modified_emitted (snd r) = site_modified_emitted ed \/
   site_modified_emitted (snd r) = S (site_modified_emitted ed)).
Proof.
  cbv zeta. destruct (has_widget e ed) eqn:Hw.
  - rewrite (on_user_edit_widget _ _ Hw).
    pose proof (update_config_count (widget_set e ed)) as Hc. cbv zeta in Hc.
    assert (Hn : site_modified_emitted (widget_set e ed) = site_modified_emitted ed)
      by now destruct e.
    rewrite Hn in Hc.
    destruct e as [v|axis v|row v|row v]; try exact Hc.
    unfold bind.
    destruct (update_config _) as [[x|[]] ed1] eqn:Hrun; cbn [fst snd] in *;
      [exact Hc|].
    rewrite update_occupancy_validity_run.
    destruct (valid_result (ed_site ed1)) as [x|valid] eqn:Hv1; cbn [fst snd].
    + split; [intros _|]; destruct Hc as [Hc1 Hc2]; [|exact Hc2].
      apply update_config_returns in Hrun.
      destruct Hrun as (c & L & valid & _ & _ & _ & Hv & _). congruence.
    + destruct Hc as [_ Hc]. split; [congruence|exact Hc].
  - destruct e as [v|axis v|row v|row v]; cbn in Hw |- *;
      try rewrite bind_gets; try rewrite Hw; try discriminate; cbn; auto.
Qed.

(** X9. [site_modified] is the last thing [update_config] does: a call or a
    user edit that raises has emitted nothing.  A sequence of user edits
    emits at most one signal per edit, and the count of signals never
    decreases. *)
Theorem emissions_bounded (es : list field_edit) (e : field_edit) (ed : Editor) :
  (fst (update_config ed) <> inr tt ->
   site_modified_emitted (snd (update_config ed)) = site_modified_emitted ed) /\
  (fst (on_user_edit e ed) <> inr tt ->
   site_modified_emitted (snd (on_user_edit e ed)) = site_modified_emitted ed) /\
  site_modified_emitted ed <= site_modified_emitted (snd (run_edits es ed)) /\
  site_modified_emitted (snd (run_edits es ed)) <=
    site_modified_emitted ed + List.length es.
Proof.
  split; [apply update_config_count|]. split; [apply on_user_edit_count|].
  revert ed. induction es as [|x r IH]; intros ed; [cbn; lia|].
  unfold run_edits in *. cbn [for_each List.length]. unfold bind.
  destruct (on_user_edit_count x ed) as [_ Hx].
  destruct (on_user_edit x ed) as [[y|[]] ed1]; cbn [fst snd] in *; [lia|].
  specialize (IH ed1). lia.
Qed.

(** An edit under the unknown type ["V"] emits nothing; two edits emit at
    most twice. *)
Lemma emissions_bounded_witness :
  site_modified_emitted
    (snd (on_user_edit (EditOccupancy 0 0.5%float) (iron_editor "V"))) = 0 /\
  site_modified_emitted
    (snd (run_edits [EditOccupancy 0 0.5%float; EditOccupancy 0 1%float]
            (iron_editor "U"))) <= 2.
Proof.
  destruct (@emissions_bounded
              [EditOccupancy 0 0.5%float; EditOccupancy 0 1%float]
              (EditOccupancy 0 0.5%float) (iron_editor "V")) as (_ & Hraise & _).
  destruct (@emissions_bounded
              [EditOccupancy 0 0.5%float; EditOccupancy 0 1%float]
              (EditOccupancy 0 0.5%float) (iron_editor "U")) as (_ & _ & _ & Hle).
  split; [apply Hraise; vm_compute; discriminate|exact Hle].
Defined.

(** ** The layout of the table under user edits *)

(** A loop over [zip(atoms, spinboxes)] that keeps the symbols. *)
Lemma symbols_zip_update {B} (f : B -> Atom -> Atom) (l : list Atom) :
  (forall w a, atom_symbol (f w a) = atom_symbol a) ->
  forall ws, map atom_symbol (zip_update f l ws) = map atom_symbol l.
Proof.
  intros Hf. induction l as [|x r IH]; intros [|w ws]; cbn; try reflexivity.
  now rewrite Hf, IH.
Qed.

(** Showing the validity keeps the layout. *)
Lemma layout_styled valid ed : layout (styled valid ed) = layout ed.
Proof. unfold layout, styled. cbn. now rewrite length_map. Qed.

(** The validity and the signal keep the layout. *)
Lemma layout_validity_then_emit ed :
  layout (snd (validity_then_emit ed)) = layout ed.
Proof.
  unfold validity_then_emit.
  destruct (valid_result (ed_site ed)) as [e|[|]]; cbn [snd];
    [reflexivity|apply (layout_styled true ed)|apply layout_styled].
Qed.

(** [update_config] keeps the layout. *)
Lemma keeps_layout_update_config : keeps layout update_config.
Proof.
  intros ed. rewrite update_config_run. unfold update_config_result.
  destruct (write_coords _ _ _ _) as [c [|]]; [|reflexivity].
  assert (Ho : map atom_symbol (occupancies_written ed) =
               map atom_symbol (site_atoms (ed_site ed))).
  { unfold occupancies_written. now apply symbols_zip_update. }
  assert (Ht : forall k, map atom_symbol (thermal_factors_written k ed) =
               map atom_symbol (site_atoms (ed_site ed))).
  { intros k. unfold thermal_factors_written.
    rewrite symbols_zip_update; [exact Ho|reflexivity]. }
  destruct (multiplier_of 1 B_TO_U _) as [e|k];
    [destruct (zip _ _)|];
    rewrite ?layout_validity_then_emit; unfold layout; cbn;
    now rewrite ?Ho, ?Ht.
Qed.

(** A widget that reports a new value keeps the layout. *)
Lemma layout_widget_set e ed : layout (widget_set e ed) = layout ed.
Proof.
  destruct e as [v|[|[|axis]] v|row v|row v]; unfold layout; cbn;
    now rewrite ?length_list_update.
Qed.

(** A user edit keeps the layout. *)
Lemma keeps_layout_on_user_edit e : keeps layout (on_user_edit e).
Proof.
  intros ed. destruct (has_widget e ed) eqn:Hw.
  - rewrite (on_user_edit_widget _ _ Hw).
    destruct e as [v|axis v|row v|row v];
      try (now rewrite keeps_layout_update_config, layout_widget_set).
    rewrite <- (layout_widget_set (EditTotalOccupancy v) ed).
    apply (@keeps_bind _ _ _ layout update_config
             (fun _ => update_occupancy_validity)).
    + apply keeps_layout_update_config.
    + intros _. apply keeps_update_occupancy_validity. apply layout_styled.
  - destruct e as [v|axis v|row v|row v]; cbn in Hw |- *;
      try rewrite bind_gets; try rewrite Hw; try reflexivity; discriminate.
Qed.

(** X10. User edits write values only.  After any sequence of edits,
    stopped by an exception or not, the atoms are the same in number and
    carry the same symbols in the same order, both lists of spin boxes have
    the length they had, and the display type, the row count and the symbol
    labels of the table are unchanged. *)
Theorem edits_keep_layout (es : list field_edit) (ed : Editor) :
  let ed' := snd (run_edits es ed) in
  fst (atom_types ed') = fst (atom_types ed) /\
  List.length (site_atoms (ed_site ed')) = List.length (site_atoms (ed_site ed)) /\
  List.length (occupancy_spinboxes ed') = List.length (occupancy_spinboxes ed) /\
  List.length (thermal_factor_spinboxes ed') =
    List.length (thermal_factor_spinboxes ed) /\
  ui_thermal_factor_type (ed_ui ed') = ui_thermal_factor_type (ed_ui ed) /\
  ui_table_rowCount (ed_ui ed') = ui_table_rowCount (ed_ui ed) /\
  ui_table_symbols (ed_ui ed') = ui_table_symbols (ed_ui ed).
Proof.
  intros ed'.
  assert (H : layout ed' = layout ed).
  { apply (@keeps_for_each _ _ layout es on_user_edit keeps_layout_on_user_edit). }
  unfold layout in H. inversion H as [[Hs Ho Ht Hty Hrc Hsy Hhd]].
  unfold atom_types, gets. cbn [fst]. rewrite Hs.
  repeat split; try assumption.
  now rewrite <- (length_map atom_symbol), Hs, length_map.
Qed.

(** ** The validity display *)

(** [update_occupancy_validity] leaves the widgets it styles with the colour
    of the validity it found. *)
Lemma validity_shown_styled valid ed : validity_shown valid (styled valid ed).
Proof.
  unfold validity_shown, styled. cbn. apply Forall_app. split.
  - apply Forall_forall. intros w Hw. apply in_map_iff in Hw.
    destruct Hw as (x & <- & _). now destruct valid.
  - constructor; [now destruct valid|constructor].
Qed.

(** When it returns, the validity of the site is shown. *)
Lemma update_occupancy_validity_shown ed ed' :
  update_occupancy_validity ed = (inr tt, ed') ->
  exists valid, valid_result (ed_site ed') = inr valid /\ validity_shown valid ed'.
Proof.
  rewrite update_occupancy_validity_run.
  destruct (valid_result (ed_site ed)) as [e|valid] eqn:Hv; [discriminate|].
  intros H. inversion H; subst ed'. exists valid.
  split; [exact Hv|apply validity_shown_styled].
Qed.

(** The signal keeps what is shown. *)
Lemma emit_keeps_shown ed ed' valid :
  valid_result (ed_site ed) = inr valid -> validity_shown valid ed ->
  emit_site_modified_if_valid ed = (inr tt, ed') ->
  valid_result (ed_site ed') = inr valid /\ validity_shown valid ed'.
Proof.
  intros Hv Hs. rewrite emit_site_modified_if_valid_run, Hv.
  intros H. inversion H; subst ed'. now destruct valid.
Qed.

(** The validity is shown after the last two calls of [update_config]. *)
Lemma validity_then_emit_shown ed ed' :
  validity_then_emit ed = (inr tt, ed') ->
  exists valid, valid_result (ed_site ed') = inr valid /\ validity_shown valid ed'.
Proof.
  rewrite <- validity_then_emit_run. intros H.
  apply bind_returns in H. destruct H as ([] & ed1 & H1 & H2).
  apply update_occupancy_validity_shown in H1. destruct H1 as (valid & Hv & Hs).
  exists valid. now apply emit_keeps_shown with (ed := ed1).
Qed.

(** It is shown after [update_config]. *)
Lemma update_config_shown ed ed' :
  update_config ed = (inr tt, ed') ->
  exists valid, valid_result (ed_site ed') = inr valid /\ validity_shown valid ed'.
Proof.
  rewrite update_config_run. unfold update_config_result.
  destruct (write_coords _ _ _ _) as [c [|]]; [|discriminate].
  destruct (multiplier_of 1 B_TO_U _) as [e|k];
    [destruct (zip _ _); [|discriminate]|];
    apply validity_then_emit_shown.
Qed.

(** It is shown after [update_table]. *)
Lemma update_table_shown spin_stored ed ed' :
  update_table spin_stored ed = (inr tt, ed') ->
  exists valid, valid_result (ed_site ed') = inr valid /\ validity_shown valid ed'.
Proof.
  unfold update_table. intros H.
  apply bind_returns in H. destruct H as (l & ed1 & _ & H).
  apply bind_returns in H. destruct H as ([] & ed2 & _ & H).
  apply bind_returns in H. destruct H as ([] & ed3 & _ & H).
  apply bind_returns in H. destruct H as ([] & ed4 & _ & H).
  now apply update_occupancy_validity_shown in H.
Qed.

(** X11. The colour of the occupancy widgets tells the validity of the site
    as the method left it.  After [update_config], [update_table],
    [update_gui], [reset_occupancies], a user edit of an existing widget, or
    the [atom_types] setter on a list that differs, has returned, the
    validator returns on the site, and every occupancy spin box and the
    total occupancy widget are white without a tool tip when it returns
    true, red with the message when it returns false. *)
Theorem validity_is_shown DEFAULT_U spin_stored (e : field_edit) (v : list string)
    (ed ed' : Editor) :
  update_config ed = (inr tt, ed') \/
  update_table spin_stored ed = (inr tt, ed') \/
  update_gui spin_stored ed = (inr tt, ed') \/
  reset_occupancies ed = (inr tt, ed') \/
  (has_widget e ed = true /\ on_user_edit e ed = (inr tt, ed')) \/
  (v <> map atom_symbol (site_atoms (ed_site ed)) /\
   set_atom_types DEFAULT_U spin_stored v ed = (inr tt, ed')) ->
  exists valid,
    valid_result (ed_site ed') = inr valid /\ validity_shown valid ed'.
Proof.
  intros [H|[H|[H|[H|[[Hw H]|[Hne H]]]]]].
  - now apply update_config_shown in H.
  - now apply update_table_shown in H.
  - rewrite update_gui_run in H.
    destruct (coords_shown _ _) as [ed1 [|]]; [|discriminate].
    now apply update_table_shown in H.
  - rewrite reset_occupancies_run in H.
    now apply update_occupancy_validity_shown in H.
  - rewrite (on_user_edit_widget _ _ Hw) in H.
    destruct e as [x|axis x|row x|row x];
      try (now apply update_config_shown in H).
    apply bind_returns in H. destruct H as ([] & ed1 & _ & H).
    now apply update_occupancy_validity_shown in H.
  - destruct (@set_atom_types_run DEFAULT_U spin_stored v ed Hne) as (valid & _ & Hrun).
    rewrite Hrun in H. apply bind_returns in H. destruct H as ([] & ed1 & H1 & H2).
    apply update_table_shown in H1. destruct H1 as (valid' & Hv & Hs).
    exists valid'. now apply emit_keeps_shown with (ed := ed1).
Qed.

(** Setting the occupancy of the iron atom to 0.5 leaves the site invalid
    and the widgets red. *)
Lemma validity_is_shown_witness :
  let ed' := snd (on_user_edit (EditOccupancy 0 0.5%float) (iron_editor "U")) in
  valid_result (ed_site ed') = inr false /\ validity_shown false ed'.
Proof.
  intros ed'.
  destruct (@validity_is_shown hexrd_DFLT_U bounded_spin
              (EditOccupancy 0 0.5%float) [] (iron_editor "U") ed')
    as (valid & Hv & Hs).
  - right; right; right; right; left.
    split; vm_compute; reflexivity.
  - assert (Hf : valid_result (ed_site ed') = inr false) by (vm_compute; reflexivity).
    rewrite Hf in Hv. inversion Hv; subst valid. split; [exact Hf|exact Hs].
Defined.

(** Showing the same validity twice is showing it once. *)
Lemma styled_idem valid ed : styled valid (styled valid ed) = styled valid ed.
Proof.
  destruct ed as [s [wt wx wy wz ty rc sy hd] o th n].
  unfold styled. state_simpl. rewrite map_map. reflexivity.
Qed.

(** After the last two calls of [update_config] the validity display is up
    to date. *)
Lemma validity_then_emit_fixed ed ed' :
  validity_then_emit ed = (inr tt, ed') ->
  update_occupancy_validity ed' = (inr tt, ed').
Proof.
  unfold validity_then_emit.
  destruct (valid_result (ed_site ed)) as [e|valid] eqn:Hv; [discriminate|].
  intros H. inversion H; subst ed'. rewrite update_occupancy_validity_run.
  destruct valid; cbn [with_emitted styled ed_site with_ui with_occupancy_spinboxes];
    rewrite Hv; f_equal.
  - change (styled true (with_emitted S (styled true ed)))
      with (with_emitted S (styled true (styled true ed))).
    now rewrite styled_idem.
  - apply styled_idem.
Qed.

(** X12. Once [update_config] has returned, [update_occupancy_validity]
    changes nothing: the validity it would show is shown already.  So the
    second slot connected to the total occupancy widget adds nothing to an
    edit of the total occupancy whose [update_config] returns: the edit
    leaves the editor as [update_config] left it. *)
Theorem validity_slot_redundant (v : float) (ed ed' : Editor) :
  update_config ed = (inr tt, ed') ->
  update_occupancy_validity ed' = (inr tt, ed') /\
  (forall ed0, widget_set (EditTotalOccupancy v) ed0 = ed ->
   on_user_edit (EditTotalOccupancy v) ed0 = (inr tt, ed')).
Proof.
  intros Hrun.
  assert (Hfix : update_occupancy_validity ed' = (inr tt, ed')).
  { rewrite update_config_run in Hrun. unfold update_config_result in Hrun.
    destruct (write_coords _ _ _ _) as [c [|]]; [|discriminate].
    destruct (multiplier_of 1 B_TO_U _) as [e|k];
      [destruct (zip _ _); [|discriminate]|];
      now apply validity_then_emit_fixed in Hrun. }
  split; [exact Hfix|]. intros ed0 Hed0. subst ed.
  rewrite (@on_user_edit_widget (EditTotalOccupancy v) ed0 eq_refl).
  unfold bind. rewrite Hrun. exact Hfix.
Qed.

(** Setting the total occupancy of the iron editor to 2. *)
Lemma validity_slot_redundant_witness :
  on_user_edit (EditTotalOccupancy 2%float) (iron_editor "U") =
  (inr tt,
   snd (update_config (widget_set (EditTotalOccupancy 2%float) (iron_editor "U")))).
Proof.
  apply (@validity_slot_redundant 2%float
           (widget_set (EditTotalOccupancy 2%float) (iron_editor "U"))
           (snd (update_config
                   (widget_set (EditTotalOccupancy 2%float) (iron_editor "U"))))).
  - vm_compute. reflexivity.
  - reflexivity.
Defined.

(** ** Reading a shown thermal factor back *)

(** A value is within the tolerance of itself. *)
Lemma within_tolerance_refl (x : float) : within_tolerance x x.
Proof.
  unfold within_tolerance.
  assert ((F2Q x - F2Q x == 0)%Q) as -> by ring.
  pose proof (Qabs_nonneg (F2Q x)). pose proof (pow2_pos (-1068)).
  change (Qabs 0) with 0%Q. unfold u64. nra.
Qed.

(** A float below [2^1016] in magnitude is finite. *)
Lemma finite_below_2p1016 (x : float) :
  (abs x <? 0x1p1016)%float = true -> finite x = true.
Proof.
  intros Hx. unfold finite.
  now destruct (below_2p1016 Hx) as [[s ->]|(s & m & e & -> & _)].
Qed.



(** ** User edits and edits of the site *)

(** Under ["U"], the two loops of [update_config] over the spin boxes leave
    the atoms [l'] that the spin boxes show, for atoms of the same
    symbols. *)
Lemma atoms_written (l : list Atom) : forall (l' : list Atom) (ows tws : list SpinBox),
  map atom_symbol l' = map atom_symbol l ->
  map atom_occupancy l' = map (fun w => Some (sb_value w)) ows ->
  map (fun a => (atom_U a * 1)%float) l' = map sb_value tws ->
  zip_update (fun w => set_U (sb_value w * 1)%float)
    (zip_update (fun w => set_occupancy (sb_value w)) l ows) tws = l'.
Proof.
  induction l as [|x r IH]; intros [|x' r'] [|ow ows] [|tw tws] Hs Ho Ht;
    try discriminate; try reflexivity.
  cbn in Hs, Ho, Ht |- *.
  inversion Hs as [[Hs1 Hs2]]. inversion Ho as [[Ho1 Ho2]].
  inversion Ht as [[Ht1 Ht2]].
  rewrite (IH r' ows tws Hs2 Ho2 Ht2). f_equal.
  destruct x as [sx ox ux], x' as [sx' ox' ux']. cbn in *.
  unfold set_U, set_occupancy. cbn. rewrite !mul_1_r. rewrite mul_1_r in Ht1.
  now subst.
Qed.

(** Showing the validity changes no value that is shown. *)
Lemma widgets_show_styled k valid ed :
  widgets_show k ed -> widgets_show k (styled valid ed).
Proof.
  unfold widgets_show, styled. cbn. rewrite !map_map. cbn. tauto.
Qed.

(** Under ["U"], [update_config] makes the site the one its widgets show:
    it returns, emitting the signal when that site is valid. *)
Lemma update_config_writes_shown ed s' :
  ui_thermal_factor_type (ed_ui ed) = "U"%string ->
  widgets_show 1 (with_site (fun _ => s') ed) ->
  map atom_symbol (site_atoms s') = map atom_symbol (site_atoms (ed_site ed)) ->
  List.length (site_fractional_coords s') =
    List.length (site_fractional_coords (ed_site ed)) ->
  skipn 3 (site_fractional_coords s') = skipn 3 (site_fractional_coords (ed_site ed)) ->
  exists valid,
    valid_result s' = inr valid /\
    update_config ed =
    (inr tt, let ed1 := styled valid (with_site (fun _ => s') ed) in
             if valid then with_emitted S ed1 else ed1).
Proof.
  intros Hty (Ht & Hc & Ho & HU) Hs Hlen Hskip.
  cbn [with_site ed_site ed_ui occupancy_spinboxes thermal_factor_spinboxes] in *.
  assert (Hocc : Forall (fun a => atom_occupancy a <> None) (site_atoms s')).
  { apply Forall_forall. intros a Ha.
    apply (in_map atom_occupancy) in Ha. rewrite Ho in Ha.
    apply in_map_iff in Ha. destruct Ha as (w & <- & _). discriminate. }
  destruct (valid_result_occupied _ Hocc) as [valid Hv].
  exists valid. split; [exact Hv|].
  rewrite update_config_run. unfold update_config_result.
  rewrite Hty. cbn [multiplier_of String.eqb Ascii.eqb Bool.eqb].
  unfold thermal_factors_written, occupancies_written.
  rewrite (@atoms_written _ _ _ _ Hs Ho HU).
  destruct s' as [t' c' a']. cbn in *.
  destruct c' as [|x [|y [|z r]]]; try discriminate.
  destruct (site_fractional_coords (ed_site ed)) as [|x0 [|y0 [|z0 r0]]];
    try discriminate.
  cbn in Hc, Hskip |- *. inversion Hc. subst.
  unfold validity_then_emit. cbn [with_site ed_site]. rewrite Hv. reflexivity.
Qed.

(** Once the widget of an edit reports the new value, the widgets show the
    site with the edit made on it; a thermal factor edit needs a value that
    the multiplier of the display leaves as it is. *)
Lemma edit_shown k e ed :
  has_widget e ed = true -> widgets_show k ed ->
  (forall row v, e = EditThermalFactor row v -> (v * k)%float = v) ->
  let s' := direct_edit e (ed_site ed) in
  widgets_show k (with_site (fun _ => s') (widget_set e ed)) /\
  map atom_symbol (site_atoms s') = map atom_symbol (site_atoms (ed_site ed)) /\
  List.length (site_fractional_coords s') =
    List.length (site_fractional_coords (ed_site ed)) /\
  skipn 3 (site_fractional_coords s') = skipn 3 (site_fractional_coords (ed_site ed)).
Proof.
  intros Hw (Ht & Hc & Ho & HU) Hk.
  destruct ed as [[t c a] [wt wx wy wz ty rc sy hd] o th n].
  cbn in Ht, Hc, Ho, HU.
  destruct e as [v|axis v|row v|row v]; cbn in Hw; unfold widgets_show; cbn.
  - repeat split; assumption.
  - rewrite Hw. cbn.
    destruct c as [|x [|y [|z r]]]; try discriminate. inversion Hc; subst.
    destruct axis as [|[|[|axis]]]; [| | |discriminate]; cbn; repeat split;
      assumption.
  - repeat split; try assumption.
    + rewrite (map_list_update atom_occupancy (set_occupancy v) (fun _ => Some v))
        by reflexivity.
      rewrite (map_list_update (fun w => Some (sb_value w)) (set_value v)
                 (fun _ => Some v)) by reflexivity.
      now rewrite Ho.
    + now rewrite map_list_update_same.
    + now apply map_list_update_same.
  - repeat split; try assumption.
    + now rewrite map_list_update_same.
    + rewrite (map_list_update (fun a => (atom_U a * k)%float) (set_U v)
                 (fun _ => (v * k)%float)) by reflexivity.
      rewrite (map_list_update sb_value (set_value v) (fun _ => v)) by reflexivity.
      now rewrite HU, (Hk row v eq_refl).
    + now apply map_list_update_same.
Qed.

(** Widgets that show the site have a spin box of each kind per atom. *)
Lemma widgets_show_lengths k ed :
  widgets_show k ed ->
  List.length (occupancy_spinboxes ed) = List.length (site_atoms (ed_site ed)) /\
  List.length (thermal_factor_spinboxes ed) = List.length (site_atoms (ed_site ed)).
Proof.
  intros (_ & _ & Ho & HU). split.
  - now rewrite <- (length_map atom_occupancy), Ho, length_map.
  - now rewrite <- (length_map (fun a => (atom_U a * k)%float)), HU, length_map.
Qed.

(** So an edit has a widget exactly when its field exists. *)
Lemma has_widget_applies k e ed :
  widgets_show k ed -> has_widget e ed = edit_applies e (ed_site ed).
Proof.
  intros H. destruct (widgets_show_lengths H) as [Ho Ht].
  destruct e; cbn; now rewrite ?Ho, ?Ht.
Qed.

(** An edit of a field that does not exist is no edit. *)
Lemma direct_edit_no_target e s :
  edit_applies e s = false -> direct_edit e s = s.
Proof.
  destruct s as [t c a].
  destruct e as [v|axis v|row v|row v]; cbn; intros H; try discriminate.
  - now rewrite H.
  - apply Nat.ltb_ge in H. unfold set_atoms. cbn.
    now rewrite list_update_out_of_range.
  - apply Nat.ltb_ge in H. unfold set_atoms. cbn.
    now rewrite list_update_out_of_range.
Qed.

(** One user edit under ["U"], from widgets that show the site. *)
Lemma on_user_edit_direct e ed :
  ui_thermal_factor_type (ed_ui ed) = "U"%string -> widgets_show 1 ed ->
  exists ed',
    on_user_edit e ed = (inr tt, ed') /\
    ed_site ed' = direct_edit e (ed_site ed) /\
    site_modified_emitted ed' =
      site_modified_emitted ed + signals_of [e] (ed_site ed) /\
    ui_thermal_factor_type (ed_ui ed') = "U"%string /\
    widgets_show 1 ed'.
Proof.
  intros Hty Hshow. cbn [signals_of]. rewrite Nat.add_0_r.
  rewrite <- (has_widget_applies e Hshow).
  destruct (has_widget e ed) eqn:Hw.
  - destruct (@edit_shown 1%float e ed Hw Hshow) as (Hshow' & Hs & Hlen & Hskip);
      [intros row v _; apply mul_1_r|].
    cbv zeta in Hshow', Hs, Hlen, Hskip.
    set (s' := direct_edit e (ed_site ed)) in *.
    assert (Hty' : ui_thermal_factor_type (ed_ui (widget_set e ed)) = "U"%string).
    { rewrite <- Hty. now destruct e as [v|[|[|axis]] v|row v|row v]. }
    assert (Hsite : ed_site (widget_set e ed) = ed_site ed) by now destruct e.
    assert (Hn : site_modified_emitted (widget_set e ed) = site_modified_emitted ed)
      by now destruct e.
    rewrite <- Hsite in Hs, Hlen, Hskip.
    destruct (update_config_writes_shown Hty' Hshow' Hs Hlen Hskip)
      as (valid & Hv & Hrun).
    rewrite (on_user_edit_widget _ _ Hw), Hv.
    set (ed1 := styled valid (with_site (fun _ => s') (widget_set e ed))) in *.
    assert (Hshow1 : widgets_show 1 ed1) by now apply widgets_show_styled.
    assert (H1 : exists ed', update_config (widget_set e ed) = (inr tt, ed') /\
              ed_site ed' = s' /\
              site_modified_emitted ed' =
                site_modified_emitted ed + (if valid then 1 else 0) /\
              ui_thermal_factor_type (ed_ui ed') = "U"%string /\
              widgets_show 1 ed').
    { eexists. split; [exact Hrun|]. cbv zeta.
      destruct valid;
        (split; [reflexivity|split; [cbn; rewrite Hn; lia|
                                    split; [exact Hty'|exact Hshow1]]]). }
    destruct H1 as (ed' & Hrun' & Hs' & Hn' & Hty1 & Hshow'').
    destruct e as [v|axis v|row v|row v];
      try (exists ed';
           split; [exact Hrun'|split; [exact Hs'|split; [exact Hn'|
           split; [exact Hty1|exact Hshow'']]]]).
    unfold bind. rewrite Hrun', update_occupancy_validity_run, Hs', Hv.
    exists (styled valid ed').
    split; [reflexivity|split; [exact Hs'|split; [exact Hn'|
    split; [exact Hty1|now apply widgets_show_styled]]]].
  - exists ed. rewrite (has_widget_applies e Hshow) in Hw.
    rewrite (direct_edit_no_target _ _ Hw), Nat.add_0_r.
    rewrite <- (has_widget_applies e Hshow) in Hw.
    split; [|split; [reflexivity|split; [reflexivity|
             split; [exact Hty|exact Hshow]]]].
    destruct e as [v|axis v|row v|row v]; cbn in Hw |- *;
      try rewrite bind_gets; try rewrite Hw; try reflexivity; discriminate.
Qed.

(** X14. Under the display type ["U"], from an editor whose widgets hold
    the values of the site, the editor is a faithful front end of the site.
    Every sequence of user edits returns; the site it leaves is the site
    with the edited fields assigned one after the other, and nothing else
    changed; [site_modified] has been emitted once for every edit of an
    existing field that left the occupancies valid; and the widgets hold the
    values of the site again. *)
Theorem edits_refine_direct_edits (es : list field_edit) (ed : Editor) :
  ui_thermal_factor_type (ed_ui ed) = "U"%string -> widgets_show 1 ed ->
  exists ed',
    run_edits es ed = (inr tt, ed') /\
    ed_site ed' = fold_left (fun s e => direct_edit e s) es (ed_site ed) /\
    site_modified_emitted ed' =
      site_modified_emitted ed + signals_of es (ed_site ed) /\
    widgets_show 1 ed'.
Proof.
  revert ed. induction es as [|e r IH]; intros ed Hty Hshow.
  - exists ed. cbn. rewrite Nat.add_0_r.
    split; [reflexivity|split; [reflexivity|split; [reflexivity|exact Hshow]]].
  - destruct (on_user_edit_direct e Hty Hshow) as (ed1 & Hrun & Hs & Hn & Hty1 & Hshow1).
    destruct (IH ed1 Hty1 Hshow1) as (ed' & Hrun' & Hs' & Hn' & Hshow').
    exists ed'. unfold run_edits in *. cbn [for_each fold_left signals_of] in *.
    rewrite (bind_run _ Hrun), <- Hs.
    split; [exact Hrun'|split; [exact Hs'|split; [|exact Hshow']]].
    rewrite Hn', Hn, Hs. lia.
Qed.

(** Five edits of the iron editor, the last one of a row that does not
    exist: the site holds the last value of every field, and the signal was
    emitted once, by the fourth edit, which brought the occupancy of the
    atom back to 1. *)
Lemma edits_refine_direct_edits_witness :
  let es := [EditOccupancy 0 0.5%float; EditThermalFactor 0 0.01%float;
             EditFractionalCoord 2 0.75%float; EditOccupancy 0 1%float;
             EditOccupancy 7 0.5%float] in
  exists ed',
    run_edits es (iron_editor "U") = (inr tt, ed') /\
    ed_site ed' =
      mkSite 1%float [0%float; 0.5%float; 0.75%float]
             [mkAtom "Fe" (Some 1%float) 0.01%float] /\
    site_modified_emitted ed' = 1.
Proof.
  intros es.
  destruct (@edits_refine_direct_edits es (iron_editor "U"))
    as (ed' & Hrun & Hs & Hn & _).
  - reflexivity.
  - split; [reflexivity|split; [reflexivity|split; [reflexivity|]]].
    vm_compute. reflexivity.
  - exists ed'. split; [exact Hrun|split].
    + rewrite Hs. vm_compute. reflexivity.
    + rewrite Hn. vm_compute. reflexivity.
Defined.

(** Atoms agree with themselves. *)
Lemma same_but_U_rounded_refl l : U_in_range l -> same_but_U_rounded l l.
Proof.
  induction 1 as [|a l Ha _ IH]; constructor; [|exact IH].
  split; [reflexivity|split; [reflexivity|split]].
  - now apply finite_below_2p1016.
  - apply within_tolerance_refl.
Qed.

(** Under ["B"], the two loops of [update_config] over the spin boxes leave
    the atoms that the spin boxes show, but for the rounding of every
    [U]. *)
Lemma atoms_written_B (l : list Atom) : forall (l' : list Atom) (ows tws : list SpinBox),
  map atom_symbol l' = map atom_symbol l ->
  map atom_occupancy l' = map (fun w => Some (sb_value w)) ows ->
  map (fun a => (atom_U a * U_TO_B)%float) l' = map sb_value tws ->
  U_in_range l' ->
  same_but_U_rounded
    (zip_update (fun w => set_U (sb_value w * B_TO_U)%float)
       (zip_update (fun w => set_occupancy (sb_value w)) l ows) tws) l'.
Proof.
  induction l as [|x r IH]; intros [|x' r'] [|ow ows] [|tw tws] Hs Ho Ht Hr;
    try discriminate; try constructor.
  - cbn in Hs, Ho, Ht |- *.
    inversion Hs as [[Hs1 Hs2]]. inversion Ho as [[Ho1 Ho2]].
    inversion Ht as [[Ht1 Ht2]]. inversion Hr as [|? ? Hx Hr']; subst.
    destruct (scale_round_trip Hx) as [[Hf Hw] _].
    repeat split; try assumption; now symmetry.
  - cbn in Hs, Ho, Ht. inversion Hs. inversion Ho. inversion Ht.
    inversion Hr; subst. now apply IH.
Qed.

(** Atoms that agree carry occupancies together. *)
Lemma same_but_U_rounded_occupied l' l :
  same_but_U_rounded l' l ->
  Forall (fun a => atom_occupancy a <> None) l ->
  Forall (fun a => atom_occupancy a <> None) l'.
Proof.
  induction 1 as [|a' a l' l (_ & Ho & _) _ IH]; intros H; constructor;
    inversion H; subst.
  - now rewrite Ho.
  - now apply IH.
Qed.

(** Under ["B"], [update_config] makes the site the one its widgets show,
    but for the rounding of every [U]. *)
Lemma update_config_writes_shown_B ed s' :
  ui_thermal_factor_type (ed_ui ed) = "B"%string ->
  widgets_show U_TO_B (with_site (fun _ => s') ed) ->
  map atom_symbol (site_atoms s') = map atom_symbol (site_atoms (ed_site ed)) ->
  List.length (site_fractional_coords s') =
    List.length (site_fractional_coords (ed_site ed)) ->
  skipn 3 (site_fractional_coords s') = skipn 3 (site_fractional_coords (ed_site ed)) ->
  U_in_range (site_atoms s') ->
  exists ed',
    update_config ed = (inr tt, ed') /\
    site_total_occupancy (ed_site ed') = site_total_occupancy s' /\
    site_fractional_coords (ed_site ed') = site_fractional_coords s' /\
    same_but_U_rounded (site_atoms (ed_site ed')) (site_atoms s').
Proof.
  intros Hty (Ht & Hc & Ho & HU) Hs Hlen Hskip Hr.
  cbn [with_site ed_site ed_ui occupancy_spinboxes thermal_factor_spinboxes] in *.
  pose proof (@atoms_written_B _ _ _ _ Hs Ho HU Hr) as HL.
  assert (Hocc : Forall (fun a => atom_occupancy a <> None) (site_atoms s')).
  { apply Forall_forall. intros a Ha.
    apply (in_map atom_occupancy) in Ha. rewrite Ho in Ha.
    apply in_map_iff in Ha. destruct Ha as (w & <- & _). discriminate. }
  pose proof (same_but_U_rounded_occupied HL Hocc) as Hocc'.
  rewrite update_config_run. unfold update_config_result.
  rewrite Hty. cbn [multiplier_of String.eqb Ascii.eqb Bool.eqb].
  fold (occupancies_written ed) in HL, Hocc'.
  fold (thermal_factors_written B_TO_U ed) in HL, Hocc'.
  set (L := thermal_factors_written B_TO_U ed) in *.
  destruct s' as [t' c' a']. cbn in *.
  destruct c' as [|x [|y [|z r]]]; try discriminate.
  destruct (site_fractional_coords (ed_site ed)) as [|x0 [|y0 [|z0 r0]]];
    try discriminate.
  cbn in Hc, Hskip |- *. inversion Hc. subst.
  unfold validity_then_emit. cbn [with_site ed_site].
  destruct (valid_result_occupied
              (mkSite (sb_value (ui_total_occupancy (ed_ui ed)))
                 (sb_value (ui_coords_x (ed_ui ed)) ::
                  sb_value (ui_coords_y (ed_ui ed)) ::
                  sb_value (ui_coords_z (ed_ui ed)) :: r0) L) Hocc') as [valid ->].
  eexists. split; [reflexivity|].
  destruct valid; cbn; repeat split; exact HL.
Qed.

(** X15. Under the display type ["B"], from an editor whose widgets hold the
    values of the site, an edit of the total occupancy, of a coordinate or
    of an occupancy returns and assigns the edited field; but it also writes
    back the thermal factor of every atom, converted to B for the display
    and back to U: the symbols and the occupancies are as a direct edit
    leaves them, while every stored [U], not only that of an edited row, is
    replaced by a finite value within the floating tolerance of it, for
    stored values below [2^1016] in magnitude. *)
Theorem edit_under_B (e : field_edit) (ed : Editor) :
  ui_thermal_factor_type (ed_ui ed) = "B"%string ->
  widgets_show U_TO_B ed ->
  U_in_range (site_atoms (ed_site ed)) ->
  (forall row v, e <> EditThermalFactor row v) ->
  let s' := direct_edit e (ed_site ed) in
  exists ed',
    on_user_edit e ed = (inr tt, ed') /\
    site_total_occupancy (ed_site ed') = site_total_occupancy s' /\
    site_fractional_coords (ed_site ed') = site_fractional_coords s' /\
    same_but_U_rounded (site_atoms (ed_site ed')) (site_atoms s').
Proof.
  intros Hty Hshow Hr Hne s'.
  destruct (has_widget e ed) eqn:Hw.
  - destruct (@edit_shown U_TO_B e ed Hw Hshow) as (Hshow' & Hs & Hlen & Hskip);
      [intros row v ->; now contradiction (Hne row v)|].
    fold s' in Hshow', Hs, Hlen, Hskip.
    assert (Hty' : ui_thermal_factor_type (ed_ui (widget_set e ed)) = "B"%string).
    { rewrite <- Hty. now destruct e as [v|[|[|axis]] v|row v|row v]. }
    assert (Hsite : ed_site (widget_set e ed) = ed_site ed) by now destruct e.
    assert (Hr' : U_in_range (site_atoms s')).
    { unfold U_in_range in *. rewrite Forall_forall in *. intros a Ha.
      apply (in_map atom_U) in Ha.
      assert (HUs : map atom_U (site_atoms s') = map atom_U (site_atoms (ed_site ed))).
      { subst s'. destruct e as [v|axis v|row v|row v]; unfold direct_edit.
        - reflexivity.
        - destruct (axis <? 3); reflexivity.
        - cbn. now apply map_list_update_same.
        - now contradiction (Hne row v). }
      rewrite HUs in Ha. apply in_map_iff in Ha. destruct Ha as (b & <- & Hb).
      now apply Hr. }
    rewrite <- Hsite in Hs, Hlen, Hskip.
    destruct (update_config_writes_shown_B Hty' Hshow' Hs Hlen Hskip Hr')
      as (ed' & Hrun & Ht' & Hc' & HL).
    rewrite (on_user_edit_widget _ _ Hw).
    destruct e as [v|axis v|row v|row v];
      try (exists ed';
           split; [exact Hrun|split; [exact Ht'|split; [exact Hc'|exact HL]]]).
    unfold bind. rewrite Hrun, update_occupancy_validity_run.
    destruct (@update_config_shown _ _ Hrun) as (valid & -> & _).
    exists (styled valid ed').
    split; [reflexivity|split; [exact Ht'|split; [exact Hc'|exact HL]]].
  - exists ed. rewrite (has_widget_applies e Hshow) in Hw.
    subst s'. rewrite (direct_edit_no_target _ _ Hw).
    rewrite <- (has_widget_applies e Hshow) in Hw.
    split; [|split; [reflexivity|split; [reflexivity|
             now apply same_but_U_rounded_refl]]].
    destruct e as [v|axis v|row v|row v]; cbn in Hw |- *;
      try rewrite bind_gets; try rewrite Hw; try reflexivity; discriminate.
Qed.

(** Moving a coordinate of the shown iron site under ["B"] turns the
    stored [U = 0.1] into 0.09999999999999999. *)
Lemma edit_under_B_witness :
  exists ed',
    on_user_edit (EditFractionalCoord 0 0.125%float) (shown_editor "B" 0.1%float) =
      (inr tt, ed') /\
    same_but_U_rounded (site_atoms (ed_site ed'))
      [mkAtom "Fe" (Some 1%float) 0.1%float] /\
    map atom_U (site_atoms (ed_site ed')) = [0.099999999999999992%float].
Proof.
  destruct (@edit_under_B (EditFractionalCoord 0 0.125%float)
              (shown_editor "B" 0.1%float))
    as (ed' & Hrun & _ & _ & HL).
  - vm_compute. reflexivity.
  - split; [vm_compute; reflexivity|].
    split; [vm_compute; reflexivity|].
    split; vm_compute; reflexivity.
  - constructor; [vm_compute; reflexivity|constructor].
  - intros row v. discriminate.
  - exists ed'. split; [exact Hrun|split; [exact HL|]].
    apply (f_equal snd) in Hrun. cbn [snd] in Hrun. rewrite <- Hrun.
    vm_compute. reflexivity.
Defined.

(** ** Resetting the occupancies and setting the atom types *)

(** X16. [reset_occupancies] never raises, on any site: it returns with the
    occupancy of every atom set to [total_occupancy / len(atoms)], an atom
    that had no occupancy included, and with the symbol and the [U] of
    every atom, the total occupancy, the fractional coordinates and the
    count of signals as they were. *)
Theorem reset_occupancies_shares (ed : Editor) :
  let l := site_atoms (ed_site ed) in
  let q := (site_total_occupancy (ed_site ed) /
            float_of_int (Z.of_nat (List.length l)))%float in
  exists ed',
    reset_occupancies ed = (inr tt, ed') /\
    site_atoms (ed_site ed') = map (set_occupancy q) l /\
    site_frame ed' = site_frame ed /\
    site_modified_emitted ed' = site_modified_emitted ed.
Proof.
  intros l q. rewrite reset_occupancies_run, update_occupancy_validity_run.
  fold l. fold q.
  set (ed1 := with_site (set_atoms (map (set_occupancy q))) ed).
  assert (Hocc : Forall (fun a => atom_occupancy a <> None) (site_atoms (ed_site ed1))).
  { apply Forall_occupied_map. }
  destruct (valid_result_occupied _ Hocc) as [valid ->].
  exists (styled valid ed1). now repeat split.
Qed.

(** The symbols of the atoms made from a list of symbols. *)
Lemma symbols_of_new_atoms (q : option float) (u : float) (v : list string) :
  map atom_symbol (map (fun x => mkAtom x q u) v) = v.
Proof. rewrite map_map. cbn. apply map_id. Qed.

(** After the setter the symbols of the site are the list it was given,
    whether it returned or raised. *)
Lemma set_atom_types_symbols DEFAULT_U spin_stored v ed :
  map atom_symbol
    (site_atoms (ed_site (snd (set_atom_types DEFAULT_U spin_stored v ed)))) = v.
Proof.
  destruct (list_eq_dec string_dec v (map atom_symbol (site_atoms (ed_site ed))))
    as [Heq|Hne].
  - unfold set_atom_types, atom_types. rewrite bind_gets.
    destruct (list_eq_dec string_dec _ _) as [_|Hne]; [now cbn|contradiction].
  - destruct (@set_atom_types_run DEFAULT_U spin_stored v ed Hne) as (valid & _ & ->).
    rewrite keeps_site_table_then_emit. cbn.
    apply symbols_of_new_atoms.
Qed.

(** X17. The [atom_types] getter returns what the setter was given, and
    setting the same list again does nothing.  Both hold also when the
    setter raised on its way, after it had replaced the atoms: a second call
    with the same list then returns at once and repairs nothing. *)
Theorem set_atom_types_idempotent DEFAULT_U spin_stored (v : list string)
    (ed : Editor) :
  let ed' := snd (set_atom_types DEFAULT_U spin_stored v ed) in
  atom_types ed' = (inr v, ed') /\
  set_atom_types DEFAULT_U spin_stored v ed' = (inr tt, ed').
Proof.
  intros ed'.
  pose proof (set_atom_types_symbols DEFAULT_U spin_stored v ed) as Hs.
  fold ed' in Hs. split.
  - unfold atom_types, gets. now rewrite Hs.
  - unfold set_atom_types, atom_types. rewrite bind_gets, Hs.
    destruct (list_eq_dec string_dec v v) as [_|Hne]; [reflexivity|contradiction].
Qed.

(** The occupancies of the new atoms after their reset. *)
Lemma occupancies_of_new_atoms (q u : float) (v : list string) :
  map atom_occupancy (map (fun x => mkAtom x (Some q) u) v) =
  map Some (repeat q (List.length v)).
Proof. induction v as [|x v IH]; cbn; [reflexivity|now rewrite IH]. Qed.

(** X18. The [atom_types] setter, on a list [v] that differs from the
    current symbols.  Under the display type ["U"] or ["B"], or when [v] is
    empty, it returns and emits [site_modified] exactly once if [len(v)]
    shares of [total_occupancy / len(v)], added up from zero, come within
    [1e-6] of the total occupancy, and not at all otherwise; for an empty
    [v] that is when the total occupancy itself is below [1e-6] in
    magnitude.  Under another display type and a non-empty [v] it raises
    from [update_table], the atoms replaced and no signal emitted. *)
Theorem set_atom_types_emits DEFAULT_U spin_stored (v : list string) (ed : Editor) :
  let type := ui_thermal_factor_type (ed_ui ed) in
  let total := site_total_occupancy (ed_site ed) in
  let q := (total / float_of_int (Z.of_nat (List.length v)))%float in
  let r := set_atom_types DEFAULT_U spin_stored v ed in
  v <> map atom_symbol (site_atoms (ed_site ed)) ->
  (v = [] \/ type = "U"%string \/ type = "B"%string ->
   fst r = inr tt /\
   site_modified_emitted (snd r) =
     site_modified_emitted ed +
     (if isValid total (repeat q (List.length v)) then 1 else 0)) /\
  (v <> [] -> type <> "U"%string -> type <> "B"%string ->
   fst r = inl (Exception ("Unknown type: " ++ type)) /\
   site_modified_emitted (snd r) = site_modified_emitted ed).
Proof.
  intros type total q r Hne.
  destruct (@set_atom_types_run DEFAULT_U spin_stored v ed Hne) as (valid & Hv & Hrun).
  cbv zeta in Hv, Hrun. fold total in Hv, Hrun. fold q in Hv, Hrun.
  set (ed2 := with_site (set_atoms (fun _ =>
                map (fun x => mkAtom x (Some q) DEFAULT_U) v)) ed) in *.
  assert (Hoccs : map atom_occupancy (site_atoms (ed_site (styled valid ed2))) =
                  map Some (repeat q (List.length v))).
  { apply occupancies_of_new_atoms. }
  assert (Hvalid : valid = isValid total (repeat q (List.length v))).
  { rewrite (@valid_result_isValid (ed_site ed2) _ Hoccs) in Hv. now inversion Hv. }
  subst r. rewrite Hrun. unfold bind. split.
  - intros Hty.
    assert (Hk : exists k, site_atoms (ed_site (styled valid ed2)) <> [] ->
              multiplier_of 1 U_TO_B
                (ui_thermal_factor_type (ed_ui (styled valid ed2))) = inr k).
    { change (ui_thermal_factor_type (ed_ui (styled valid ed2))) with type.
      destruct Hty as [-> |[-> | ->]].
      - exists 1%float. now intros H.
      - now exists 1%float.
      - now exists U_TO_B. }
    destruct Hk as [k Hk].
    rewrite (@update_table_run spin_stored k _ _ Hoccs Hk).
    rewrite emit_site_modified_if_valid_run.
    match goal with |- context [valid_result ?s] =>
      change s with (ed_site ed2) end.
    rewrite Hv, <- Hvalid. destruct valid; cbn; split; try reflexivity; lia.
  - intros Hv0 HU HB. destruct v as [|x v]; [contradiction|].
    pose proof (@update_table_unknown_type spin_stored (styled valid ed2)
      (mkAtom x (Some q) DEFAULT_U) (map (fun x => mkAtom x (Some q) DEFAULT_U) v)
      HU HB eq_refl ltac:(discriminate)) as Hraise.
    pose proof (keeps_update_table spin_stored (styled valid ed2)) as Hmodel.
    destruct (update_table spin_stored (styled valid ed2)) as [[e|[]] ed3];
      cbn [fst snd] in *; [|discriminate].
    split; [exact Hraise|]. unfold model in Hmodel. now inversion Hmodel.
Qed.

(** Emptying the iron site of total occupancy 1 emits nothing, also under
    the unknown type ["V"]; giving it iron and oxygen under ["B"] emits
    once. *)
Lemma set_atom_types_emits_witness :
  (let r := set_atom_types hexrd_DFLT_U bounded_spin [] (iron_editor "V") in
   fst r = inr tt /\ site_modified_emitted (snd r) = 0) /\
  (let r := set_atom_types hexrd_DFLT_U bounded_spin ["Fe"; "O"]%string
              (iron_editor "B") in
   fst r = inr tt /\ site_modified_emitted (snd r) = 1).
Proof.
  split.
  - destruct (@set_atom_types_emits hexrd_DFLT_U bounded_spin [] (iron_editor "V"))
      as [H _]; [discriminate|].
    destruct H as [Hr Hn]; [now left|]. split; [exact Hr|]. rewrite Hn.
    vm_compute. reflexivity.
  - destruct (@set_atom_types_emits hexrd_DFLT_U bounded_spin ["Fe"; "O"]%string
                (iron_editor "B")) as [H _]; [discriminate|].
    destruct H as [Hr Hn]; [now right; right|]. split; [exact Hr|]. rewrite Hn.
    vm_compute. reflexivity.
Defined.

(** ** The outcome of showing a site *)

(** When no row fails every atom carries an occupancy. *)
Lemma first_row_failure_none type l :
  first_row_failure type l = None ->
  Forall (fun a => atom_occupancy a <> None) l.
Proof.
  induction l as [|a r IH]; cbn [first_row_failure]; [constructor|].
  intros H.
  destruct (atom_occupancy a) eqn:Ha; [|discriminate].
  destruct (multiplier_of 1 U_TO_B type); [discriminate|].
  constructor; [congruence|now apply IH].
Qed.

(** Filling one row: the outcome, and the site and the display type are
    kept. *)
Lemma table_row_outcome spin_stored i x ed :
  exists ed',
    (column <- getitem_COLUMNS "symbol" ;;
     setItem i column (atom_symbol x) ;;
     occ <- getitem_occupancy x ;;
     create_occupancy_spinbox spin_stored occ ;;
     tf <- thermal_factor x ;;
     create_thermal_factor_spinbox spin_stored tf) ed =
    (match atom_occupancy x with
     | None => inl (KeyError "occupancy")
     | Some _ =>
         match multiplier_of 1 U_TO_B (ui_thermal_factor_type (ed_ui ed)) with
         | inl e => inl e
         | inr _ => inr tt
         end
     end, ed') /\
    ed_site ed' = ed_site ed /\
    ui_thermal_factor_type (ed_ui ed') = ui_thermal_factor_type (ed_ui ed).
Proof.
  rewrite getitem_COLUMNS_symbol, bind_ret.
  unfold setItem, getitem_occupancy, create_occupancy_spinbox,
    create_thermal_factor_spinbox.
  rewrite bind_modify.
  destruct (atom_occupancy x) as [o|].
  - rewrite bind_ret, bind_modify. unfold bind.
    rewrite thermal_factor_run. proj_simpl.
    destruct (multiplier_of 1 U_TO_B (ui_thermal_factor_type (ed_ui ed)));
      eexists; (split; [reflexivity|split; reflexivity]).
  - eexists. split; [reflexivity|split; reflexivity].
Qed.

(** The loop of [update_table] stops at the first row that fails. *)
Lemma table_loop_outcome spin_stored : forall l i ed,
  exists ed',
    for_each (enumerate_from i l) (fun '(i, atom) =>
      column <- getitem_COLUMNS "symbol" ;;
      setItem i column (atom_symbol atom) ;;
      occ <- getitem_occupancy atom ;;
      create_occupancy_spinbox spin_stored occ ;;
      tf <- thermal_factor atom ;;
      create_thermal_factor_spinbox spin_stored tf) ed =
    (match first_row_failure (ui_thermal_factor_type (ed_ui ed)) l with
     | Some e => inl e
     | None => inr tt
     end, ed') /\
    ed_site ed' = ed_site ed.
Proof.
  induction l as [|x l IH]; intros i ed; [now exists ed|].
  cbn [enumerate_from for_each first_row_failure]. unfold bind at 1.
  destruct (table_row_outcome spin_stored i x ed) as (ed1 & -> & Hs & Hty).
  destruct (atom_occupancy x) as [o|]; [|now exists ed1].
  destruct (multiplier_of 1 U_TO_B (ui_thermal_factor_type (ed_ui ed)))
    as [e|k] eqn:Hk; [now exists ed1|].
  destruct (IH (S i) ed1) as (ed' & Hrun & Hs').
  exists ed'. rewrite Hrun, Hty. split; [reflexivity|congruence].
Qed.

(** The outcome of [update_table]. *)
Lemma update_table_outcome spin_stored ed :
  fst (update_table spin_stored ed) =
  match first_row_failure (ui_thermal_factor_type (ed_ui ed))
          (site_atoms (ed_site ed)) with
  | Some e => inl e
  | None => inr tt
  end.
Proof.
  unfold update_table, atoms, clear_table, setRowCount, enumerate.
  rewrite bind_gets. unfold bind at 1. unfold bind at 1. unfold bind at 1.
  cbn [modify]. unfold bind at 1. cbn [modify]. unfold bind at 1.
  match goal with |- context [for_each (enumerate_from 0 ?l) _ ?ed1] =>
    destruct (@table_loop_outcome spin_stored l 0 ed1) as (ed2 & -> & Hs) end.
  proj_simpl.
  destruct (first_row_failure _ _) eqn:Hfail; [reflexivity|].
  rewrite update_occupancy_validity_run, Hs.
  apply first_row_failure_none in Hfail.
  now destruct (valid_result_occupied _ Hfail) as [valid ->].
Qed.

(** X19. Whether a site can be shown is decided by the site and the display
    type alone, in this order: [IndexError] when the site has fewer than
    three fractional coordinates; otherwise, going through the atoms in
    order, [KeyError('occupancy')] at the first atom without an occupancy,
    or the exception of a display type other than ["U"] and ["B"] at the
    first atom, the occupancy being read first; otherwise success.  This is
    the outcome of [update_gui], of the [site] setter and of the
    constructor; [update_table] has the outcome of the atoms alone. *)
Theorem show_outcome spin_stored (v : Site) (ui : Ui) (ed : Editor) :
  let outcome (type : string) (s : Site) : exn + unit :=
    match show_failure type s with Some e => inl e | None => inr tt end in
  let type := ui_thermal_factor_type (ed_ui ed) in
  fst (update_table spin_stored ed) =
    match first_row_failure type (site_atoms (ed_site ed)) with
    | Some e => inl e
    | None => inr tt
    end /\
  fst (update_gui spin_stored ed) = outcome type (ed_site ed) /\
  fst (set_site spin_stored v ed) = outcome type v /\
  fst (__init__ spin_stored v ui) = outcome (ui_thermal_factor_type ui) v.
Proof.
  intros outcome type.
  assert (H : forall ed0, fst (update_gui spin_stored ed0) =
            outcome (ui_thermal_factor_type (ed_ui ed0)) (ed_site ed0)).
  { intros ed0. rewrite update_gui_run.
    subst outcome. cbv beta. unfold show_failure, coords_shown.
    destruct ed0 as [[t c a] [wt wx wy wz ty rc sy hd] o th n].
    destruct c as [|c0 [|c1 [|c2 r]]]; try reflexivity.
    cbn [total_shown with_ui ed_ui ed_site site_fractional_coords List.length
         Nat.ltb Nat.leb].
    apply (update_table_outcome spin_stored). }
  split; [apply update_table_outcome|]. split; [apply H|].
  split; [|apply H]. unfold set_site. rewrite bind_modify. apply H.
Qed.

(** ** Infinite values and NaN *)

(** A sum is finite only if both of its terms are: an infinity or a NaN
    stays one, or turns into the other. *)
Lemma SFfinite_add x y :
  SFfinite (SF64add x y) = true -> SFfinite x = true /\ SFfinite y = true.
Proof.
  destruct x as [sx|sx| |sx mx ex], y as [sy|sy| |sy my ey];
    try (intros _; split; reflexivity);
    unfold SF64add, SFadd; cbn; try (destruct sx, sy); discriminate.
Qed.

(** So is a difference. *)
Lemma SFfinite_sub x y :
  SFfinite (SF64sub x y) = true -> SFfinite x = true /\ SFfinite y = true.
Proof.
  destruct x as [sx|sx| |sx mx ex], y as [sy|sy| |sy my ey];
    try (intros _; split; reflexivity);
    unfold SF64sub, SFsub; cbn; try (destruct sx, sy); discriminate.
Qed.

(** The same on floats. *)
Lemma finite_add (x y : float) :
  finite (x + y) = true -> finite x = true /\ finite y = true.
Proof. unfold finite. rewrite add_spec. apply SFfinite_add. Qed.

(** The same on floats, for the difference. *)
Lemma finite_sub (x y : float) :
  finite (x - y) = true -> finite x = true /\ finite y = true.
Proof. unfold finite. rewrite sub_spec. apply SFfinite_sub. Qed.

(** A finite sum from left to right has a finite start and finite terms. *)
Lemma finite_sum occs : forall acc,
  finite (fold_left PrimFloat.add occs acc) = true ->
  finite acc = true /\ Forall (fun o => finite o = true) occs.
Proof.
  induction occs as [|o occs IH]; intros acc H; cbn in *; [now split|].
  destruct (IH _ H) as [Hacc Hall]. destruct (finite_add _ _ Hacc) as [Ha Ho].
  split; [exact Ha|now constructor].
Qed.

(** What is below the tolerance in magnitude is finite. *)
Lemma below_tolerance_finite (x : float) :
  (abs x <? 1e-6)%float = true -> finite x = true.
Proof.
  rewrite ltb_spec, abs_spec. unfold finite.
  now destruct (Prim2SF x) as [s|s| |s m e].
Qed.

(** The validator accepts finite values only. *)
Lemma isValid_finite total occs :
  isValid total occs = true ->
  finite total = true /\ Forall (fun o => finite o = true) occs.
Proof.
  unfold isValid. intros H. apply below_tolerance_finite in H.
  destruct (finite_sub _ _ H) as [Hs Ht]. split; [exact Ht|].
  now apply finite_sum in Hs.
Qed.

(** X20. A site the validator accepts has a finite total occupancy and
    finite occupancies.  When the total occupancy or an occupancy is an
    infinity or a NaN, [abs(sum - total)] is an infinity or a NaN and is not
    below the tolerance: [occupancies_valid] is false and
    [emit_site_modified_if_valid] emits nothing. *)
Theorem valid_sites_are_finite (ed : Editor) (occs : list float) :
  map atom_occupancy (site_atoms (ed_site ed)) = map Some occs ->
  let total := site_total_occupancy (ed_site ed) in
  (occupancies_valid ed = (inr true, ed) ->
   finite total = true /\ Forall (fun o => finite o = true) occs) /\
  (finite total = false \/ Exists (fun o => finite o = false) occs ->
   occupancies_valid ed = (inr false, ed) /\
   emit_site_modified_if_valid ed = (inr tt, ed)).
Proof.
  intros Hoccs total.
  assert (Hv : valid_result (ed_site ed) = inr (isValid total occs)).
  { unfold valid_result, occupancy_gap.
    now rewrite (@occupancy_sum_fold _ occs 0%float Hoccs). }
  rewrite occupancies_valid_run, emit_site_modified_if_valid_run, Hv.
  split.
  - intros H. assert (Hvalid : isValid total occs = true) by congruence.
    now apply isValid_finite.
  - intros Hnf. destruct (isValid total occs) eqn:Hvalid; [|now split].
    exfalso. destruct (isValid_finite Hvalid) as [Ht Hall].
    destruct Hnf as [Hnf|Hnf]; [congruence|].
    apply Exists_exists in Hnf. destruct Hnf as (o & Ho & Hf).
    rewrite Forall_forall in Hall. specialize (Hall o Ho). congruence.
Qed.

(** The iron site with an infinite total occupancy. *)
Lemma valid_sites_are_finite_witness :
  let ed := with_site (set_total_occupancy infinity) (iron_editor "U") in
  occupancies_valid ed = (inr false, ed) /\
  emit_site_modified_if_valid ed = (inr tt, ed).
Proof.
  intros ed.
  apply (@valid_sites_are_finite ed [1%float]); [reflexivity|].
  left. reflexivity.
Defined.
